(** * Compact blueprint parser (src/blueprints/parser.py)

    A shallow embedding of [CompactBlueprintParser] and the properties of
    its five parts: the document driver ([parse_content]), the
    dependency-line parser ([_parse_blueprint_refs]), the component
    classifier ([_parse_component]), the member parser ([_parse_method])
    and the span resolver ([_find_component_end]).

    Text is modelled as [string] over the code points 0..255: a character
    is an [ascii] read as the Unicode code point of the same number, and
    the character classes below ([isspace], [isupper], [islower], [\w])
    are Python's on that range. *)

From Stdlib Require Import Bool Arith Lia List Ascii String.
Import ListNotations.
Local Open Scope string_scope.
Local Open Scope list_scope.
Local Open Scope bool_scope.
Local Open Scope nat_scope.

Set Implicit Arguments.

(** ** Python's [str] built-ins used by the parser *)

Module PyStr.

Definition code (a : ascii) : nat := nat_of_ascii a.

Definition between (lo hi : nat) (a : ascii) : bool :=
  (lo <=? code a) && (code a <=? hi).

(** [str.isspace] on one character; also the set removed by [str.strip()]
    and matched by [\s]. *)
Definition isspace (a : ascii) : bool :=
  between 9 13 a || between 28 32 a || (code a =? 133) || (code a =? 160).

(** [c.isupper()] and [c.islower()] for a one-character string. *)
Definition isupper_char (a : ascii) : bool :=
  between 65 90 a || between 192 214 a || between 216 222 a.

Definition islower_char (a : ascii) : bool :=
  between 97 122 a || (code a =? 170) || (code a =? 181) || (code a =? 186)
  || between 223 246 a || between 248 255 a.

Definition lower_char (a : ascii) : ascii :=
  if isupper_char a then ascii_of_nat (code a + 32) else a.

Fixpoint lower (s : string) : string :=
  match s with
  | EmptyString => EmptyString
  | String a s' => String (lower_char a) (lower s')
  end.

Fixpoint existsb_str (p : ascii -> bool) (s : string) : bool :=
  match s with
  | EmptyString => false
  | String a s' => p a || existsb_str p s'
  end.

(** [s.isupper()]: no lower-case character and at least one upper-case
    one (there is no title-case character below code point 256). *)
Definition isupper (s : string) : bool :=
  negb (existsb_str islower_char s) && existsb_str isupper_char s.

(** [c in s] for a one-character [c]. *)
Definition contains (c : ascii) (s : string) : bool :=
  existsb_str (Ascii.eqb c) s.

(** [s.startswith(p)]. *)
Fixpoint startswith (s p : string) {struct p} : bool :=
  match p, s with
  | EmptyString, _ => true
  | String b p', String a s' => Ascii.eqb a b && startswith s' p'
  | String _ _, EmptyString => false
  end.

(** [sub in s]. *)
Fixpoint contains_sub (sub s : string) : bool :=
  startswith s sub ||
  match s with
  | EmptyString => false
  | String _ s' => contains_sub sub s'
  end.

Fixpoint lstrip_with (p : ascii -> bool) (s : string) : string :=
  match s with
  | EmptyString => EmptyString
  | String a s' => if p a then lstrip_with p s' else s
  end.

Fixpoint rstrip_with (p : ascii -> bool) (s : string) : string :=
  match s with
  | EmptyString => EmptyString
  | String a s' =>
      match rstrip_with p s' with
      | EmptyString => if p a then EmptyString else String a EmptyString
      | r => String a r
      end
  end.

(** [s.strip()]. *)
Definition strip (s : string) : string :=
  rstrip_with isspace (lstrip_with isspace s).

(** [s.strip(chars)]: the characters of [chars] removed from both ends. *)
Definition strip_chars (chars s : string) : string :=
  rstrip_with (fun a => contains a chars) (lstrip_with (fun a => contains a chars) s).

(** [s.split(sep)] for a one-character separator: never an empty list. *)
Fixpoint split (sep : ascii) (s : string) : list string :=
  match s with
  | EmptyString => [EmptyString]
  | String a s' =>
      if Ascii.eqb a sep then EmptyString :: split sep s'
      else match split sep s' with
           | h :: t => String a h :: t
           | [] => [String a EmptyString]
           end
  end.

(** [s.split(sep, 1)]: one element when [sep] is absent, otherwise the
    text before the first [sep] and the text after it. *)
Fixpoint split1 (sep : ascii) (s : string) : list string :=
  match s with
  | EmptyString => [EmptyString]
  | String a s' =>
      if Ascii.eqb a sep then [EmptyString; s']
      else match split1 sep s' with
           | h :: t => String a h :: t
           | [] => [String a EmptyString]
           end
  end.

(** [s.index(c)]: position of the first [c].  Python raises [ValueError]
    when [c] is absent; every call in the parser is under a [c in s]
    test, and the model returns [length s] there. *)
Fixpoint index (c : ascii) (s : string) : nat :=
  match s with
  | EmptyString => 0
  | String a s' => if Ascii.eqb a c then 0 else S (index c s')
  end.

(** [s[n:]] *)
Fixpoint slice_from (n : nat) (s : string) : string :=
  match n, s with
  | 0, _ => s
  | S n', String _ s' => slice_from n' s'
  | S _, EmptyString => EmptyString
  end.

(** [s[:n]] *)
Fixpoint slice_to (n : nat) (s : string) : string :=
  match n, s with
  | 0, _ => EmptyString
  | S n', String a s' => String a (slice_to n' s')
  | S _, EmptyString => EmptyString
  end.

(** [s[a:b]] for non-negative [a] and [b] (empty when [b <= a]). *)
Definition slice (a b : nat) (s : string) : string :=
  slice_to (b - a) (slice_from a s).

(** [s.partition(c)[0]] and [s.partition(c)[2]]: the text before the first
    [c] (all of [s] when there is none) and the text after it (empty when
    there is none). *)
Fixpoint text_before (c : ascii) (s : string) : string :=
  match s with
  | EmptyString => EmptyString
  | String a s' => if Ascii.eqb a c then EmptyString
                   else String a (text_before c s')
  end.

Fixpoint text_after (c : ascii) (s : string) : string :=
  match s with
  | EmptyString => EmptyString
  | String a s' => if Ascii.eqb a c then s' else text_after c s'
  end.

Definition is_empty (s : string) : bool :=
  match s with EmptyString => true | _ => false end.

End PyStr.

Import PyStr.

(** ** The fragment of [re] the parser's patterns are written in

    Backtracking matching with Python's priorities: greedy operators try
    the longest alternative first, lazy ones the shortest, and the first
    complete match wins.  Every starred sub-pattern of the parser is a
    character class, so [Star] takes a class.  [re.match] anchors at the
    start of the text, which makes the leading [^] of the patterns
    redundant; it is left out. *)

Module Re.

Inductive re : Type :=
| Chr (p : ascii -> bool)                 (* one character of a class *)
| Lit (l : string)                        (* literal text *)
| Star (greedy : bool) (p : ascii -> bool) (* [p*] or [p*?] *)
| Seq (r1 r2 : re)
| Opt (r : re)                            (* [(?:r)?] *)
| Grp (n : nat) (r : re)                  (* capturing group number n *)
| Eol.                                    (* [$] *)

Definition Plus (greedy : bool) (p : ascii -> bool) : re :=
  Seq (Chr p) (Star greedy p).

(** Captured groups: [None] is Python's [None] of an unmatched group. *)
Definition groups := nat -> option string.

Definition no_groups : groups := fun _ => None.

Definition set_group (n : nat) (v : string) (g : groups) : groups :=
  fun m => if Nat.eqb m n then Some v else g m.

Definition newline : ascii := "010"%char.

Fixpoint drop_prefix (l s : string) : option string :=
  match l, s with
  | EmptyString, _ => Some s
  | String b l', String a s' => if Ascii.eqb a b then drop_prefix l' s' else None
  | String _ _, EmptyString => None
  end.

Section Matcher.

Variable A : Type.

Definition cont := string -> groups -> option A.

Fixpoint star (greedy : bool) (p : ascii -> bool) (k : cont)
         (s : string) (g : groups) : option A :=
  if greedy then
    match s with
    | String a s' =>
        if p a then
          match star greedy p k s' g with
          | Some x => Some x
          | None => k s g
          end
        else k s g
    | EmptyString => k s g
    end
  else
    match k s g with
    | Some x => Some x
    | None =>
        match s with
        | String a s' => if p a then star greedy p k s' g else None
        | EmptyString => None
        end
    end.

Fixpoint run (r : re) (k : cont) (s : string) (g : groups) : option A :=
  match r with
  | Chr p =>
      match s with
      | String a s' => if p a then k s' g else None
      | EmptyString => None
      end
  | Lit l =>
      match drop_prefix l s with
      | Some s' => k s' g
      | None => None
      end
  | Star greedy p => star greedy p k s g
  | Seq r1 r2 => run r1 (run r2 k) s g
  | Opt r1 =>
      match run r1 k s g with
      | Some x => Some x
      | None => k s g
      end
  | Grp n r1 =>
      run r1 (fun s' g' =>
                k s' (set_group n (slice_to (length s - length s') s) g')) s g
  | Eol =>
      match s with
      | EmptyString => k s g
      | String a EmptyString => if Ascii.eqb a newline then k s g else None
      | _ => None
      end
  end.

End Matcher.

(** [re.match(r, s)]: the groups of the first match at the start of [s]. *)
Definition rmatch (r : re) (s : string) : option groups :=
  run r (fun _ g => Some g) s no_groups.

(** Character classes of the parser's patterns. *)
Definition upper_AZ (a : ascii) : bool := between 65 90 a.
Definition digit (a : ascii) : bool := between 48 57 a.
Definition underscore : ascii := "_"%char.
Definition const_tail (a : ascii) : bool :=
  upper_AZ a || digit a || Ascii.eqb a underscore.
(** [\w]: Python's alphanumeric characters and the underscore. *)
Definition word (a : ascii) : bool :=
  digit a || between 65 90 a || Ascii.eqb a underscore || between 97 122 a
  || (code a =? 170) || between 178 179 a || (code a =? 181)
  || between 185 186 a || between 188 190 a || between 192 214 a
  || between 216 246 a || between 248 255 a.
Definition space (a : ascii) : bool := isspace a.
Definition not_char (c : ascii) (a : ascii) : bool := negb (Ascii.eqb a c).
(** [.] without DOTALL: anything but a newline. *)
Definition dot (a : ascii) : bool := negb (Ascii.eqb a newline).

End Re.

Import Re.

Declare Scope re_scope.
Delimit Scope re_scope with re.
Bind Scope re_scope with re.
Infix "+++" := Seq (at level 60, right associativity) : re_scope.

(** ** Data model (the dataclasses of parser.py) *)

Record Method : Type := mkMethod {
  m_name : string;
  m_params : string;
  m_return_type : option string;
  m_comment : option string;
  m_decorators : list string;
  m_is_async : bool
}.

(** The four values the [type] field of a [Component] takes. *)
Inductive component_type : Type :=
| type_class | type_function | type_constant | type_alias.

Record Component : Type := mkComponent {
  c_type : component_type;
  c_name : string;
  c_base_class : option string;
  c_methods : list Method;
  c_properties : list (string * string);   (* the [properties] dict *)
  c_value : option string;
  c_docstring : option string
}.

Record BlueprintReference : Type := mkBlueprintReference {
  module_path : string;
  items : list string
}.

Record Blueprint : Type := mkBlueprint {
  module_name : string;
  description : string;
  blueprint_refs : list BlueprintReference;
  components : list Component;
  notes : list string;
  raw_content : string;
  file_path : option string
}.

(** ** Exceptions *)

Inductive exn : Type :=
| ValueError (msg : string)
| IndexError.

(** The outcome of a call: a value, a raised exception, or [OutOfFuel]
    for the driver loop cut short by its step bound (shown below never to
    happen with the bound [parse_content] uses). *)
Inductive result (A : Type) : Type :=
| Ok (a : A)
| Raise (e : exn)
| OutOfFuel.

Arguments Ok {A} a.
Arguments Raise {A} e.
Arguments OutOfFuel {A}.

Definition bind {A B : Type} (r : result A) (f : A -> result B) : result B :=
  match r with
  | Ok a => f a
  | Raise e => Raise e
  | OutOfFuel => OutOfFuel
  end.

Notation "x <- r ;; k" := (bind r (fun x => k))
  (at level 61, r at next level, right associativity).

(** [s[0]] *)
Definition first_char (s : string) : result ascii :=
  match s with
  | String a _ => Ok a
  | EmptyString => Raise IndexError
  end.

Definition is_empty_list {A : Type} (l : list A) : bool :=
  match l with [] => true | _ => false end.

(** [lines[i]] for an index the caller has checked. *)
Definition line_at (lines : list string) (i : nat) : string :=
  nth i lines EmptyString.

(** A matched group as a string, and Python's [g.strip() if g else None]. *)
Definition group (g : groups) (n : nat) : string :=
  match g n with Some s => s | None => EmptyString end.

Definition strip_if_truthy (v : option string) : option string :=
  match v with
  | Some (String _ _ as s) => Some (strip s)
  | _ => None
  end.

Definition dquote : ascii := "034"%char.
Definition triple_quote : string :=
  String dquote (String dquote (String dquote EmptyString)).

(** ** The parser's regular expressions *)

(** Pattern "^[A-Z][A-Z0-9_]*:" *)
Definition re_constant_head : re :=
  (Chr upper_AZ +++ Star true const_tail +++ Lit ":")%re.

(** Pattern "^(NAME):\s*([^=]+)(?:\s*=\s*(.+))?$", where NAME stands for
    the pattern "[A-Z][A-Z0-9_]*" of the constant's name. *)
Definition re_constant : re :=
  (Grp 1 (Chr upper_AZ +++ Star true const_tail) +++ Lit ":" +++
   Star true space +++ Grp 2 (Plus true (not_char "=")) +++
   Opt (Star true space +++ Lit "=" +++ Star true space +++
        Grp 3 (Plus true dot)) +++
   Eol)%re.

(** Pattern "^(\w+)(?:\(([^)]+)\))?:?\s*$" *)
Definition re_class : re :=
  (Grp 1 (Plus true word) +++
   Opt (Lit "(" +++ Grp 2 (Plus true (not_char ")")) +++ Lit ")") +++
   Opt (Lit ":") +++ Star true space +++ Eol)%re.

(** Pattern "^(?:async\s+)?def\s+(\w+)\((.*?)\)(?:\s*->\s*(.+?))?:?\s*$" *)
Definition re_function : re :=
  (Opt (Lit "async" +++ Plus true space) +++ Lit "def" +++ Plus true space +++
   Grp 1 (Plus true word) +++ Lit "(" +++ Grp 2 (Star false dot) +++ Lit ")" +++
   Opt (Star true space +++ Lit "->" +++ Star true space +++
        Grp 3 (Plus false dot)) +++
   Opt (Lit ":") +++ Star true space +++ Eol)%re.

(** Pattern "^(?:async\s+)?(\w+)\((.*?)\)(?:\s*->\s*(.+))?$" *)
Definition re_method : re :=
  (Opt (Lit "async" +++ Plus true space) +++
   Grp 1 (Plus true word) +++ Lit "(" +++ Grp 2 (Star false dot) +++ Lit ")" +++
   Opt (Star true space +++ Lit "->" +++ Star true space +++
        Grp 3 (Plus true dot)) +++
   Eol)%re.

(** Pattern "^(?:async\s+)?def\s+\w+\(" *)
Definition re_function_head : re :=
  (Opt (Lit "async" +++ Plus true space) +++ Lit "def" +++ Plus true space +++
   Plus true word +++ Lit "(")%re.

(** Pattern "^\w+(?:\([^)]*\))?:?\s*$" *)
Definition re_class_shape : re :=
  (Plus true word +++
   Opt (Lit "(" +++ Star true (not_char ")") +++ Lit ")") +++
   Opt (Lit ":") +++ Star true space +++ Eol)%re.

Definition matches (r : re) (s : string) : bool :=
  match rmatch r s with Some _ => true | None => false end.

(** ** [_parse_blueprint_refs] *)

(** The body of the [for] loop for one entry: the references it appends
    to [blueprint_refs]. *)
Definition parse_dep (blueprint_refs : list BlueprintReference) (dep0 : string)
  : list BlueprintReference :=
  let dep := strip dep0 in
  if is_empty dep then blueprint_refs
  else if startswith dep "." || startswith dep "@" then
    if contains "[" dep && contains "]" dep then
      let package := strip (slice_to (index "[" dep) dep) in
      let items_str := slice (index "[" dep + 1) (index "]" dep) dep in
      let items := map strip (split "," items_str) in
      let package := if startswith package "@" then slice_from 1 package
                     else package in
      blueprint_refs ++ [mkBlueprintReference package items]
    else
      let module := if startswith dep "@" then slice_from 1 dep else dep in
      blueprint_refs ++ [mkBlueprintReference module []]
  else blueprint_refs.

Definition _parse_blueprint_refs (deps_str : string) : list BlueprintReference :=
  fold_left parse_dep (split ";" deps_str) [].

(** ** [_parse_method] *)

(** "Remove comments first": the line without its inline comment, and
    the comment. *)
Definition split_comment (line : string) : string * option string :=
  if contains "#" line then
    match split1 "#" line with
    | [p0; p1] => (strip p0, Some (strip p1))
    | _ => (line, None)
    end
  else (line, None).

(** The rest of [_parse_method], on the line without its comment. *)
Definition parse_signature (line : string) (comment : option string)
  : option Method :=
  (* Check for property *)
  if contains ":" line && negb (contains "(" line) then
    match split1 ":" line with
    | [p0; p1] => Some (mkMethod (strip p0) "" (Some (strip p1)) comment [] false)
    | _ => None
    end
  else
    (* Parse method signature *)
    match rmatch re_method line with
    | Some g =>
        Some (mkMethod (group g 1) (group g 2) (strip_if_truthy (g 3)) comment []
                       (startswith (strip line) "async "))
    | None => None
    end.

Definition _parse_method (line : string) : option Method :=
  let '(line', comment) := split_comment line in
  parse_signature line' comment.

(** ** [_parse_component] *)

(** The [while] loop over the class members, from line [i] on; [rest] is
    [lines[i:]].  Returns the methods and the index the loop stops at. *)
Fixpoint class_members (rest : list string) (i : nat)
         (decorators : list string) (methods : list Method)
  : list Method * nat :=
  match rest with
  | [] => (methods, i)
  | l :: rest' =>
      let member_line := strip l in
      if startswith member_line "-" || startswith member_line "@"
         || is_empty member_line then
        if startswith member_line "-" then
          match _parse_method (strip (slice_from 1 member_line)) with
          | Some method =>
              let method' :=
                mkMethod (m_name method) (m_params method)
                         (m_return_type method) (m_comment method)
                         (m_decorators method ++ decorators)
                         (m_is_async method) in
              class_members rest' (S i) [] (methods ++ [method'])
          | None => class_members rest' (S i) decorators methods
          end
        else if startswith member_line "@" then
          class_members rest' (S i) (decorators ++ [member_line]) methods
        else class_members rest' (S i) decorators methods
      else (methods, i)
  end.

(** The backward scan for decorators: [n] is [check_idx + 1]. *)
Fixpoint preceding_decorators (lines : list string) (n : nat)
         (decorators : list string) : list string :=
  match n with
  | 0 => decorators
  | S check_idx =>
      let l := strip (line_at lines check_idx) in
      if startswith l "@" then preceding_decorators lines check_idx (l :: decorators)
      else decorators
  end.

(** Rule 1, the assignment form ("TypeName = Type").  [Ok None] when the
    rule produces nothing and the following rules are to be tried. *)
Definition rule_assignment (line : string) : result (option Component) :=
  if contains "=" line && negb (startswith line "-") then
    match split1 "=" line with
    | [p0; p1] =>
        let name := strip p0 in
        let value := strip p1 in
        (* Skip if left-hand side contains ':' *)
        if negb (contains ":" name) then
          c0 <- first_char name ;;
          if (isupper_char c0 && existsb_str islower_char name)
             || contains_sub "type" (lower name) then
            Ok (Some (mkComponent type_alias name None [] [] (Some value) None))
          else if isupper name && contains "_" name then
            Ok (Some (mkComponent type_constant name None []
                                  [("type", "auto")] (Some value) None))
          else Ok None
        else Ok None
    | _ => Ok None
    end
  else Ok None.

(** Rule 2, the constant form ("CONSTANT_NAME: type = value"). *)
Definition rule_constant (line : string) : option Component :=
  if matches re_constant_head line then
    match rmatch re_constant line with
    | Some g =>
        Some (mkComponent type_constant (group g 1) None []
                          [("type", strip (group g 2))]
                          (strip_if_truthy (g 3)) None)
    | None => None
    end
  else None.

(** Rule 3, the class definition. *)
Definition rule_class (lines : list string) (start_idx : nat) (line : string)
  : option Component :=
  match rmatch re_class line with
  | Some g =>
      if (start_idx + 1 <? List.length lines)
         && startswith (strip (line_at lines (start_idx + 1))) "-" then
        let '(methods, _) :=
          class_members (skipn (start_idx + 1) lines) (start_idx + 1) [] [] in
        Some (mkComponent type_class (group g 1) (g 2) methods [] None None)
      else None
  | None => None
  end.

(** Rule 4, the standalone function. *)
Definition rule_function (lines : list string) (start_idx : nat) (line : string)
  : option Component :=
  match rmatch re_function line with
  | Some g =>
      let is_async := startswith (strip line) "async " in
      let decorators := preceding_decorators lines start_idx [] in
      let docstring :=
        if (start_idx + 1 <? List.length lines)
           && startswith (strip (line_at lines (start_idx + 1))) triple_quote
        then Some (strip_chars triple_quote (strip (line_at lines (start_idx + 1))))
        else None in
      let method :=
        mkMethod (group g 1) (group g 2) (strip_if_truthy (g 3)) None
                 decorators is_async in
      Some (mkComponent type_function (group g 1) None [method] [] None docstring)
  | None => None
  end.

(** The rules after the assignment form, in the order of the source. *)
Definition later_rules (lines : list string) (start_idx : nat) (line : string)
  : option Component :=
  match rule_constant line with
  | Some c => Some c
  | None =>
      match rule_class lines start_idx line with
      | Some c => Some c
      | None => rule_function lines start_idx line
      end
  end.

Definition _parse_component (lines : list string) (start_idx : nat)
  : result (option Component) :=
  let line := strip (line_at lines start_idx) in
  assigned <- rule_assignment line ;;
  match assigned with
  | Some c => Ok (Some c)
  | None => Ok (later_rules lines start_idx line)
  end.

(** ** [_find_component_end] *)

(** A line the span resolver takes for the start of a new component. *)
Definition looks_like_component (line : string) : bool :=
  matches re_function_head line || matches re_class_shape line
  || matches re_constant_head line
  || (contains "=" line && negb (startswith line "-")).

(** The [while] loop from line [i] on; [rest] is [lines[i:]].  [None]
    when the loop runs off the end of the lines. *)
Fixpoint find_end_from (rest : list string) (i : nat) : option nat :=
  match rest with
  | [] => None
  | l :: rest' =>
      let line := strip l in
      if is_empty line || startswith line triple_quote then
        find_end_from rest' (S i)
      else if startswith line "deps:" || startswith line "notes:"
              || startswith line "#" then Some (i - 1)
      else if negb (is_empty line) && negb (startswith line "-")
              && negb (startswith line "@") && looks_like_component line
      then Some (i - 1)
      else find_end_from rest' (S i)
  end.

Definition _find_component_end (lines : list string) (start_idx : nat) : nat :=
  match find_end_from (skipn (start_idx + 1) lines) (start_idx + 1) with
  | Some e => e
  | None => List.length lines - 1
  end.

(** ** [parse_content] *)

Definition missing_header : exn :=
  ValueError "Blueprint must start with # module.name".

Definition set_refs (bp : Blueprint) (refs : list BlueprintReference) : Blueprint :=
  mkBlueprint (module_name bp) (description bp) refs (components bp) (notes bp)
              (raw_content bp) (file_path bp).

Definition set_notes (bp : Blueprint) (ns : list string) : Blueprint :=
  mkBlueprint (module_name bp) (description bp) (blueprint_refs bp)
              (components bp) ns (raw_content bp) (file_path bp).

Definition add_component (bp : Blueprint) (c : Component) : Blueprint :=
  mkBlueprint (module_name bp) (description bp) (blueprint_refs bp)
              (components bp ++ [c]) (notes bp) (raw_content bp) (file_path bp).

(** One iteration of the driver's [while] loop at cursor [i < len(lines)]:
    the updated blueprint and the next cursor. *)
Definition parse_step (lines : list string) (i : nat) (bp : Blueprint)
  : result (Blueprint * nat) :=
  let line := strip (line_at lines i) in
  if startswith line "deps:" then
    let deps_str := strip (slice_from 5 line) in
    let refs := _parse_blueprint_refs deps_str in
    Ok (set_refs bp refs, i + 1)
  else if startswith line "notes:" then
    let notes_str := strip (slice_from 6 line) in
    Ok (set_notes bp (map strip (split "," notes_str)), i + 1)
  else if negb (is_empty line) && negb (startswith line "#") then
    component <- _parse_component lines i ;;
    match component with
    | Some c => Ok (add_component bp c, _find_component_end lines i + 1)
    | None => Ok (bp, i + 1)
    end
  else Ok (bp, i + 1).

Fixpoint parse_loop (fuel : nat) (lines : list string) (i : nat) (bp : Blueprint)
  : result Blueprint :=
  if i <? List.length lines then
    match fuel with
    | 0 => OutOfFuel
    | S fuel' =>
        st <- parse_step lines i bp ;;
        parse_loop fuel' lines (snd st) (fst st)
    end
  else Ok bp.

(** The lines the driver works on: [content.strip().split('\n')]. *)
Definition lines_of (content : string) : list string :=
  split newline (strip content).

Definition parse_content (content : string) : result Blueprint :=
  let lines := lines_of content in
  if is_empty_list lines || negb (startswith (line_at lines 0) "#") then
    Raise missing_header
  else
    let module_name := strip (strip_chars "#" (line_at lines 0)) in
    let description :=
      if 1 <? List.length lines then strip (line_at lines 1) else "" in
    let blueprint :=
      mkBlueprint module_name description [] [] [] content None in
    parse_loop (List.length lines) lines 2 blueprint.

(** ** Helpers to write inputs *)

Definition nl : string := String newline EmptyString.

(** The text whose lines are [ls]. *)
Definition unlines (ls : list string) : string := String.concat nl ls.

(** The cursor positions the driver loop visits from cursor [i] on: the
    loop of [parse_loop] with the cursor recorded at each iteration. *)
Fixpoint cursor_trace (fuel : nat) (lines : list string) (i : nat) (bp : Blueprint)
  : list nat :=
  if i <? List.length lines then
    match fuel with
    | 0 => []
    | S fuel' =>
        i :: match parse_step lines i bp with
             | Ok st => cursor_trace fuel' lines (snd st) (fst st)
             | _ => []
             end
    end
  else [].

(** ** Declarative reading of the patterns

    [Matches r s g s' g'] : pattern [r] can match a prefix of [s], leaving
    [s'] and turning the groups [g] into [g'].  [run] returns one of these
    matches, the first in Python's priority order. *)

Fixpoint forall_str (p : ascii -> bool) (s : string) : bool :=
  match s with
  | EmptyString => true
  | String a s' => p a && forall_str p s'
  end.

Inductive Matches : re -> string -> groups -> string -> groups -> Prop :=
| M_Chr p a s g : p a = true -> Matches (Chr p) (String a s) g s g
| M_Lit l s g : Matches (Lit l) (l ++ s)%string g s g
| M_Star greedy p u s g :
    forall_str p u = true -> Matches (Star greedy p) (u ++ s)%string g s g
| M_Seq r1 r2 s g s1 g1 s2 g2 :
    Matches r1 s g s1 g1 -> Matches r2 s1 g1 s2 g2 ->
    Matches (Seq r1 r2) s g s2 g2
| M_Opt_some r s g s' g' : Matches r s g s' g' -> Matches (Opt r) s g s' g'
| M_Opt_none r s g : Matches (Opt r) s g s g
| M_Grp n r s g s' g' :
    Matches r s g s' g' ->
    Matches (Grp n r) s g s'
            (set_group n (slice_to (String.length s - String.length s') s) g')
| M_Eol_end g : Matches Eol EmptyString g EmptyString g
| M_Eol_newline g :
    Matches Eol (String newline EmptyString) g (String newline EmptyString) g.

(** ** The dependency line as the specification words it *)

Module DepSpec.

(** The bracket body of an entry: the text inside its brackets, after
    the first '[' and up to the ']' that closes it. *)
Definition bracket_body (entry : string) : string :=
  text_before "]" (text_after "[" entry).

(** An entry is a blueprint reference when it is non-empty and starts
    with '.' or '@'. *)
Definition qualifying (entry : string) : bool :=
  negb (is_empty entry) && (startswith entry "." || startswith entry "@").

Definition has_brackets (entry : string) : bool :=
  contains "[" entry && contains "]" entry.

(** A leading '@' stripped, a leading '.' kept. *)
Definition strip_at (s : string) : string :=
  match s with
  | String a s' => if Ascii.eqb a "@" then s' else s
  | EmptyString => EmptyString
  end.

Definition dependency_of (entry : string) : BlueprintReference :=
  if has_brackets entry then
    mkBlueprintReference (strip_at (strip (text_before "[" entry)))
                         (map strip (split "," (bracket_body entry)))
  else mkBlueprintReference (strip_at entry) [].

Definition dependency_line (text : string) : list BlueprintReference :=
  map dependency_of (filter qualifying (map strip (split ";" text))).

End DepSpec.

(** ** Statements of the specification that are compared with the code *)

(** The dependency claim as the specification states it: the references
    read from a dependency text are those of its qualifying entries, the
    items of a bracketed entry being its bracket body split on ','. *)
Definition dependency_claim (deps_str : string) : Prop :=
  _parse_blueprint_refs deps_str = DepSpec.dependency_line deps_str.

(** An entry whose first ']' stands before its first '[' (all of the
    entry counting as before when there is no '['). *)
Definition closes_early (entry : string) : bool :=
  contains "]" (text_before "[" entry).

(** No entry of the dependency text closes early. *)
Definition well_bracketed (deps_str : string) : bool :=
  forallb (fun e => negb (closes_early (strip e))) (split ";" deps_str).

(** The text the items of a bracketed entry are read from: the bracket
    body, and nothing when the entry closes early. *)
Definition items_text (entry : string) : string :=
  if closes_early entry then "" else DepSpec.bracket_body entry.

(** The reference of a qualifying entry, with the items read from
    [items_text]. *)
Definition reference_of (entry : string) : BlueprintReference :=
  if DepSpec.has_brackets entry then
    mkBlueprintReference (DepSpec.strip_at (strip (text_before "[" entry)))
                         (map strip (split "," (items_text entry)))
  else mkBlueprintReference (DepSpec.strip_at entry) [].

Definition references_of_line (text : string) : list BlueprintReference :=
  map reference_of (filter DepSpec.qualifying (map strip (split ";" text))).

(** The first line of a text as it stands (no stripping). *)
Definition first_line (content : string) : string :=
  text_before newline content.

Definition is_deps_line (l : string) : bool := startswith (strip l) "deps:".

(** The references a [deps:] line declares. *)
Definition refs_of_line (l : string) : list BlueprintReference :=
  _parse_blueprint_refs (strip (slice_from 5 (strip l))).

(** Every reference of every [deps:] line from line 2 on, in order. *)
Definition all_declared_refs (lines : list string) : list BlueprintReference :=
  flat_map refs_of_line (filter is_deps_line (skipn 2 lines)).

(** The references of the last [deps:] line from line 2 on. *)
Definition last_declared_refs (lines : list string) : list BlueprintReference :=
  match rev (filter is_deps_line (skipn 2 lines)) with
  | l :: _ => refs_of_line l
  | [] => []
  end.

(** The index one before the one at which the class-member loop started
    after line [start_idx] stops: the last line taken as class body. *)
Definition class_body_end (lines : list string) (start_idx : nat) : nat :=
  snd (class_members (skipn (start_idx + 1) lines) (start_idx + 1) [] []) - 1.

(** ** The constant form as the specification words it *)

(** An upper-case name: the pattern "[A-Z][A-Z0-9_]*". *)
Definition is_constant_name (name : string) : bool :=
  match name with
  | String a t => upper_AZ a && forall_str const_tail t
  | EmptyString => false
  end.

Definition constant_component (name declared_type : string)
           (value : option string) : Component :=
  mkComponent type_constant name None [] [("type", declared_type)] value None.

(** The constant a line "name:rest" stands for: the declared type is the
    trimmed text between ':' and the first '=' (or the end of the line),
    the value the trimmed text after that '='; there is none when the
    text that would be the declared type or the value is missing. *)
Definition constant_of (name rest : string) : option Component :=
  if contains "=" rest then
    if is_empty (text_before "=" rest)
       || is_empty (text_after "=" rest) then None
    else Some (constant_component name (strip (text_before "=" rest))
                                  (Some (strip (text_after "=" rest))))
  else if is_empty rest then None
  else Some (constant_component name (strip rest) None).

(** A line of the assignment form whose name, the trimmed text before the
    first '=', is empty. *)
Definition empty_name_line (l : string) : bool :=
  contains "=" (strip l) && negb (startswith (strip l) "-")
  && is_empty (strip (text_before "=" (strip l))).

(** A line in front of which the span resolver stops. *)
Definition boundary_line (l : string) : bool :=
  let line := strip l in
  negb (is_empty line || startswith line triple_quote)
  && (startswith line "deps:" || startswith line "notes:" || startswith line "#"
      || (negb (is_empty line) && negb (startswith line "-")
          && negb (startswith line "@") && looks_like_component line)).

(** The constant claim as the specification states it: a line with an
    upper-case name and ':' at its start yields a constant. *)
Definition constant_claim (lines : list string) (i : nat) : Prop :=
  matches re_constant_head (strip (line_at lines i)) = true ->
  exists c, _parse_component lines i = Ok (Some c) /\ c_type c = type_constant.

(** A blueprint with a class whose body has two members, a blank line and
    a decorator, followed by a type alias. *)
Definition example_class_lines : list string :=
  ["#m"; "d"; "Foo(Base):"; "- bar()"; ""; "@dec"; "- baz: int"; "X = 1"].

Definition example_header : Blueprint :=
  mkBlueprint "m" "d" [] [] [] (unlines example_class_lines) None.

(** The references in force after the driver has gone through the lines
    [rest], [r0] being those in force before. *)
Definition refs_after (rest : list string) (r0 : list BlueprintReference)
  : list BlueprintReference :=
  fold_left (fun r l => if is_deps_line l then refs_of_line l else r) rest r0.

(** The header claim as the specification states it, on the first line of
    the text as it stands. *)
Definition header_claim (content : string) : Prop :=
  parse_content content = Raise missing_header <->
  startswith (first_line content) "#" = false.

(** ** [parse_file] *)

(** [parse_file]: [content] stands for what [file_path.read_text()]
    returns for the file at [path]. *)
Definition parse_file (path content : string) : result Blueprint :=
  blueprint <- parse_content content ;;
  Ok (mkBlueprint (module_name blueprint) (description blueprint)
                  (blueprint_refs blueprint) (components blueprint)
                  (notes blueprint) (raw_content blueprint) (Some path)).

(** ** Further notions used in the properties of the driver *)

(** The blueprint the driver starts its loop with. *)
Definition initial_blueprint (content : string) : Blueprint :=
  mkBlueprint (strip (strip_chars "#" (line_at (lines_of content) 0)))
              (if 1 <? List.length (lines_of content)
               then strip (line_at (lines_of content) 1) else "")
              [] [] [] content None.

Definition is_notes_line (l : string) : bool := startswith (strip l) "notes:".

(** The notes a [notes:] line declares. *)
Definition notes_of_line (l : string) : list string :=
  map strip (split "," (strip (slice_from 6 (strip l)))).

(** The notes of the last [notes:] line from line 2 on. *)
Definition last_declared_notes (lines : list string) : list string :=
  match rev (filter is_notes_line (skipn 2 lines)) with
  | l :: _ => notes_of_line l
  | [] => []
  end.

(** The notes in force after the driver has gone through the lines [rest]. *)
Definition notes_after (rest : list string) (n0 : list string) : list string :=
  fold_left (fun n l => if is_notes_line l then notes_of_line l else n) rest n0.

(** A blank line or a comment line. *)
Definition skipped_line (l : string) : bool :=
  is_empty (strip l) || startswith (strip l) "#".

(** ** Further notions used in the properties of the classifier *)

(** Whether group [n] occurs in a pattern. *)
Fixpoint binds (n : nat) (r : re) : bool :=
  match r with
  | Chr _ | Lit _ | Star _ _ | Eol => false
  | Seq r1 r2 => binds n r1 || binds n r2
  | Opt r1 => binds n r1
  | Grp m r1 => Nat.eqb n m || binds n r1
  end.

(** A decorator as the parser records it: a trimmed line starting with
    '@'. *)
Definition is_decorator_of (lines : list string) (s : string) : Prop :=
  startswith s "@" = true /\ strip s = s /\ In s (map strip lines).

(** The docstring the function form records for the line after [i]. *)
Definition docstring_after (lines : list string) (i : nat) : option string :=
  if (i + 1 <? List.length lines)
     && startswith (strip (line_at lines (i + 1))) triple_quote
  then Some (strip_chars triple_quote (strip (line_at lines (i + 1))))
  else None.

(** A function with two decorators above it and a docstring below. *)
Definition example_function_lines : list string :=
  ["x = 1"; "@a"; " @b(1) "; "def f():";
   (triple_quote ++ "Doc." ++ triple_quote)%string].

(** Whether a greedy [p*] can go no further at the start of [s]. *)
Definition stops (p : ascii -> bool) (s : string) : bool :=
  match s with
  | String a _ => negb (p a)
  | EmptyString => true
  end.

(** The last character of a text. *)
Fixpoint last_char (s : string) : option ascii :=
  match s with
  | EmptyString => None
  | String a s' => match last_char s' with
                   | Some c => Some c
                   | None => Some a
                   end
  end.

(** ** Shapes of signature lines *)

(** What stands before the name of an awaitable member or function:
    "async", one blank and further whitespace [w]; nothing otherwise. *)
Definition async_prefix (is_async : bool) (w : string) : string :=
  if is_async then ("async " ++ w)%string else "".

(** A name: one word character at least, and word characters only. *)
Definition is_word_name (name : string) : bool :=
  negb (is_empty name) && forall_str word name.

(** A parameter text the patterns read to its end: no ')', no newline and
    no '#'. *)
Definition is_params (params : string) : bool :=
  negb (contains ")" params) && negb (contains newline params)
  && negb (contains "#" params).

(** A return type text: it starts with something other than whitespace
    and holds neither newline nor '#'. *)
Definition is_return_text (R : string) : bool :=
  negb (is_empty R) && stops space R
  && negb (contains newline R) && negb (contains "#" R).

(** The ':' that may end a function line. *)
Definition colon_text (colon : bool) : string := if colon then ":" else "".

(** Whitespace, one character at least. *)
Definition is_blank (w : string) : bool :=
  negb (is_empty w) && forall_str space w.

(** A return type text that ends neither in ':' nor in whitespace. *)
Definition ends_plainly (R : string) : bool :=
  match last_char R with
  | Some c => negb (Ascii.eqb c ":") && negb (space c)
  | None => true
  end.

(** A function line: "def", whitespace, the name, the parameters in
    parentheses and [tail]; "async" and whitespace before it when
    [is_async]. *)
Definition function_line (is_async : bool) (w0 w name params tail : string)
  : string :=
  (async_prefix is_async w0 ++ "def" ++ w ++ name ++ "(" ++ params ++ ")"
   ++ tail)%string.

(** The component the function form builds for line [i]. *)
Definition function_component (lines : list string) (i : nat)
           (name params : string) (return_type : option string)
           (is_async : bool) : Component :=
  mkComponent type_function name None
    [mkMethod name params return_type None (preceding_decorators lines i [])
              is_async]
    [] None (docstring_after lines i).

(** ** Shapes of class header lines *)

(** The base class in parentheses, if any. *)
Definition base_text (base : option string) : string :=
  match base with
  | Some b => ("(" ++ b ++ ")")%string
  | None => ""
  end.

(** A base class text the parser reads as such: not empty, without ')'
    and without '='. *)
Definition is_base (base : option string) : bool :=
  match base with
  | Some b =>
      negb (is_empty b) && negb (contains ")" b) && negb (contains "=" b)
  | None => true
  end.

(** A class header: the name, the base class in parentheses if any, and
    an optional ':'. *)
Definition class_line (name : string) (base : option string) (colon : bool)
  : string :=
  (name ++ base_text base ++ colon_text colon)%string.

(** Whether line [i + 1] exists and is a member line. *)
Definition member_follows (lines : list string) (i : nat) : bool :=
  (i + 1 <? List.length lines)
  && startswith (strip (line_at lines (i + 1))) "-".

(** The component the class form builds for line [i]. *)
Definition class_component (lines : list string) (i : nat) (name : string)
           (base : option string) : Component :=
  mkComponent type_class name base
    (fst (class_members (skipn (i + 1) lines) (i + 1) [] [])) [] None None.

(** ** What a visited line contributes *)

(** The components the driver takes from line [j] when its cursor is on
    it: the component [_parse_component] reads there; nothing on a
    "deps:" or "notes:" line, on a blank line and on a '#' line. *)
Definition component_at (lines : list string) (j : nat) : list Component :=
  let line := strip (line_at lines j) in
  if startswith line "deps:" || startswith line "notes:"
     || is_empty line || startswith line "#"
  then []
  else match _parse_component lines j with
       | Ok (Some c) => [c]
       | _ => []
       end.

(** * Properties *)

Ltac case_if_in H :=
  match type of H with
  | context [if ?b then _ else _] => destruct b eqn:?
  end.

Ltac case_if :=
  match goal with
  | |- context [if ?b then _ else _] => destruct b eqn:?
  end.

(** ** Termination of the driver *)

Lemma find_end_from_lower_bound (rest : list string) (i e : nat) :
  find_end_from rest i = Some e -> i - 1 <= e.
Proof.
  revert i. induction rest as [|l rest IH]; intros i H; cbn [find_end_from] in H.
  - discriminate.
  - repeat case_if_in H; try (injection H as <-; lia); apply IH in H; lia.
Qed.

Lemma find_component_end_ge (lines : list string) (i : nat) :
  i < List.length lines -> i <= _find_component_end lines i.
Proof.
  intros Hi. unfold _find_component_end.
  destruct (find_end_from (skipn (i + 1) lines) (i + 1)) as [e|] eqn:E.
  - apply find_end_from_lower_bound in E. lia.
  - lia.
Qed.

Lemma ok_pair_inv (b b' : Blueprint) (n n' : nat) :
  Ok (b, n) = Ok (b', n') -> b = b' /\ n = n'.
Proof. intros H. injection H as -> ->. auto. Qed.

Lemma parse_step_advances (lines : list string) (i : nat) (bp bp' : Blueprint)
      (next : nat) :
  i < List.length lines ->
  parse_step lines i bp = Ok (bp', next) -> i < next.
Proof.
  intros Hi H. unfold parse_step in H.
  destruct (startswith (strip (line_at lines i)) "deps:").
  { injection H as _ <-. lia. }
  destruct (startswith (strip (line_at lines i)) "notes:").
  { injection H as _ <-. lia. }
  destruct (negb (is_empty (strip (line_at lines i)))
            && negb (startswith (strip (line_at lines i)) "#")).
  - destruct (_parse_component lines i) as [[c|]| |]; simpl in H; try discriminate.
    + injection H as _ <-. pose proof (find_component_end_ge lines Hi). lia.
    + injection H as _ <-. lia.
  - injection H as _ <-. lia.
Qed.

(** The only exception the classifier and the loop body raise is the
    [IndexError] of [name[0]]. *)
Lemma rule_assignment_result (line : string) :
  rule_assignment line = Raise IndexError \/
  exists r, rule_assignment line = Ok r.
Proof.
  unfold rule_assignment.
  destruct (contains "=" line && negb (startswith line "-")); [|right; eauto].
  destruct (split1 "=" line) as [|p0 [|p1 [|? ?]]]; try (right; eauto; fail).
  destruct (negb (contains ":" (strip p0))); [|right; eauto].
  destruct (strip p0) as [|a t]; [left; reflexivity|].
  cbn [first_char bind]. repeat case_if; right; eauto.
Qed.

Lemma parse_component_result (lines : list string) (i : nat) :
  _parse_component lines i = Raise IndexError \/
  exists r, _parse_component lines i = Ok r.
Proof.
  unfold _parse_component.
  destruct (rule_assignment_result (strip (line_at lines i))) as [E|[r E]];
    rewrite E; simpl.
  - left; reflexivity.
  - right. destruct r; eauto.
Qed.

Lemma parse_step_result (lines : list string) (i : nat) (bp : Blueprint) :
  parse_step lines i bp = Raise IndexError \/
  exists st, parse_step lines i bp = Ok st.
Proof.
  unfold parse_step.
  destruct (startswith (strip (line_at lines i)) "deps:"); [right; eauto|].
  destruct (startswith (strip (line_at lines i)) "notes:"); [right; eauto|].
  destruct (negb (is_empty (strip (line_at lines i)))
            && negb (startswith (strip (line_at lines i)) "#")); [|right; eauto].
  destruct (parse_component_result lines i) as [E|[r E]]; rewrite E; simpl.
  - left; reflexivity.
  - right. destruct r; eauto.
Qed.

Lemma parse_step_not_out_of_fuel (lines : list string) (i : nat) (bp : Blueprint) :
  parse_step lines i bp <> OutOfFuel.
Proof.
  destruct (parse_step_result lines i bp) as [E|[st E]]; rewrite E; discriminate.
Qed.

(** The driver always comes to an end within [len(lines) - i] iterations. *)
Lemma parse_loop_terminates (fuel : nat) (lines : list string) (i : nat)
      (bp : Blueprint) :
  List.length lines - i <= fuel -> parse_loop fuel lines i bp <> OutOfFuel.
Proof.
  revert i bp. induction fuel as [|fuel IH]; intros i bp Hf; simpl.
  - destruct (i <? List.length lines) eqn:E; [|discriminate].
    apply Nat.ltb_lt in E. lia.
  - destruct (i <? List.length lines) eqn:E; [|discriminate].
    apply Nat.ltb_lt in E.
    destruct (parse_step lines i bp) as [[bp' next]| |] eqn:S; simpl.
    + apply IH. apply parse_step_advances in S; [|assumption]. lia.
    + discriminate.
    + exfalso. exact (parse_step_not_out_of_fuel _ _ _ S).
Qed.

Lemma parse_content_terminates (content : string) :
  parse_content content <> OutOfFuel.
Proof.
  unfold parse_content.
  destruct (is_empty_list (lines_of content)
            || negb (startswith (line_at (lines_of content) 0) "#")).
  - discriminate.
  - apply parse_loop_terminates. lia.
Qed.

(** ** Strings *)

Lemma append_nil_r (s : string) : (s ++ "")%string = s.
Proof. induction s; simpl; congruence. Qed.

Lemma append_assoc (s t u : string) :
  ((s ++ t) ++ u)%string = (s ++ (t ++ u))%string.
Proof. induction s; simpl; congruence. Qed.

Lemma length_append (s t : string) :
  String.length (s ++ t) = String.length s + String.length t.
Proof. induction s; simpl; congruence. Qed.

Lemma slice_to_append (u s : string) :
  slice_to (String.length (u ++ s) - String.length s) (u ++ s) = u.
Proof.
  rewrite length_append.
  replace (String.length u + String.length s - String.length s)
    with (String.length u) by lia.
  induction u; simpl.
  - destruct s; reflexivity.
  - congruence.
Qed.

Lemma drop_prefix_spec (l s s' : string) :
  drop_prefix l s = Some s' <-> s = (l ++ s')%string.
Proof.
  revert s. induction l as [|b l IH]; intros s; simpl.
  - split; congruence.
  - destruct s as [|a s]; [split; discriminate|].
    destruct (Ascii.eqb_spec a b) as [->|N].
    + rewrite IH. split; congruence.
    + split; [discriminate|]. intros E. congruence.
Qed.

(** ** The matcher returns a match of the declarative reading, and finds
       one whenever there is one *)

Section MatcherFacts.

Variable A : Type.
Implicit Types (k : cont A) (s : string) (g : groups).

Lemma star_sound greedy p k s g x :
  star greedy p k s g = Some x ->
  exists u s', s = (u ++ s')%string /\ forall_str p u = true /\ k s' g = Some x.
Proof.
  induction s as [|a s IH]; destruct greedy; simpl; intros H.
  - exists "", "". auto.
  - destruct (k "" g) eqn:E; [|discriminate]. exists "", "". split; auto.
    split; auto. congruence.
  - destruct (p a) eqn:Pa.
    + destruct (star true p k s g) eqn:E.
      * destruct (IH H) as (u & s' & -> & Hu & Hk).
        exists (String a u), s'. simpl. rewrite Pa. auto.
      * exists "", (String a s). auto.
    + exists "", (String a s). auto.
  - destruct (k (String a s) g) eqn:E.
    + exists "", (String a s). split; auto. split; auto. congruence.
    + destruct (p a) eqn:Pa; [|discriminate].
      destruct (IH H) as (u & s' & -> & Hu & Hk).
      exists (String a u), s'. simpl. rewrite Pa. auto.
Qed.

Lemma star_complete greedy p k u s g x :
  forall_str p u = true -> k s g = Some x ->
  exists y, star greedy p k (u ++ s) g = Some y.
Proof.
  intros Hu Hk. induction u as [|a u IH]; simpl in *.
  - destruct s as [|b s], greedy; simpl; rewrite ?Hk; eauto.
    destruct (p b); [|eauto].
    destruct (star true p k s g); eauto.
  - apply andb_true_iff in Hu as [Pa Hu]. destruct (IH Hu) as [y Hy].
    destruct greedy; simpl in *; rewrite Pa.
    + rewrite Hy. eauto.
    + destruct (k (String a (u ++ s)) g); eauto.
Qed.

Lemma run_sound r : forall k s g x,
  run r k s g = Some x ->
  exists s' g', Matches r s g s' g' /\ k s' g' = Some x.
Proof.
  induction r as [p|l|greedy p|r1 IH1 r2 IH2|r IH|n r IH|]; intros k s g x H;
    simpl in H.
  - destruct s as [|a s]; [discriminate|]. destruct (p a) eqn:Pa; [|discriminate].
    exists s, g. split; [constructor|]; assumption.
  - destruct (drop_prefix l s) as [s'|] eqn:E; [|discriminate].
    apply drop_prefix_spec in E as ->. exists s', g. split; [constructor|assumption].
  - apply star_sound in H as (u & s' & -> & Hu & Hk).
    exists s', g. split; [constructor|]; assumption.
  - apply IH1 in H as (s1 & g1 & M1 & H). apply IH2 in H as (s2 & g2 & M2 & H).
    exists s2, g2. split; [econstructor; eassumption|assumption].
  - destruct (run r k s g) eqn:E.
    + injection H as ->. apply IH in E as (s' & g' & M & Hk).
      exists s', g'. split; [constructor|]; assumption.
    + exists s, g. split; [constructor|]; assumption.
  - apply IH in H as (s' & g' & M & Hk).
    eexists s', _. split; [constructor; eassumption|assumption].
  - destruct s as [|a [|b s]].
    + exists "", g. split; [constructor|assumption].
    + destruct (Ascii.eqb_spec a newline) as [->|]; [|discriminate].
      exists (String newline ""), g. split; [constructor|assumption].
    + discriminate.
Qed.

Lemma run_complete r s g s' g' :
  Matches r s g s' g' ->
  forall k x, k s' g' = Some x -> exists y, run r k s g = Some y.
Proof.
  induction 1 as [p a s g Pa|l s g|greedy p u s g Hu|r1 r2 s g s1 g1 s2 g2 _ IH1 _ IH2
                  |r s g s' g' _ IH|r s g|n r s g s' g' _ IH|g|g];
    intros k x Hk; simpl.
  - rewrite Pa. eauto.
  - assert (E : drop_prefix l (l ++ s) = Some s) by (apply drop_prefix_spec; reflexivity).
    rewrite E. eauto.
  - eapply star_complete; eassumption.
  - destruct (IH2 _ _ Hk) as [y Hy]. exact (IH1 _ _ Hy).
  - destruct (IH _ _ Hk) as [y Hy]. rewrite Hy. eauto.
  - destruct (run r k s g); eauto.
  - exact (IH (fun s1 g1 => k s1 (set_group n _ g1)) x Hk).
  - eauto.
  - eauto.
Qed.

End MatcherFacts.

Lemma rmatch_sound (r : re) (s : string) (g : groups) :
  rmatch r s = Some g -> exists s', Matches r s no_groups s' g.
Proof.
  intros H. apply run_sound in H as (s' & g' & M & E).
  injection E as ->. eauto.
Qed.

Lemma rmatch_complete (r : re) (s s' : string) (g' : groups) :
  Matches r s no_groups s' g' -> exists g, rmatch r s = Some g.
Proof.
  intros M. eapply run_complete; [eassumption|reflexivity].
Qed.

(** ** Splitting and slicing *)

Lemma split_not_nil (sep : ascii) (s : string) : split sep s <> [].
Proof.
  induction s as [|a s IH]; simpl; [discriminate|].
  destruct (Ascii.eqb a sep); [discriminate|].
  destruct (split sep s); discriminate.
Qed.

Lemma split1_contains (sep : ascii) (s : string) :
  contains sep s = true ->
  split1 sep s = [text_before sep s; text_after sep s].
Proof.
  unfold contains. induction s as [|a s IH]; simpl; [discriminate|].
  rewrite (Ascii.eqb_sym sep a). destruct (Ascii.eqb a sep); simpl; [reflexivity|].
  intros H. rewrite (IH H). reflexivity.
Qed.

Lemma slice_to_index (c : ascii) (s : string) :
  slice_to (index c s) s = text_before c s.
Proof.
  induction s as [|a s IH]; simpl; [reflexivity|].
  destruct (Ascii.eqb a c); simpl; congruence.
Qed.

(** The slice between the first '[' and the first ']' of an entry is
    empty when that ']' comes first, and the bracket body otherwise. *)
Lemma slice_brackets (s : string) :
  slice (index "[" s + 1) (index "]" s) s = items_text s.
Proof.
  unfold items_text, closes_early, DepSpec.bracket_body, slice, contains.
  induction s as [|a s IH]; [reflexivity|].
  cbn [index text_before text_after].
  destruct (Ascii.eqb_spec a "[") as [->|N2].
  - simpl. rewrite Nat.sub_0_r. apply slice_to_index.
  - cbn [existsb_str]. rewrite (Ascii.eqb_sym "]" a).
    destruct (Ascii.eqb_spec a "]") as [->|N1]; [reflexivity|exact IH].
Qed.

Lemma strip_at_startswith (s : string) :
  (if startswith s "@" then slice_from 1 s else s) = DepSpec.strip_at s.
Proof.
  destruct s as [|a s]; simpl; [reflexivity|].
  destruct (Ascii.eqb a "@"); reflexivity.
Qed.

(** ** The dependency line *)

(** What one entry adds to the list under construction. *)
Lemma parse_dep_spec (acc : list BlueprintReference) (entry : string) :
  parse_dep acc entry =
  acc ++ (if DepSpec.qualifying (strip entry)
          then [reference_of (strip entry)] else []).
Proof.
  unfold parse_dep, DepSpec.qualifying, reference_of, DepSpec.has_brackets.
  destruct (is_empty (strip entry)); cbn [negb andb];
    [symmetry; apply app_nil_r|].
  destruct (startswith (strip entry) "." || startswith (strip entry) "@");
    [|symmetry; apply app_nil_r].
  rewrite slice_to_index, slice_brackets, !strip_at_startswith.
  destruct (contains "[" (strip entry) && contains "]" (strip entry)); reflexivity.
Qed.

Lemma fold_parse_dep (entries : list string) (acc : list BlueprintReference) :
  fold_left parse_dep entries acc =
  acc ++ map reference_of (filter DepSpec.qualifying (map strip entries)).
Proof.
  revert acc. induction entries as [|e entries IH]; intros acc; simpl.
  - symmetry; apply app_nil_r.
  - rewrite IH, parse_dep_spec.
    destruct (DepSpec.qualifying (strip e)); simpl.
    + rewrite <- app_assoc. reflexivity.
    + rewrite app_nil_r. reflexivity.
Qed.

Lemma text_before_no_sep (c : ascii) (s : string) :
  contains c (text_before c s) = false.
Proof.
  unfold contains. induction s as [|a s IH]; simpl; [reflexivity|].
  destruct (Ascii.eqb_spec a c) as [->|N]; simpl; [reflexivity|].
  rewrite IH, orb_false_r. apply Ascii.eqb_neq. congruence.
Qed.

(** An entry that does not close early has the reference the
    specification describes. *)
Lemma reference_of_spec (entry : string) :
  closes_early entry = false ->
  reference_of entry = DepSpec.dependency_of entry.
Proof.
  intros H. unfold reference_of, DepSpec.dependency_of, items_text.
  rewrite H. reflexivity.
Qed.

(** C5 (amended).  For every deps-line text, [_parse_blueprint_refs]
    splits the text on ';' and trims each entry; empty entries and entries
    not starting with '.' or '@' give nothing; an entry containing both
    '[' and ']' gives the trimmed text before the first '[' with a leading
    '@' stripped (a leading '.' kept) as module path, and as items the
    bracket body (the text after the first '[' up to the ']' that closes
    it) split on ',' with each item trimmed, unless the first ']' of the
    entry stands before its first '[': the items are then the single empty
    text, whatever stands in the brackets; any other entry, among them one
    with '[' but no ']', gives the whole entry with only a leading '@'
    stripped as module path and no items.  On a text none of whose entries
    has a ']' before its first '[' the result is the one the specification
    describes. *)
Theorem parse_blueprint_refs_refines :
  (forall deps_str : string,
      _parse_blueprint_refs deps_str = references_of_line deps_str)
  /\ (forall deps_str : string,
         well_bracketed deps_str = true -> dependency_claim deps_str)
  /\ (forall entry : string,
         DepSpec.has_brackets entry = true -> closes_early entry = true ->
         reference_of entry
         = mkBlueprintReference
             (DepSpec.strip_at (strip (text_before "[" entry))) [""])
  /\ _parse_blueprint_refs ".models[User, Post]; requests"
     = [mkBlueprintReference ".models" ["User"; "Post"]]
  /\ _parse_blueprint_refs "@pkg.mod[ A ,B]; ;.c[; os"
     = [mkBlueprintReference "pkg.mod" ["A"; "B"];
        mkBlueprintReference ".c[" []].
Proof.
  assert (R : forall deps_str,
             _parse_blueprint_refs deps_str = references_of_line deps_str).
  { intros deps_str. unfold _parse_blueprint_refs, references_of_line.
    apply fold_parse_dep. }
  split; [exact R|]. split; [|split; [|split; reflexivity]].
  - intros deps_str W. unfold dependency_claim. rewrite R.
    unfold references_of_line, DepSpec.dependency_line.
    apply map_ext_in. intros e He. apply reference_of_spec.
    apply filter_In in He as [He _]. apply in_map_iff in He as (e0 & <- & He).
    unfold well_bracketed in W. rewrite forallb_forall in W.
    apply W in He. apply negb_true_iff in He. exact He.
  - intros entry B C. unfold reference_of, items_text. rewrite B, C.
    reflexivity.
Qed.

Lemma parse_blueprint_refs_refines_witness :
  dependency_claim "@pkg.mod[ A ,B]; ;.c[; os; .d[x]]"
  /\ reference_of ".m]x[y, z]" = mkBlueprintReference ".m]x" [""]
  /\ _parse_blueprint_refs ".m]x[y, z]" = [mkBlueprintReference ".m]x" [""]].
Proof.
  split; [|split].
  - exact (proj1 (proj2 parse_blueprint_refs_refines)
                 "@pkg.mod[ A ,B]; ;.c[; os; .d[x]]" eq_refl).
  - exact (proj1 (proj2 (proj2 parse_blueprint_refs_refines))
                 ".m]x[y, z]" eq_refl eq_refl).
  - reflexivity.
Defined.

(** The claim as the specification states it fails on an entry whose
    first ']' stands before its first '[': the text in the brackets is
    dropped and the single empty item recorded. *)
Lemma dependency_claim_counterexample : ~ dependency_claim ".m]x[y, z]".
Proof.
  unfold dependency_claim. intros H. vm_compute in H. discriminate.
Qed.

(** C10.  An entry that qualifies and contains both '[' and ']' never has
    an empty items list (the entry '.m[]' has the single item ''), so the
    empty items list comes only from entries without both brackets. *)
Theorem bracket_items_never_empty :
  (forall (acc : list BlueprintReference) (entry : string),
      DepSpec.qualifying (strip entry) = true ->
      DepSpec.has_brackets (strip entry) = true ->
      exists package items,
        parse_dep acc entry = acc ++ [mkBlueprintReference package items]
        /\ items <> [])
  /\ _parse_blueprint_refs ".m[]" = [mkBlueprintReference ".m" [""]]
  /\ (forall (acc : list BlueprintReference) (entry : string)
             (r : BlueprintReference),
         parse_dep acc entry = acc ++ [r] -> items r = [] ->
         DepSpec.has_brackets (strip entry) = false).
Proof.
  split; [|split].
  - intros acc entry Q B. rewrite parse_dep_spec, Q.
    unfold reference_of. rewrite B.
    do 2 eexists. split; [reflexivity|].
    destruct (split "," (items_text (strip entry))) eqn:E.
    + exfalso. exact (split_not_nil _ _ E).
    + discriminate.
  - reflexivity.
  - intros acc entry r H I. rewrite parse_dep_spec in H.
    apply app_inv_head in H.
    destruct (DepSpec.qualifying (strip entry)); [|discriminate].
    injection H as <-. unfold reference_of in I.
    destruct (DepSpec.has_brackets (strip entry)); [|reflexivity].
    simpl in I.
    destruct (split "," (items_text (strip entry))) eqn:E.
    + exfalso. exact (split_not_nil _ _ E).
    + discriminate.
Qed.

Lemma bracket_items_never_empty_witness :
  exists package items,
    parse_dep [] ".pkg[A, B]" = [] ++ [mkBlueprintReference package items]
    /\ items <> [].
Proof.
  exact (proj1 bracket_items_never_empty [] ".pkg[A, B]" eq_refl eq_refl).
Defined.

(** ** The header *)

Lemma parse_step_header (lines : list string) (i : nat) (bp bp' : Blueprint)
      (next : nat) :
  parse_step lines i bp = Ok (bp', next) ->
  module_name bp' = module_name bp /\ description bp' = description bp.
Proof.
  unfold parse_step. intros H.
  repeat case_if_in H; try (injection H as <- _; auto).
  destruct (_parse_component lines i) as [[c|]| |]; cbn [bind] in H;
    try discriminate; injection H as <- _; auto.
Qed.

Lemma parse_loop_header (fuel : nat) : forall (lines : list string) (i : nat)
                                              (bp d : Blueprint),
  parse_loop fuel lines i bp = Ok d ->
  module_name d = module_name bp /\ description d = description bp.
Proof.
  induction fuel as [|fuel IH]; intros lines i bp d H; cbn [parse_loop] in H.
  - destruct (i <? List.length lines); [discriminate|]. injection H as <-. auto.
  - destruct (i <? List.length lines); [|injection H as <-; auto].
    destruct (parse_step lines i bp) as [[bp' next]| |] eqn:S; cbn [bind] in H;
      try discriminate.
    apply IH in H as [H1 H2]. apply parse_step_header in S as [S1 S2].
    cbn [fst] in *. split; congruence.
Qed.

(** The loop raises nothing but [IndexError]. *)
Lemma parse_loop_raises (fuel : nat) : forall (lines : list string) (i : nat)
                                              (bp : Blueprint) (e : exn),
  parse_loop fuel lines i bp = Raise e -> e = IndexError.
Proof.
  induction fuel as [|fuel IH]; intros lines i bp e H; cbn [parse_loop] in H.
  - destruct (i <? List.length lines); discriminate.
  - destruct (i <? List.length lines); [|discriminate].
    destruct (parse_step_result lines i bp) as [E|[st E]]; rewrite E in H;
      cbn [bind] in H.
    + congruence.
    + eapply IH; eassumption.
Qed.

Lemma lines_of_not_nil (content : string) : lines_of content <> [].
Proof. apply split_not_nil. Qed.

Lemma parse_content_unfold (content : string) :
  parse_content content =
  if startswith (line_at (lines_of content) 0) "#" then
    parse_loop (List.length (lines_of content)) (lines_of content) 2
      (mkBlueprint (strip (strip_chars "#" (line_at (lines_of content) 0)))
                   (if 1 <? List.length (lines_of content)
                    then strip (line_at (lines_of content) 1) else "")
                   [] [] [] content None)
  else Raise missing_header.
Proof.
  unfold parse_content.
  destruct (lines_of content) eqn:E; [exfalso; exact (lines_of_not_nil _ E)|].
  cbn [is_empty_list orb].
  destruct (startswith (line_at (s :: l) 0) "#"); reflexivity.
Qed.

Lemma parse_content_header (content : string) (d : Blueprint) :
  parse_content content = Ok d ->
  module_name d = strip (strip_chars "#" (line_at (lines_of content) 0))
  /\ description d =
     if 1 <? List.length (lines_of content)
     then strip (line_at (lines_of content) 1) else "".
Proof.
  rewrite parse_content_unfold.
  destruct (startswith (line_at (lines_of content) 0) "#"); [|discriminate].
  intros E. apply parse_loop_header in E. exact E.
Qed.

(** C2 (amended).  [parse_content] fails with the structural error exactly
    when the first line of the text, once the text as a whole is stripped
    of surrounding whitespace, does not start with '#'; then no Document
    is returned.  When that line starts with '#' the structural error is
    not raised, and a returned Document has the line with the marker and
    the surrounding whitespace stripped as module name and the trimmed
    second line, if there is one, as description. *)
Theorem header_requirement (content : string) :
  (parse_content content = Raise missing_header <->
   startswith (line_at (lines_of content) 0) "#" = false)
  /\ (startswith (line_at (lines_of content) 0) "#" = false ->
      forall d, parse_content content <> Ok d)
  /\ (startswith (line_at (lines_of content) 0) "#" = true ->
      forall msg, parse_content content <> Raise (ValueError msg))
  /\ (forall d, parse_content content = Ok d ->
      module_name d = strip (strip_chars "#" (line_at (lines_of content) 0))
      /\ description d =
         if 1 <? List.length (lines_of content)
         then strip (line_at (lines_of content) 1) else "").
Proof.
  rewrite parse_content_unfold.
  destruct (startswith (line_at (lines_of content) 0) "#") eqn:H.
  - split; [|split; [|split]].
    + split; [|discriminate]. intros E. apply parse_loop_raises in E. discriminate.
    + discriminate.
    + intros _ msg E. apply parse_loop_raises in E. discriminate.
    + intros d E. apply parse_loop_header in E. exact E.
  - split; [|split; [|split]].
    + split; reflexivity.
    + intros _ d. discriminate.
    + discriminate.
    + intros d. discriminate.
Qed.

Lemma header_requirement_witness :
  parse_content "" = Raise missing_header
  /\ (forall d, parse_content (unlines ["#mod"; "desc"]) = Ok d ->
      module_name d = "mod" /\ description d = "desc").
Proof.
  split.
  - apply (proj1 (header_requirement "")). reflexivity.
  - intros d H.
    exact (proj2 (proj2 (proj2 (header_requirement (unlines ["#mod"; "desc"])))) d H).
Defined.

(** C2 as stated fails: the text " #m" has a first line that does not
    start with '#', and is parsed without error. *)
Lemma header_claim_counterexample : ~ header_claim " #m".
Proof.
  unfold header_claim. intros [_ H].
  assert (E : parse_content " #m" = Raise missing_header) by (apply H; reflexivity).
  vm_compute in E. discriminate.
Qed.

(** ** The module name *)

Lemma lstrip_with_empty (p : ascii -> bool) (s : string) :
  lstrip_with p s = "" <-> forall_str p s = true.
Proof.
  induction s as [|a s IH]; simpl; [tauto|].
  destruct (p a); simpl; [exact IH|]. split; discriminate.
Qed.

Lemma rstrip_with_empty (p : ascii -> bool) (s : string) :
  rstrip_with p s = "" <-> forall_str p s = true.
Proof.
  induction s as [|a s IH]; simpl; [tauto|].
  destruct (rstrip_with p s) eqn:E.
  - destruct (p a); simpl; [|split; discriminate].
    split; intros _; [apply IH|]; reflexivity.
  - split; [discriminate|]. intros H. apply andb_true_iff in H as [_ H].
    apply IH in H. discriminate.
Qed.

Lemma forall_str_lstrip (p : ascii -> bool) (s : string) :
  forall_str p (lstrip_with p s) = forall_str p s.
Proof.
  induction s as [|a s IH]; simpl; [reflexivity|].
  destruct (p a) eqn:E; simpl; [exact IH|]. rewrite E. reflexivity.
Qed.

Lemma strip_empty_iff (s : string) :
  strip s = "" <-> forall_str isspace s = true.
Proof.
  unfold strip. rewrite rstrip_with_empty, forall_str_lstrip. tauto.
Qed.

Lemma existsb_negb_forall (p : ascii -> bool) (s : string) :
  existsb_str (fun a => negb (p a)) s = negb (forall_str p s).
Proof.
  induction s as [|a s IH]; simpl; [reflexivity|].
  rewrite IH. destruct (p a); reflexivity.
Qed.

(** C4 (amended).  The module name of a returned Document is the first
    line with the '#' characters at its ends and then the surrounding
    whitespace stripped; it is non-empty exactly when something other
    than whitespace is left of the first line once those '#' are
    removed. *)
Theorem module_name_nonempty_iff (content : string) (d : Blueprint) :
  parse_content content = Ok d ->
  module_name d = strip (strip_chars "#" (line_at (lines_of content) 0))
  /\ (module_name d <> "" <->
      existsb_str (fun a => negb (isspace a))
                  (strip_chars "#" (line_at (lines_of content) 0)) = true).
Proof.
  intros H. apply parse_content_header in H as [H _]. split; [exact H|].
  rewrite H, existsb_negb_forall, negb_true_iff, <- not_true_iff_false.
  rewrite strip_empty_iff. tauto.
Qed.

Lemma module_name_nonempty_iff_witness :
  exists d, parse_content "#m" = Ok d /\ module_name d <> "".
Proof.
  eexists. split; [reflexivity|].
  apply (proj2 (module_name_nonempty_iff "#m" eq_refl)). reflexivity.
Defined.

(** C4 as stated fails: the text "#" is parsed into a Document with an
    empty module name. *)
Lemma module_name_empty_counterexample :
  ~ (forall d, parse_content "#" = Ok d -> module_name d <> "").
Proof.
  intros H. exact (H _ eq_refl eq_refl).
Qed.

(** ** The dependency directive in the driver *)

Lemma startswith_cons (s : string) (a : ascii) (p : string) :
  startswith s (String a p) = true ->
  exists t, s = String a t /\ startswith t p = true.
Proof.
  destruct s as [|b t]; simpl; [discriminate|].
  destruct (Ascii.eqb_spec b a) as [->|]; [|discriminate]. eauto.
Qed.

Lemma startswith_nonempty (s : string) (a : ascii) (p : string) :
  startswith s (String a p) = true -> is_empty s = false.
Proof. intros H. apply startswith_cons in H as (t & -> & _). reflexivity. Qed.

Lemma startswith_other (s : string) (a b : ascii) (p q : string) :
  startswith s (String a p) = true -> Ascii.eqb a b = false ->
  startswith s (String b q) = false.
Proof.
  intros H N. apply startswith_cons in H as (t & -> & _).
  cbn [startswith]. rewrite N. reflexivity.
Qed.

Lemma refs_after_cons (l : string) (rest : list string)
      (r : list BlueprintReference) :
  refs_after (l :: rest) r =
  refs_after rest (if is_deps_line l then refs_of_line l else r).
Proof. reflexivity. Qed.

(** The span resolver stops in front of a [deps:] line: the lines it
    passes over declare no dependency. *)
Lemma find_end_passes_no_deps (rest : list string) :
  forall (j : nat) (r : list BlueprintReference), 1 <= j ->
  match find_end_from rest j with
  | Some e => refs_after rest r = refs_after (skipn (e + 1 - j) rest) r
  | None => refs_after rest r = r
  end.
Proof.
  induction rest as [|l rest IH]; intros j r Hj; cbn [find_end_from].
  - reflexivity.
  - assert (Z : j - 1 + 1 - j = 0) by lia.
    destruct (is_deps_line l) eqn:D.
    + unfold is_deps_line in D.
      rewrite (@startswith_nonempty _ _ _ D).
      unfold triple_quote. rewrite (@startswith_other _ _ dquote _ _ D eq_refl).
      rewrite D. cbn [orb]. rewrite Z. reflexivity.
    + assert (C : refs_after (l :: rest) r = refs_after rest r)
        by (rewrite refs_after_cons, D; reflexivity).
      repeat case_if; rewrite ?Z; try reflexivity; rewrite C;
        (specialize (IH (S j) r ltac:(lia));
         destruct (find_end_from rest (S j)) as [e|] eqn:F; [|exact IH];
         apply find_end_from_lower_bound in F;
         replace (e + 1 - j) with (S (e + 1 - S j)) by lia; exact IH).
Qed.

Lemma skipn_line_at (lines : list string) (i : nat) :
  i < List.length lines ->
  skipn i lines = line_at lines i :: skipn (i + 1) lines.
Proof.
  revert i. induction lines as [|l lines IH]; intros i H; simpl in H; [lia|].
  destruct i as [|i]; [reflexivity|].
  simpl. apply IH. lia.
Qed.

Lemma parse_step_refs (lines : list string) (i : nat) (bp bp' : Blueprint)
      (next : nat) :
  i < List.length lines ->
  parse_step lines i bp = Ok (bp', next) ->
  refs_after (skipn i lines) (blueprint_refs bp)
  = refs_after (skipn next lines) (blueprint_refs bp').
Proof.
  intros Hi H. rewrite (skipn_line_at lines Hi), refs_after_cons.
  unfold parse_step in H. unfold is_deps_line, refs_of_line.
  destruct (startswith (strip (line_at lines i)) "deps:").
  { injection H as <- <-. reflexivity. }
  assert (J : forall c,
             refs_after (skipn (i + 1) lines) (blueprint_refs bp)
             = refs_after (skipn (_find_component_end lines i + 1) lines)
                          (blueprint_refs (add_component bp c))).
  { intros c. cbn [add_component blueprint_refs].
    pose proof (find_end_passes_no_deps (skipn (i + 1) lines)
                  (j := i + 1) (blueprint_refs bp) ltac:(lia)) as P.
    unfold _find_component_end.
    destruct (find_end_from (skipn (i + 1) lines) (i + 1)) as [e|] eqn:F.
    - apply find_end_from_lower_bound in F. rewrite P, skipn_skipn.
      f_equal. f_equal. lia.
    - rewrite P. replace (List.length lines - 1 + 1) with (List.length lines) by lia.
      rewrite skipn_all. reflexivity. }
  repeat case_if_in H; try (injection H as <- <-; reflexivity).
  destruct (_parse_component lines i) as [[c|]| |]; cbn [bind] in H;
    try discriminate; injection H as <- <-; [apply J|reflexivity].
Qed.

Lemma parse_loop_refs (fuel : nat) : forall (lines : list string) (i : nat)
                                            (bp d : Blueprint),
  parse_loop fuel lines i bp = Ok d ->
  blueprint_refs d = refs_after (skipn i lines) (blueprint_refs bp).
Proof.
  induction fuel as [|fuel IH]; intros lines i bp d H; cbn [parse_loop] in H.
  - destruct (i <? List.length lines) eqn:E; [discriminate|]. injection H as <-.
    apply Nat.ltb_ge in E. rewrite skipn_all2 by assumption. reflexivity.
  - destruct (i <? List.length lines) eqn:E.
    + apply Nat.ltb_lt in E.
      destruct (parse_step lines i bp) as [[bp' next]| |] eqn:S; cbn [bind] in H;
        try discriminate.
      apply IH in H. rewrite H. symmetry. apply parse_step_refs; assumption.
    + injection H as <-. apply Nat.ltb_ge in E.
      rewrite skipn_all2 by assumption. reflexivity.
Qed.

Lemma refs_after_last (rest : list string) : forall r0,
  refs_after rest r0 =
  match rev (filter is_deps_line rest) with
  | l :: _ => refs_of_line l
  | [] => r0
  end.
Proof.
  induction rest as [|l rest IH]; intros r0; [reflexivity|].
  rewrite refs_after_cons, IH. cbn [filter].
  destruct (is_deps_line l); [|reflexivity].
  cbn [rev]. destruct (rev (filter is_deps_line rest)); reflexivity.
Qed.

(** C3 (amended).  The dependency sequence of a returned Document is the
    sequence of references of the last [deps:] line, in declaration order:
    each [deps:] line replaces the references of the earlier ones (and the
    sequence is empty when there is no such line). *)
Theorem deps_last_line_wins (content : string) (d : Blueprint) :
  parse_content content = Ok d ->
  blueprint_refs d = last_declared_refs (lines_of content).
Proof.
  rewrite parse_content_unfold.
  destruct (startswith (line_at (lines_of content) 0) "#"); [|discriminate].
  intros H. apply parse_loop_refs in H. rewrite H.
  cbn [blueprint_refs]. apply refs_after_last.
Qed.

Lemma deps_last_line_wins_witness :
  exists d, parse_content (unlines ["#m"; "d"; "deps: .a"; "deps: .b[x, y]"]) = Ok d
            /\ blueprint_refs d = [mkBlueprintReference ".b" ["x"; "y"]].
Proof.
  eexists. split; [reflexivity|].
  exact (deps_last_line_wins
           (unlines ["#m"; "d"; "deps: .a"; "deps: .b[x, y]"]) eq_refl).
Defined.

(** C3 as stated fails: of two [deps:] lines only the references of the
    second are in the Document. *)
Lemma deps_accumulate_counterexample :
  ~ (forall d,
        parse_content (unlines ["#m"; "d"; "deps: .a"; "deps: .b"]) = Ok d ->
        blueprint_refs d
        = all_declared_refs (lines_of (unlines ["#m"; "d"; "deps: .a"; "deps: .b"]))).
Proof.
  intros H. specialize (H _ eq_refl). vm_compute in H. discriminate.
Qed.

(** ** The assignment form *)

Lemma rule_assignment_unfold (line : string) :
  contains "=" line = true -> startswith line "-" = false ->
  contains ":" (strip (text_before "=" line)) = false ->
  rule_assignment line =
  (c0 <- first_char (strip (text_before "=" line)) ;;
   if (isupper_char c0
       && existsb_str islower_char (strip (text_before "=" line)))
      || contains_sub "type" (lower (strip (text_before "=" line)))
   then Ok (Some (mkComponent type_alias (strip (text_before "=" line))
                              None [] []
                              (Some (strip (text_after "=" line))) None))
   else if isupper (strip (text_before "=" line))
           && contains "_" (strip (text_before "=" line))
   then Ok (Some (mkComponent type_constant
                              (strip (text_before "=" line)) None []
                              [("type", "auto")]
                              (Some (strip (text_after "=" line))) None))
   else Ok None).
Proof.
  intros H1 H2 H3. unfold rule_assignment.
  rewrite H1, H2, (split1_contains _ _ H1), H3. reflexivity.
Qed.

(** The assignment form on a line whose name (the trimmed text before the
    first '=') is not empty: a type alias when the name starts with an
    upper-case character and has a lower-case one, or contains "type" in
    any case; else a constant of type "auto" when the name is upper-case
    and contains '_'; else nothing, and the later rules decide. *)
Lemma rule_assignment_named (lines : list string) (i : nat) (a : ascii)
      (t : string) :
  let line := strip (line_at lines i) in
  let name := strip (text_before "=" line) in
  let value := strip (text_after "=" line) in
  contains "=" line = true -> startswith line "-" = false ->
  contains ":" name = false -> name = String a t ->
  _parse_component lines i =
  if (isupper_char a && existsb_str islower_char name)
     || contains_sub "type" (lower name)
  then Ok (Some (mkComponent type_alias name None [] [] (Some value) None))
  else if isupper name && contains "_" name
  then Ok (Some (mkComponent type_constant name None [] [("type", "auto")]
                             (Some value) None))
  else Ok (later_rules lines i line).
Proof.
  intros line name value H1 H2 H3 H4. unfold _parse_component.
  fold line. rewrite (rule_assignment_unfold _ H1 H2 H3). fold name value.
  rewrite H4. cbn [first_char bind]. rewrite <- H4.
  repeat case_if; reflexivity.
Qed.

Lemma rule_assignment_named_witness :
  _parse_component ["UserId = str"] 0
  = Ok (Some (mkComponent type_alias "UserId" None [] [] (Some "str") None))
  /\ _parse_component ["ALL_CAPS = 5"] 0
     = Ok (Some (mkComponent type_constant "ALL_CAPS" None []
                             [("type", "auto")] (Some "5") None)).
Proof.
  split.
  - exact (@rule_assignment_named ["UserId = str"] 0 "U" "serId"
             eq_refl eq_refl eq_refl eq_refl).
  - exact (@rule_assignment_named ["ALL_CAPS = 5"] 0 "A" "LL_CAPS"
             eq_refl eq_refl eq_refl eq_refl).
Defined.

(** The classifier raises exactly on a line of the assignment form whose
    name is empty. *)
Lemma parse_component_raises_iff (lines : list string) (i : nat) (e : exn) :
  _parse_component lines i = Raise e <->
  e = IndexError
  /\ contains "=" (strip (line_at lines i)) = true
  /\ startswith (strip (line_at lines i)) "-" = false
  /\ strip (text_before "=" (strip (line_at lines i))) = "".
Proof.
  unfold _parse_component, rule_assignment.
  set (line := strip (line_at lines i)).
  destruct (contains "=" line) eqn:H1; cbn [andb bind].
  2:{ split; [discriminate|]. intros (_ & H & _). discriminate. }
  destruct (startswith line "-") eqn:H2; cbn [negb bind].
  { split; [discriminate|]. intros (_ & _ & H & _). discriminate. }
  rewrite (split1_contains _ _ H1).
  destruct (strip (text_before "=" line)) as [|a t] eqn:N.
  - cbn. split; [intros [= <-]; auto|]. intros (-> & _). reflexivity.
  - set (name := String a t).
    destruct (contains ":" name); cbn [negb first_char bind name].
    + split; [discriminate|]. intros (_ & _ & _ & H). discriminate.
    + repeat case_if; cbn [bind]; (split; [discriminate|]);
        intros (_ & _ & _ & H); discriminate.
Qed.

Lemma parse_component_ok (lines : list string) (i : nat) :
  empty_name_line (line_at lines i) = false ->
  exists r, _parse_component lines i = Ok r.
Proof.
  intros H. destruct (parse_component_result lines i) as [E|E]; [|exact E].
  apply parse_component_raises_iff in E as (_ & E1 & E2 & E3).
  unfold empty_name_line in H. rewrite E1, E2, E3 in H. discriminate.
Qed.

Lemma parse_step_ok (lines : list string) (i : nat) (bp : Blueprint) :
  empty_name_line (line_at lines i) = false ->
  exists st, parse_step lines i bp = Ok st.
Proof.
  intros H. unfold parse_step. repeat case_if; eauto.
  destruct (parse_component_ok lines i H) as [[c|] ->]; cbn [bind]; eauto.
Qed.

Lemma parse_loop_ok (fuel : nat) :
  forall (lines : list string) (i : nat) (bp : Blueprint),
  (forall j, i <= j -> j < List.length lines ->
             empty_name_line (line_at lines j) = false) ->
  List.length lines - i <= fuel ->
  exists d, parse_loop fuel lines i bp = Ok d.
Proof.
  induction fuel as [|fuel IH]; intros lines i bp H F; cbn [parse_loop].
  - destruct (i <? List.length lines) eqn:E; [|eauto].
    apply Nat.ltb_lt in E. lia.
  - destruct (i <? List.length lines) eqn:E; [|eauto].
    apply Nat.ltb_lt in E.
    destruct (parse_step_ok lines i bp (H i (le_n i) E)) as [[bp' next] S].
    rewrite S. cbn [bind fst snd].
    apply parse_step_advances in S; [|exact E].
    apply IH; [|lia]. intros j J1 J2. apply H; [lia|exact J2].
Qed.

(** Apart from the lines with an empty name before '=', a text with a
    header is always parsed into a Document: the lines that fit no shape
    are skipped. *)
Lemma parse_content_succeeds (content : string) :
  startswith (line_at (lines_of content) 0) "#" = true ->
  (forall j, 2 <= j -> j < List.length (lines_of content) ->
             empty_name_line (line_at (lines_of content) j) = false) ->
  exists d, parse_content content = Ok d.
Proof.
  intros H L. rewrite parse_content_unfold, H.
  apply parse_loop_ok; [exact L|lia].
Qed.

Lemma lstrip_first (p : ascii -> bool) (s : string) (a : ascii) (t : string) :
  lstrip_with p s = String a t -> p a = false.
Proof.
  induction s as [|b s IH]; cbn [lstrip_with]; [discriminate|].
  destruct (p b) eqn:E; [exact IH|]. intros [= <- _]. exact E.
Qed.

Lemma rstrip_first (p : ascii -> bool) (s : string) (a : ascii) (t : string) :
  rstrip_with p s = String a t -> exists t', s = String a t'.
Proof.
  destruct s as [|b s]; cbn [rstrip_with]; [discriminate|].
  destruct (rstrip_with p s); [destruct (p b); [discriminate|]|];
    intros [= <- _]; eauto.
Qed.

(** A trimmed line does not start with whitespace. *)
Lemma strip_first (s : string) (a : ascii) (t : string) :
  strip s = String a t -> isspace a = false.
Proof.
  unfold strip. intros H. apply rstrip_first in H as [t' H].
  exact (lstrip_first _ _ H).
Qed.

(** A line with an empty name before its '=' starts with that '='. *)
Lemma empty_name_line_starts (l : string) :
  empty_name_line l = true ->
  startswith (strip l) "=" = true
  /\ contains "=" (strip l) = true
  /\ startswith (strip l) "-" = false
  /\ strip (text_before "=" (strip l)) = "".
Proof.
  unfold empty_name_line. intros H.
  apply andb_true_iff in H as [H E]. apply andb_true_iff in H as [C D].
  apply negb_true_iff in D.
  destruct (strip (text_before "=" (strip l))) eqn:N; [|discriminate].
  repeat split; try assumption.
  destruct (strip l) as [|a t] eqn:L; [discriminate|].
  apply strip_first in L. apply strip_empty_iff in N.
  cbn [text_before] in N. cbn [startswith].
  destruct (Ascii.eqb a "="); [reflexivity|].
  cbn [forall_str] in N. rewrite L in N. discriminate.
Qed.

Lemma parse_step_raises (lines : list string) (i : nat) (bp : Blueprint) :
  empty_name_line (line_at lines i) = true ->
  parse_step lines i bp = Raise IndexError.
Proof.
  intros H. apply empty_name_line_starts in H as (S & C & D & N).
  unfold parse_step.
  rewrite (@startswith_other _ _ "d" _ "eps:" S eq_refl).
  rewrite (@startswith_other _ _ "n" _ "otes:" S eq_refl).
  rewrite (@startswith_other _ _ "#" _ "" S eq_refl).
  rewrite (@startswith_nonempty _ _ _ S). cbn [negb andb].
  assert (R : _parse_component lines i = Raise IndexError)
    by (apply parse_component_raises_iff; auto).
  rewrite R. reflexivity.
Qed.

Lemma find_end_from_cons (l : string) (rest : list string) (i : nat) :
  find_end_from (l :: rest) i =
  if boundary_line l then Some (i - 1) else find_end_from rest (S i).
Proof.
  cbn [find_end_from]. unfold boundary_line.
  destruct (is_empty (strip l) || startswith (strip l) triple_quote);
    [reflexivity|].
  destruct (startswith (strip l) "deps:" || startswith (strip l) "notes:"
            || startswith (strip l) "#"); [reflexivity|].
  cbn [negb andb orb].
  destruct (negb (is_empty (strip l)) && negb (startswith (strip l) "-")
            && negb (startswith (strip l) "@")
            && looks_like_component (strip l)); reflexivity.
Qed.

Lemma empty_name_line_boundary (l : string) :
  empty_name_line l = true -> boundary_line l = true.
Proof.
  intros H. apply empty_name_line_starts in H as (S & C & D & _).
  unfold boundary_line, looks_like_component, triple_quote.
  rewrite (@startswith_nonempty _ _ _ S).
  rewrite (@startswith_other _ _ dquote _ _ S eq_refl).
  rewrite (@startswith_other _ _ "@" _ "" S eq_refl).
  rewrite C, D. cbn [negb andb orb]. rewrite !orb_true_r. reflexivity.
Qed.

(** The span resolver stops in front of the first boundary line. *)
Lemma find_end_from_before (rest : list string) :
  forall (k m : nat), 1 <= k -> m < List.length rest ->
  boundary_line (nth m rest "") = true ->
  exists e, find_end_from rest k = Some e /\ e < k + m.
Proof.
  induction rest as [|l rest IH]; intros k m Hk Hm B; cbn [List.length] in Hm.
  - lia.
  - rewrite find_end_from_cons. destruct (boundary_line l) eqn:L.
    + exists (k - 1). split; [reflexivity|lia].
    + destruct m as [|m]; [cbn in B; congruence|].
      destruct (IH (S k) m ltac:(lia) ltac:(lia) B) as (e & E & Lt).
      exists e. split; [exact E|lia].
Qed.

Lemma find_component_end_before (lines : list string) (i j : nat) :
  i < j -> j < List.length lines ->
  boundary_line (line_at lines j) = true ->
  _find_component_end lines i < j.
Proof.
  intros Hij Hj B. unfold _find_component_end.
  destruct (@find_end_from_before (skipn (i + 1) lines) (i + 1) (j - (i + 1)))
    as (e & E & Lt).
  - lia.
  - rewrite length_skipn. lia.
  - rewrite nth_skipn. replace (i + 1 + (j - (i + 1))) with j by lia. exact B.
  - rewrite E. lia.
Qed.

Lemma parse_loop_raises_at (fuel : nat) :
  forall (lines : list string) (i j : nat) (bp : Blueprint),
  i <= j -> j < List.length lines ->
  empty_name_line (line_at lines j) = true ->
  List.length lines - i <= fuel ->
  parse_loop fuel lines i bp = Raise IndexError.
Proof.
  induction fuel as [|fuel IH]; intros lines i j bp Hij Hj E F; [lia|].
  cbn [parse_loop].
  assert (Hi : (i <? List.length lines) = true) by (apply Nat.ltb_lt; lia).
  rewrite Hi. apply Nat.ltb_lt in Hi.
  destruct (empty_name_line (line_at lines i)) eqn:Ei.
  { rewrite (@parse_step_raises lines i bp Ei). reflexivity. }
  assert (Hlt : i < j).
  { destruct (Nat.eq_dec i j) as [->|]; [congruence|lia]. }
  destruct (@parse_step_ok lines i bp Ei) as [[bp' next] S].
  rewrite S. cbn [bind fst snd].
  pose proof (@parse_step_advances _ _ _ _ _ Hi S) as Adv.
  apply (IH lines next j bp'); try assumption; [|lia].
  unfold parse_step in S.
  repeat case_if_in S; try (apply ok_pair_inv in S as [_ <-]; lia).
  destruct (_parse_component lines i) as [[c|]| |]; cbn [bind] in S;
    try discriminate; apply ok_pair_inv in S as [_ <-]; [|lia].
  pose proof (@find_component_end_before lines i j Hlt Hj
                (@empty_name_line_boundary _ E)). lia.
Qed.

Lemma bounded_search (f : nat -> bool) (n : nat) :
  (forall j, 2 <= j -> j < n -> f j = false)
  \/ (exists j, 2 <= j /\ j < n /\ f j = true).
Proof.
  induction n as [|n [IH|(j & J1 & J2 & J3)]].
  - left. intros j _ H. lia.
  - destruct (f n) eqn:E.
    + destruct (le_lt_dec 2 n) as [L|L].
      * right. exists n. auto.
      * left. intros j J1 J2. lia.
    + left. intros j J1 J2.
      destruct (Nat.eq_dec j n) as [->|]; [exact E|apply IH; lia].
  - right. exists j. auto.
Qed.

(** C6 fails on the code at the line "= 5": its name is empty, and
    [name[0]] raises [IndexError] where the claim has the rule produce
    nothing and the later rules tried.  The same happens on every line of
    the assignment form whose name is empty. *)
Theorem assignment_empty_name_raises :
  _parse_component ["= 5"] 0 = Raise IndexError
  /\ forall (lines : list string) (i : nat),
       contains "=" (strip (line_at lines i)) = true ->
       startswith (strip (line_at lines i)) "-" = false ->
       strip (text_before "=" (strip (line_at lines i))) = "" ->
       _parse_component lines i = Raise IndexError.
Proof.
  split; [reflexivity|].
  intros lines i C D N. apply parse_component_raises_iff. auto.
Qed.

Lemma assignment_empty_name_raises_witness :
  _parse_component ["ok = 1"; "  =  "] 1 = Raise IndexError.
Proof.
  exact (proj2 assignment_empty_name_raises ["ok = 1"; "  =  "] 1
               eq_refl eq_refl eq_refl).
Defined.

(** C1 fails on the code: the text whose third line is "= 5" starts with
    '#', and parsing it raises [IndexError] instead of skipping the line.
    In general a text with a header is parsed into a Document unless one
    of its lines from index 2 on has an empty name before its '=', and
    then [IndexError] is raised. *)
Theorem unrecognized_line_raises :
  parse_content (unlines ["#m"; "d"; "= 5"]) = Raise IndexError
  /\ forall content : string,
       startswith (line_at (lines_of content) 0) "#" = true ->
       (parse_content content = Raise IndexError <->
        exists j, 2 <= j /\ j < List.length (lines_of content)
                  /\ empty_name_line (line_at (lines_of content) j) = true).
Proof.
  split; [reflexivity|].
  intros content H. split.
  - intros R.
    destruct (bounded_search
                (fun j => empty_name_line (line_at (lines_of content) j))
                (List.length (lines_of content))) as [N|E]; [|exact E].
    destruct (@parse_content_succeeds content H N) as [d D]. congruence.
  - intros (j & J1 & J2 & E). rewrite parse_content_unfold, H.
    apply (@parse_loop_raises_at _ _ 2 j _ J1 J2 E). lia.
Qed.

Lemma unrecognized_line_raises_witness :
  parse_content (unlines ["# m"; "d"; "X = 1"; "some prose"; " = 5"])
  = Raise IndexError.
Proof.
  apply (proj2 unrecognized_line_raises
               (unlines ["# m"; "d"; "X = 1"; "some prose"; " = 5"]) eq_refl).
  exists 4. split; [lia|split; [vm_compute; lia|reflexivity]].
Defined.

(** ** The class form and the member parser *)

Lemma split_comment_hash (line : string) :
  contains "#" line = true ->
  split_comment line = (strip (text_before "#" line),
                        Some (strip (text_after "#" line))).
Proof.
  intros H. unfold split_comment. rewrite H, (split1_contains _ _ H). reflexivity.
Qed.

(** C8.  The lines "Foo(Base):" and "- bar(x: int) -> str  # greeting"
    give one class component named Foo with base class Base and the single
    method bar, with parameter list "x: int", return type "str" and
    comment "greeting".  In general the member parser, on a line with a
    '#', parses the trimmed text before the first '#' as the signature and
    stores the trimmed text after it as the comment. *)
Theorem class_with_method_and_comment :
  _parse_component ["Foo(Base):"; "- bar(x: int) -> str  # greeting"] 0
  = Ok (Some (mkComponent type_class "Foo" (Some "Base")
                [mkMethod "bar" "x: int" (Some "str") (Some "greeting") [] false]
                [] None None))
  /\ (forall d,
        parse_content
          (unlines ["#m"; "d"; "Foo(Base):"; "- bar(x: int) -> str  # greeting"])
        = Ok d ->
        components d
        = [mkComponent type_class "Foo" (Some "Base")
             [mkMethod "bar" "x: int" (Some "str") (Some "greeting") [] false]
             [] None None])
  /\ (forall line, contains "#" line = true ->
        _parse_method line
        = parse_signature (strip (text_before "#" line))
                          (Some (strip (text_after "#" line)))
        /\ forall m, _parse_method line = Some m ->
                     m_comment m = Some (strip (text_after "#" line))).
Proof.
  split; [reflexivity|split].
  - intros d H. vm_compute in H. injection H as <-. reflexivity.
  - intros line H. unfold _parse_method. rewrite (split_comment_hash _ H).
    split; [reflexivity|]. intros m. unfold parse_signature.
    repeat case_if; try discriminate.
    + destruct (split1 ":" (strip (text_before "#" line)))
        as [|p0 [|p1 [|? ?]]]; try discriminate.
      intros [= <-]. reflexivity.
    + destruct (rmatch re_method (strip (text_before "#" line)));
        [|discriminate].
      intros [= <-]. reflexivity.
Qed.

Lemma class_with_method_and_comment_witness :
  _parse_method "bar(x: int) -> str  # greeting"
  = Some (mkMethod "bar" "x: int" (Some "str") (Some "greeting") [] false).
Proof.
  exact (proj1 (proj2 (proj2 class_with_method_and_comment)
                  "bar(x: int) -> str  # greeting" eq_refl)).
Defined.

(** ** The span of a class *)

(** A line the class-member loop takes (starting with '-' or '@', or
    blank) is passed over by the span resolver. *)
Lemma find_end_passes_member (l : string) (rest : list string) (j : nat) :
  startswith (strip l) "-" || startswith (strip l) "@" || is_empty (strip l) = true ->
  find_end_from (l :: rest) j = find_end_from rest (S j).
Proof.
  intros H. cbn [find_end_from].
  destruct (is_empty (strip l)) eqn:E; [reflexivity|].
  rewrite orb_false_r in H. unfold triple_quote.
  destruct (startswith (strip l) "-") eqn:D.
  - rewrite (@startswith_other _ _ dquote _ _ D eq_refl).
    rewrite (@startswith_other _ _ "d" _ "eps:" D eq_refl).
    rewrite (@startswith_other _ _ "n" _ "otes:" D eq_refl).
    rewrite (@startswith_other _ _ "#" _ "" D eq_refl).
    reflexivity.
  - cbn [orb] in H.
    rewrite (@startswith_other _ _ dquote _ _ H eq_refl).
    rewrite (@startswith_other _ _ "d" _ "eps:" H eq_refl).
    rewrite (@startswith_other _ _ "n" _ "otes:" H eq_refl).
    rewrite (@startswith_other _ _ "#" _ "" H eq_refl).
    rewrite H. reflexivity.
Qed.

Lemma class_members_step (l : string) (rest : list string) (j : nat)
      (decorators : list string) (methods : list Method) :
  (startswith (strip l) "-" || startswith (strip l) "@" || is_empty (strip l) = true
   /\ exists decorators' methods',
       snd (class_members (l :: rest) j decorators methods)
       = snd (class_members rest (S j) decorators' methods'))
  \/ (startswith (strip l) "-" || startswith (strip l) "@" || is_empty (strip l) = false
      /\ snd (class_members (l :: rest) j decorators methods) = j).
Proof.
  cbn [class_members].
  destruct (startswith (strip l) "-" || startswith (strip l) "@"
            || is_empty (strip l)); [left|right]; split; try reflexivity.
  destruct (startswith (strip l) "-").
  - destruct (_parse_method (strip (slice_from 1 (strip l)))); eauto.
  - destruct (startswith (strip l) "@"); eauto.
Qed.

Lemma class_members_stop_bound (rest : list string) :
  forall (j : nat) (decorators : list string) (methods : list Method),
  snd (class_members rest j decorators methods) <= j + List.length rest.
Proof.
  induction rest as [|l rest IH]; intros j ds ms.
  - cbn. lia.
  - destruct (class_members_step l rest j ds ms) as [[_ (ds' & ms' & ->)]|[_ ->]].
    + specialize (IH (S j) ds' ms'). cbn [List.length]. lia.
    + lia.
Qed.

Lemma class_members_before_end (rest : list string) :
  forall (j e : nat) (decorators : list string) (methods : list Method),
  find_end_from rest j = Some e ->
  snd (class_members rest j decorators methods) - 1 <= e.
Proof.
  induction rest as [|l rest IH]; intros j e ds ms F.
  - discriminate.
  - destruct (class_members_step l rest j ds ms) as [[M (ds' & ms' & ->)]|[_ ->]].
    + rewrite (find_end_passes_member _ _ _ M) in F. eapply IH; eassumption.
    + apply find_end_from_lower_bound in F. exact F.
Qed.

Lemma class_body_end_le (lines : list string) (i : nat) :
  i < List.length lines ->
  class_body_end lines i <= _find_component_end lines i.
Proof.
  intros Hi. unfold class_body_end, _find_component_end.
  destruct (find_end_from (skipn (i + 1) lines) (i + 1)) as [e|] eqn:F.
  - eapply class_members_before_end; eassumption.
  - pose proof (class_members_stop_bound (skipn (i + 1) lines) (i + 1) [] []) as B.
    rewrite length_skipn in B. lia.
Qed.

Lemma cursor_trace_increasing (fuel : nat) :
  forall (lines : list string) (i : nat) (bp : Blueprint) (j : nat),
  In j (cursor_trace fuel lines i bp) -> i <= j.
Proof.
  induction fuel as [|fuel IH]; intros lines i bp j H; cbn [cursor_trace] in H.
  - destruct (i <? List.length lines); contradiction.
  - destruct (i <? List.length lines) eqn:E; [|contradiction].
    apply Nat.ltb_lt in E. destruct H as [<-|H]; [lia|].
    destruct (parse_step lines i bp) as [[bp' next]| |] eqn:S; try contradiction.
    apply IH in H. apply parse_step_advances in S; [|assumption].
    cbn [snd] in H. lia.
Qed.

Lemma add_component_step (lines : list string) (i : nat) (bp : Blueprint)
      (c : Component) (next : nat) :
  parse_step lines i bp = Ok (add_component bp c, next) ->
  _parse_component lines i = Ok (Some c)
  /\ next = _find_component_end lines i + 1.
Proof.
  assert (N : forall bp', components bp' = components bp ->
                          bp' <> add_component bp c).
  { intros bp' E1 E2. rewrite E2 in E1. cbn in E1.
    apply (f_equal (@List.length _)) in E1. rewrite length_app in E1.
    cbn in E1. lia. }
  unfold parse_step. intros H.
  repeat case_if_in H;
    try (apply ok_pair_inv in H as [H _]; exfalso; refine (N _ _ H); reflexivity).
  destruct (_parse_component lines i) as [[c'|]| |]; cbn [bind] in H;
    try discriminate.
  - apply ok_pair_inv in H as [H <-]. split; [|reflexivity]. do 2 f_equal.
    apply (f_equal components) in H. cbn in H.
    apply app_inv_head in H. congruence.
  - apply ok_pair_inv in H as [H _]. exfalso. refine (N _ _ H). reflexivity.
Qed.

(** C9.  When the driver parses a class component at line [i], the index
    the span resolver returns for [i] is at least the index of the last
    line the class-member loop took as body (lines starting with '-' or
    '@' and blank lines between them); the cursor the driver continues
    with, and every cursor it visits afterwards, is beyond that line, so
    no body line is classified again. *)
Theorem class_body_never_reclassified (lines : list string) (i : nat)
        (bp : Blueprint) (c : Component) (next : nat) :
  i < List.length lines ->
  parse_step lines i bp = Ok (add_component bp c, next) ->
  c_type c = type_class ->
  class_body_end lines i <= _find_component_end lines i
  /\ next = _find_component_end lines i + 1
  /\ forall fuel j,
       In j (cursor_trace fuel lines next (add_component bp c)) ->
       class_body_end lines i < j.
Proof.
  intros Hi S _. apply add_component_step in S as [_ ->].
  pose proof (class_body_end_le lines Hi) as B.
  split; [exact B|split; [reflexivity|]].
  intros fuel j H. apply cursor_trace_increasing in H. lia.
Qed.

Lemma class_body_never_reclassified_witness :
  class_body_end example_class_lines 2 = 6
  /\ class_body_end example_class_lines 2
     <= _find_component_end example_class_lines 2.
Proof.
  split; [reflexivity|].
  refine (proj1 (@class_body_never_reclassified example_class_lines 2
                   example_header _ _ _ _ _)).
  - cbn. lia.
  - reflexivity.
  - reflexivity.
Defined.

(** ** Stripping and searching in concatenations *)

Lemma forall_str_app (p : ascii -> bool) (x y : string) :
  forall_str p (x ++ y) = forall_str p x && forall_str p y.
Proof.
  induction x as [|a x IH]; simpl; [reflexivity|].
  rewrite IH. apply andb_assoc.
Qed.

Lemma contains_app (c : ascii) (x y : string) :
  contains c (x ++ y) = contains c x || contains c y.
Proof.
  unfold contains. induction x as [|a x IH]; simpl; [reflexivity|].
  rewrite IH. apply orb_assoc.
Qed.

Lemma forall_not_contains (p : ascii -> bool) (c : ascii) (w : string) :
  forall_str p w = true -> p c = false -> contains c w = false.
Proof.
  unfold contains. intros H N. induction w as [|a w IH]; simpl in *; [reflexivity|].
  apply andb_true_iff in H as [Pa H]. rewrite (IH H), orb_false_r.
  destruct (Ascii.eqb_spec c a) as [->|]; congruence.
Qed.

Lemma text_before_app (c : ascii) (x y : string) :
  contains c x = false -> text_before c (x ++ String c y) = x.
Proof.
  unfold contains. induction x as [|a x IH]; simpl.
  - rewrite Ascii.eqb_refl. reflexivity.
  - rewrite (Ascii.eqb_sym c a). intros H. apply orb_false_iff in H as [N H].
    rewrite N, (IH H). reflexivity.
Qed.

Lemma text_after_app (c : ascii) (x y : string) :
  contains c x = false -> text_after c (x ++ String c y) = y.
Proof.
  unfold contains. induction x as [|a x IH]; simpl.
  - rewrite Ascii.eqb_refl. reflexivity.
  - rewrite (Ascii.eqb_sym c a). intros H. apply orb_false_iff in H as [N H].
    rewrite N. exact (IH H).
Qed.

Lemma text_before_after (c : ascii) (s : string) :
  contains c s = true ->
  s = (text_before c s ++ String c (text_after c s))%string
  /\ contains c (text_before c s) = false.
Proof.
  unfold contains. induction s as [|a s IH]; simpl; [discriminate|].
  rewrite (Ascii.eqb_sym c a). destruct (Ascii.eqb_spec a c) as [->|N]; simpl.
  - auto.
  - intros H. destruct (IH H) as [E F]. rewrite <- E.
    apply Ascii.eqb_neq in N. rewrite (Ascii.eqb_sym c a), N, F. auto.
Qed.

Lemma contains_lstrip (p : ascii -> bool) (c : ascii) (s : string) :
  p c = false -> contains c (lstrip_with p s) = contains c s.
Proof.
  unfold contains. intros N. induction s as [|a s IH]; simpl; [reflexivity|].
  destruct (p a) eqn:Pa; [|reflexivity].
  rewrite IH. destruct (Ascii.eqb_spec c a) as [->|]; [congruence|reflexivity].
Qed.

Lemma contains_rstrip (p : ascii -> bool) (c : ascii) (s : string) :
  p c = false -> contains c (rstrip_with p s) = contains c s.
Proof.
  unfold contains. intros N. induction s as [|a s IH]; simpl; [reflexivity|].
  destruct (rstrip_with p s) as [|b r]; simpl in *.
  - rewrite <- IH. destruct (p a) eqn:Pa; simpl; [|reflexivity].
    destruct (Ascii.eqb_spec c a) as [->|]; [congruence|reflexivity].
  - rewrite IH. reflexivity.
Qed.

Lemma contains_strip (c : ascii) (s : string) :
  isspace c = false -> contains c (strip s) = contains c s.
Proof.
  intros N. unfold strip. rewrite contains_rstrip, contains_lstrip; auto.
Qed.

Lemma lstrip_app (p : ascii -> bool) (x w : string) :
  lstrip_with p (x ++ w) =
  if forall_str p x then lstrip_with p w else (lstrip_with p x ++ w)%string.
Proof.
  induction x as [|a x IH]; simpl; [reflexivity|].
  destruct (p a); simpl; [exact IH|reflexivity].
Qed.

Lemma rstrip_app (p : ascii -> bool) (x w : string) :
  forall_str p w = true -> rstrip_with p (x ++ w) = rstrip_with p x.
Proof.
  intros H. induction x as [|a x IH]; simpl.
  - apply rstrip_with_empty. exact H.
  - rewrite IH. reflexivity.
Qed.

Lemma strip_app_space_l (w x : string) :
  forall_str isspace w = true -> strip (w ++ x) = strip x.
Proof.
  intros H. unfold strip. rewrite lstrip_app, H. reflexivity.
Qed.

Lemma strip_app_space_r (x w : string) :
  forall_str isspace w = true -> strip (x ++ w) = strip x.
Proof.
  intros H. unfold strip. rewrite lstrip_app.
  destruct (forall_str isspace x) eqn:X.
  - apply (proj2 (lstrip_with_empty isspace w)) in H. rewrite H.
    apply (proj2 (lstrip_with_empty isspace x)) in X. rewrite X. reflexivity.
  - apply rstrip_app. exact H.
Qed.

(** Two splittings of one text at a character outside a class, after a
    prefix inside the class, are the same splitting. *)
Lemma class_prefix_unique (p : ascii -> bool) (c : ascii) :
  p c = false ->
  forall x y r r' : string,
    forall_str p x = true -> forall_str p y = true ->
    (x ++ String c r)%string = (y ++ String c r')%string -> x = y /\ r = r'.
Proof.
  intros N. induction x as [|a x IH]; intros [|b y] r r' X Y E; simpl in *.
  - injection E as ->. auto.
  - injection E as <- _. rewrite N in Y. discriminate.
  - injection E as -> _. rewrite N in X. discriminate.
  - injection E as -> E. apply andb_true_iff in X as [_ X].
    apply andb_true_iff in Y as [_ Y].
    destruct (IH _ _ _ X Y E) as [-> ->]. auto.
Qed.

(** ** Reading a match back *)

Lemma Matches_Chr_inv p s g s' g' :
  Matches (Chr p) s g s' g' -> exists a, s = String a s' /\ p a = true /\ g' = g.
Proof. inversion 1; subst; eauto. Qed.

Lemma Matches_Lit_inv l s g s' g' :
  Matches (Lit l) s g s' g' -> s = (l ++ s')%string /\ g' = g.
Proof. inversion 1; subst; eauto. Qed.

Lemma Matches_Star_inv greedy p s g s' g' :
  Matches (Star greedy p) s g s' g' ->
  exists u, s = (u ++ s')%string /\ forall_str p u = true /\ g' = g.
Proof. inversion 1; subst; eauto. Qed.

Lemma Matches_Seq_inv r1 r2 s g s' g' :
  Matches (Seq r1 r2) s g s' g' ->
  exists s1 g1, Matches r1 s g s1 g1 /\ Matches r2 s1 g1 s' g'.
Proof. inversion 1; subst; eauto. Qed.

Lemma Matches_Opt_inv r s g s' g' :
  Matches (Opt r) s g s' g' -> Matches r s g s' g' \/ (s' = s /\ g' = g).
Proof. inversion 1; subst; eauto. Qed.

Lemma Matches_Grp_inv n r s g s' g' :
  Matches (Grp n r) s g s' g' ->
  exists g1, Matches r s g s' g1
             /\ g' = set_group n (slice_to (String.length s - String.length s') s) g1.
Proof. inversion 1; subst; eauto. Qed.

Lemma Matches_Eol_inv s g s' g' :
  Matches Eol s g s' g' ->
  s' = s /\ g' = g /\ (s = "" \/ s = String newline "").
Proof. inversion 1; subst; auto. Qed.

Lemma Matches_Plus_inv greedy p s g s' g' :
  Matches (Plus greedy p) s g s' g' ->
  exists a u, s = (String a u ++ s')%string /\ p a = true
              /\ forall_str p u = true /\ g' = g.
Proof.
  intros H. apply Matches_Seq_inv in H as (s1 & g1 & H1 & H2).
  apply Matches_Chr_inv in H1 as (a & -> & Pa & ->).
  apply Matches_Star_inv in H2 as (u & -> & Pu & ->).
  exists a, u. auto.
Qed.

Lemma Matches_Plus_intro greedy p a u s g :
  p a = true -> forall_str p u = true ->
  Matches (Plus greedy p) (String a u ++ s) g s g.
Proof.
  intros Pa Pu. eapply M_Seq; [apply M_Chr; exact Pa|apply M_Star; exact Pu].
Qed.

Lemma Matches_Grp_intro n r c s g g' :
  Matches r (c ++ s) g s g' ->
  Matches (Grp n r) (c ++ s) g s (set_group n c g').
Proof.
  intros H. apply (M_Grp n) in H. rewrite slice_to_append in H. exact H.
Qed.

Lemma Matches_Grp_inv_app n r c s g g' :
  Matches (Grp n r) (c ++ s) g s g' ->
  exists g1, Matches r (c ++ s) g s g1 /\ g' = set_group n c g1.
Proof.
  intros H. apply Matches_Grp_inv in H as (g1 & H & ->).
  rewrite slice_to_append. eauto.
Qed.

(** ** The constant form *)

Lemma not_contains_forall (c : ascii) (s : string) :
  contains c s = false -> forall_str (not_char c) s = true.
Proof.
  unfold contains, not_char. induction s as [|a s IH]; simpl; [reflexivity|].
  intros H. apply orb_false_iff in H as [N H].
  rewrite (Ascii.eqb_sym a c), N, (IH H). reflexivity.
Qed.

Lemma constant_name_class (name : string) :
  is_constant_name name = true -> forall_str const_tail name = true.
Proof.
  destruct name as [|a t]; simpl; [discriminate|].
  intros H. apply andb_true_iff in H as [U T].
  unfold const_tail at 1. rewrite U, T. reflexivity.
Qed.

(** What a match of the constant pattern says about the line. *)
Lemma re_constant_inv (line s' : string) (g : groups) :
  Matches re_constant line no_groups s' g ->
  exists name w1 T1 tail,
    line = (name ++ ":" ++ w1 ++ T1 ++ tail)%string
    /\ is_constant_name name = true
    /\ forall_str space w1 = true
    /\ T1 <> "" /\ forall_str (not_char "=") T1 = true
    /\ g 1 = Some name /\ g 2 = Some T1
    /\ ((g 3 = None /\ (tail = "" \/ tail = nl))
        \/ exists w2 w3 V1 e,
             tail = (w2 ++ "=" ++ w3 ++ V1 ++ e)%string
             /\ forall_str space w2 = true /\ forall_str space w3 = true
             /\ V1 <> "" /\ forall_str dot V1 = true
             /\ (e = "" \/ e = nl)
             /\ g 3 = Some V1).
Proof.
  unfold re_constant. intros H.
  apply Matches_Seq_inv in H as (s1 & g1 & H1 & H).
  apply Matches_Grp_inv in H1 as (g0 & H1 & ->).
  apply Matches_Seq_inv in H1 as (s0 & g0' & H0 & H1).
  apply Matches_Chr_inv in H0 as (a & -> & Ua & ->).
  apply Matches_Star_inv in H1 as (u & -> & Uu & ->).
  change (String a (u ++ s1)) with (String a u ++ s1)%string in *.
  rewrite slice_to_append in H.
  apply Matches_Seq_inv in H as (s2 & g2 & H2 & H).
  apply Matches_Lit_inv in H2 as (-> & ->).
  apply Matches_Seq_inv in H as (s3 & g3 & H3 & H).
  apply Matches_Star_inv in H3 as (w1 & -> & W1 & ->).
  apply Matches_Seq_inv in H as (s4 & g4 & H4 & H).
  apply Matches_Grp_inv in H4 as (g4' & H4 & ->).
  apply Matches_Plus_inv in H4 as (b & T & -> & Nb & NT & ->).
  rewrite slice_to_append in H.
  apply Matches_Seq_inv in H as (s5 & g5 & H5 & H).
  apply Matches_Eol_inv in H as (-> & -> & E).
  exists (String a u), w1, (String b T), s4.
  split; [reflexivity|].
  split; [cbn; rewrite Ua, Uu; reflexivity|].
  split; [exact W1|]. split; [discriminate|].
  split; [cbn [forall_str]; rewrite Nb, NT; reflexivity|].
  apply Matches_Opt_inv in H5 as [H5|[-> ->]].
  - apply Matches_Seq_inv in H5 as (s6 & g6 & H6 & H5).
    apply Matches_Star_inv in H6 as (w2 & -> & W2 & ->).
    apply Matches_Seq_inv in H5 as (s7 & g7 & H7 & H5).
    apply Matches_Lit_inv in H7 as (-> & ->).
    apply Matches_Seq_inv in H5 as (s8 & g8 & H8 & H5).
    apply Matches_Star_inv in H8 as (w3 & -> & W3 & ->).
    apply Matches_Grp_inv in H5 as (g9 & H5 & ->).
    apply Matches_Plus_inv in H5 as (d & V & -> & Dd & DV & ->).
    rewrite slice_to_append.
    split; [reflexivity|]. split; [reflexivity|]. right.
    exists w2, w3, (String d V), s5.
    split; [reflexivity|]. split; [exact W2|]. split; [exact W3|].
    split; [discriminate|].
    split; [cbn [forall_str]; rewrite Dd, DV; reflexivity|].
    split; [exact E|reflexivity].
  - split; [reflexivity|]. split; [reflexivity|]. left.
    split; [reflexivity|exact E].
Qed.

Lemma contains_cons (c a : ascii) (s : string) :
  contains c (String a s) = Ascii.eqb c a || contains c s.
Proof. reflexivity. Qed.

Lemma is_empty_app (x y : string) :
  is_empty (x ++ y) = is_empty x && is_empty y.
Proof. destruct x; reflexivity. Qed.

Lemma is_empty_false (s : string) : s <> "" -> is_empty s = false.
Proof. destruct s; [congruence|reflexivity]. Qed.

Lemma text_before_prefix (c : ascii) (x y : string) :
  contains c x = false ->
  text_before c (x ++ y) = (x ++ text_before c y)%string.
Proof.
  unfold contains. induction x as [|a x IH]; simpl; [reflexivity|].
  rewrite (Ascii.eqb_sym c a). intros H. apply orb_false_iff in H as [N H].
  rewrite N, (IH H). reflexivity.
Qed.

Lemma constant_head_matches (name rest : string) :
  is_constant_name name = true ->
  matches re_constant_head (name ++ ":" ++ rest) = true.
Proof.
  destruct name as [|a t]; simpl; [discriminate|].
  intros H. apply andb_true_iff in H as [Ua Ut].
  assert (M : Matches re_constant_head (String a (t ++ String ":" rest))
                      no_groups rest no_groups).
  { unfold re_constant_head.
    eapply M_Seq; [apply M_Chr; exact Ua|].
    eapply M_Seq; [apply M_Star; exact Ut|].
    apply (M_Lit ":"). }
  apply rmatch_complete in M as [g M]. unfold matches. rewrite M. reflexivity.
Qed.

Lemma re_constant_fields (name rest : string) (g : groups) :
  is_constant_name name = true -> contains newline rest = false ->
  rmatch re_constant (name ++ ":" ++ rest) = Some g ->
  constant_of name rest
  = Some (constant_component (group g 1) (strip (group g 2))
                             (strip_if_truthy (g 3))).
Proof.
  intros Hn Hnl H. apply rmatch_sound in H as [s' H].
  apply re_constant_inv in H
    as (name' & w1 & T1 & tail & E & Hn' & W1 & NT & ET & G1 & G2 & G3).
  cbn [String.append] in E.
  apply (class_prefix_unique const_tail ":" eq_refl) in E as [<- ->];
    try (apply constant_name_class; assumption).
  unfold group. rewrite G1, G2.
  rewrite !contains_app in Hnl.
  apply orb_false_iff in Hnl as [_ Hnl]. apply orb_false_iff in Hnl as [_ Hnl].
  assert (Q1 : contains "=" w1 = false)
    by (apply (forall_not_contains space); [exact W1|reflexivity]).
  assert (Q2 : contains "=" T1 = false).
  { apply (forall_not_contains (not_char "=")); [exact ET|reflexivity]. }
  unfold constant_of.
  destruct G3 as [[G3 E]|(w2 & w3 & V1 & e & -> & W2 & W3 & NV & DV & E & G3)];
    rewrite G3.
  - destruct E as [->| ->]; [|discriminate].
    rewrite append_nil_r, contains_app, Q1, Q2. cbn [orb].
    rewrite is_empty_app, (is_empty_false NT), andb_false_r.
    rewrite strip_app_space_l by exact W1. reflexivity.
  - rewrite !contains_app in Hnl.
    assert (e = "") as ->.
    { destruct E as [->| ->]; [reflexivity|].
      rewrite !orb_false_iff in Hnl. destruct Hnl as (_ & _ & _ & _ & Hnl).
      discriminate. }
    rewrite append_nil_r.
    assert (Q3 : contains "=" w2 = false)
      by (apply (forall_not_contains space); [exact W2|reflexivity]).
    assert (Q : contains "=" (w1 ++ T1 ++ w2) = false)
      by (rewrite !contains_app, Q1, Q2, Q3; reflexivity).
    replace (w1 ++ T1 ++ w2 ++ "=" ++ w3 ++ V1)%string
      with ((w1 ++ T1 ++ w2) ++ String "=" (w3 ++ V1))%string
      by (rewrite !append_assoc; reflexivity).
    rewrite contains_app. cbn [contains existsb_str].
    rewrite Ascii.eqb_refl, orb_true_r. cbn [orb].
    rewrite (@text_before_app _ _ _ Q), (@text_after_app _ _ _ Q).
    rewrite !is_empty_app, (is_empty_false NT), (is_empty_false NV).
    rewrite !andb_false_r. cbn [orb andb].
    rewrite (@strip_app_space_l _ _ W1), (@strip_app_space_r _ _ W2).
    rewrite (@strip_app_space_l _ _ W3).
    destruct V1; [congruence|reflexivity].
Qed.

Ltac constant_head Ua Ut :=
  eapply M_Seq;
  [ apply (Matches_Grp_intro 1);
    eapply M_Seq; [apply M_Chr; exact Ua|apply M_Star; exact Ut]
  | eapply M_Seq; [apply (M_Lit ":")|];
    eapply M_Seq; [apply (M_Star true space ""); reflexivity|] ].

Lemma re_constant_exists (name rest : string) (c : Component) :
  is_constant_name name = true -> contains newline rest = false ->
  constant_of name rest = Some c ->
  exists g, rmatch re_constant (name ++ ":" ++ rest) = Some g.
Proof.
  intros Hn Hnl H.
  destruct name as [|a t]; [discriminate|].
  cbn in Hn. apply andb_true_iff in Hn as [Ua Ut].
  unfold constant_of in H.
  destruct (contains "=" rest) eqn:C.
  - destruct (text_before_after _ _ C) as [E NB].
    destruct (text_before "=" rest) as [|b T] eqn:EB; [discriminate|].
    destruct (text_after "=" rest) as [|d V] eqn:EA; [discriminate|].
    rewrite E in Hnl. rewrite contains_app in Hnl.
    apply orb_false_iff in Hnl as [_ Hnl]. rewrite contains_cons in Hnl.
    apply orb_false_iff in Hnl as [_ Hnl].
    apply not_contains_forall in Hnl. apply not_contains_forall in NB.
    cbn [forall_str] in Hnl, NB.
    apply andb_true_iff in Hnl as [Dd DV]. apply andb_true_iff in NB as [Nb NT].
    rewrite E. eapply rmatch_complete. unfold re_constant.
    constant_head Ua Ut.
    eapply M_Seq.
    { apply (Matches_Grp_intro 2 (String b T)).
      apply Matches_Plus_intro; [exact Nb|exact NT]. }
    eapply M_Seq; [|apply M_Eol_end].
    apply M_Opt_some.
    eapply M_Seq; [apply (M_Star true space ""); reflexivity|].
    eapply M_Seq; [apply (M_Lit "=")|].
    eapply M_Seq; [apply (M_Star true space ""); reflexivity|].
    rewrite <- (append_nil_r (String d V)).
    apply (Matches_Grp_intro 3 (String d V)).
    apply Matches_Plus_intro; [exact Dd|exact DV].
  - destruct rest as [|b T]; [discriminate|].
    apply not_contains_forall in C. cbn [forall_str] in C.
    apply andb_true_iff in C as [Nb NT].
    eapply rmatch_complete. unfold re_constant.
    constant_head Ua Ut.
    eapply M_Seq.
    { rewrite <- (append_nil_r (String b T)).
      apply (Matches_Grp_intro 2 (String b T)).
      apply Matches_Plus_intro; [exact Nb|exact NT]. }
    eapply M_Seq; [apply M_Opt_none|apply M_Eol_end].
Qed.

(** The constant rule computes the constant of the specification. *)
Lemma rule_constant_spec (name rest : string) :
  is_constant_name name = true -> contains newline rest = false ->
  rule_constant (name ++ ":" ++ rest) = constant_of name rest.
Proof.
  intros Hn Hnl. unfold rule_constant.
  rewrite (constant_head_matches _ rest Hn).
  destruct (rmatch re_constant (name ++ ":" ++ rest)) as [g|] eqn:M.
  - rewrite (@re_constant_fields _ _ _ Hn Hnl M). reflexivity.
  - destruct (constant_of name rest) as [c|] eqn:C; [|reflexivity].
    destruct (@re_constant_exists _ _ _ Hn Hnl C) as [g G]. congruence.
Qed.

Lemma contains_lstrip_inv (p : ascii -> bool) (c : ascii) (s : string) :
  contains c s = false -> contains c (lstrip_with p s) = false.
Proof.
  induction s as [|a s IH]; [reflexivity|].
  rewrite contains_cons. intros H. apply orb_false_iff in H as [N H].
  cbn [lstrip_with]. destruct (p a); [exact (IH H)|].
  rewrite contains_cons, N. exact H.
Qed.

Lemma contains_rstrip_inv (p : ascii -> bool) (c : ascii) (s : string) :
  contains c s = false -> contains c (rstrip_with p s) = false.
Proof.
  induction s as [|a s IH]; [reflexivity|].
  rewrite contains_cons. intros H. apply orb_false_iff in H as [N H].
  cbn [rstrip_with]. specialize (IH H).
  destruct (rstrip_with p s) as [|b r].
  - destruct (p a); [reflexivity|]. rewrite contains_cons, N. reflexivity.
  - rewrite contains_cons, N. exact IH.
Qed.

Lemma contains_strip_inv (c : ascii) (s : string) :
  contains c s = false -> contains c (strip s) = false.
Proof.
  intros H. apply contains_rstrip_inv, contains_lstrip_inv, H.
Qed.

Lemma split_no_sep (sep : ascii) (s : string) :
  Forall (fun l => contains sep l = false) (split sep s).
Proof.
  induction s as [|a s IH]; cbn [split].
  - repeat constructor.
  - destruct (Ascii.eqb_spec a sep) as [->|N].
    + constructor; [reflexivity|exact IH].
    + apply Ascii.eqb_neq in N. rewrite Ascii.eqb_sym in N.
      destruct (split sep s) as [|h t].
      * repeat constructor. rewrite contains_cons, N. reflexivity.
      * inversion IH; subst. constructor; [|assumption].
        rewrite contains_cons, N. assumption.
Qed.

(** No line the driver works on holds a newline. *)
Lemma lines_of_no_newline (content : string) :
  Forall (fun l => contains newline l = false) (lines_of content).
Proof. apply split_no_sep. Qed.

(** The assignment form leaves a line that starts with an upper-case name
    and ':' to the constant form. *)
Lemma rule_assignment_defers (name rest : string) :
  is_constant_name name = true ->
  rule_assignment (name ++ ":" ++ rest) = Ok None.
Proof.
  intros Hn. unfold rule_assignment.
  destruct (contains "=" (name ++ ":" ++ rest)) eqn:C; [|reflexivity].
  assert (N : contains "=" name = false).
  { apply (forall_not_contains const_tail); [|reflexivity].
    apply constant_name_class. exact Hn. }
  assert (S : startswith (name ++ ":" ++ rest) "-" = false).
  { destruct name as [|a t]; [discriminate|]. cbn in Hn |- *.
    apply andb_true_iff in Hn as [Ua _].
    destruct (Ascii.eqb_spec a "-") as [->|]; [discriminate|reflexivity]. }
  rewrite S, (split1_contains _ _ C). cbn [negb andb].
  rewrite (@text_before_prefix _ _ _ N), contains_strip by reflexivity.
  rewrite contains_app.
  change (text_before "=" (":" ++ rest))
    with (String ":" (text_before "=" rest)).
  rewrite contains_cons, Ascii.eqb_refl, orb_true_r. reflexivity.
Qed.

(** C7 (amended).  The line "MAX_SIZE: int = 100" gives the constant
    MAX_SIZE of declared type "int" and value "100".  In general a line
    made of an upper-case name, ':' and a rest gives a constant exactly
    when the rest is not empty and, if it has an '=', the texts before and
    after its first '=' are not empty: the declared type is the trimmed
    text between ':' and that '=' (or the end of the line) and the value
    the trimmed text after it, absent without '='.  Otherwise the constant
    form yields nothing and the class and function forms decide.  (A line
    of the text holds no newline, see [lines_of_no_newline].) *)
Theorem constant_form (lines : list string) (i : nat) (name rest : string) :
  contains newline (line_at lines i) = false ->
  strip (line_at lines i) = (name ++ ":" ++ rest)%string ->
  is_constant_name name = true ->
  _parse_component lines i =
  Ok (match constant_of name rest with
      | Some c => Some c
      | None =>
          match rule_class lines i (name ++ ":" ++ rest) with
          | Some c => Some c
          | None => rule_function lines i (name ++ ":" ++ rest)
          end
      end).
Proof.
  intros Hnl E Hn. apply contains_strip_inv in Hnl. rewrite E in Hnl.
  rewrite !contains_app in Hnl. apply orb_false_iff in Hnl as [_ Hnl].
  apply orb_false_iff in Hnl as [_ Hnl].
  unfold _parse_component. rewrite E.
  rewrite (@rule_assignment_defers _ rest Hn). cbn [bind].
  unfold later_rules. rewrite (@rule_constant_spec _ _ Hn Hnl). reflexivity.
Qed.

Lemma constant_form_witness :
  _parse_component ["MAX_SIZE: int = 100"] 0
  = Ok (Some (constant_component "MAX_SIZE" "int" (Some "100")))
  /\ _parse_component ["TIMEOUT: float"] 0
     = Ok (Some (constant_component "TIMEOUT" "float" None)).
Proof.
  split.
  - exact (@constant_form ["MAX_SIZE: int = 100"] 0 "MAX_SIZE" " int = 100"
             eq_refl eq_refl eq_refl).
  - exact (@constant_form ["TIMEOUT: float"] 0 "TIMEOUT" " float"
             eq_refl eq_refl eq_refl).
Defined.

(** C7 as stated fails: the line "FOO:" has an upper-case name and ':' at
    its start; followed by a member line it is a class, not a constant. *)
Lemma constant_claim_counterexample : ~ constant_claim ["FOO:"; "- bar()"] 0.
Proof.
  intros H. destruct (H eq_refl) as (c & E & T).
  vm_compute in E. injection E as <-. discriminate.
Qed.

(** * Further properties of the parser *)

(** ** Outcomes of the driver *)

(** X1.  Parsing always comes to an end, and in one of three ways: with a
    Document, with the [ValueError] of the missing header, or with the
    [IndexError] of an empty name; the loop needs no more iterations than
    there are lines and raises no other exception. *)
Theorem driver_outcomes (content : string) :
  (exists d, parse_content content = Ok d)
  \/ parse_content content = Raise missing_header
  \/ parse_content content = Raise IndexError.
Proof.
  rewrite parse_content_unfold.
  destruct (startswith (line_at (lines_of content) 0) "#"); [|auto].
  destruct (parse_loop _ _ _ _) as [d|e|] eqn:E.
  - left. eauto.
  - apply parse_loop_raises in E as ->. auto.
  - exfalso. revert E. apply parse_loop_terminates. lia.
Qed.

(** ** The text and the path of the Document *)

Lemma parse_step_origin (lines : list string) (i : nat) (bp bp' : Blueprint)
      (next : nat) :
  parse_step lines i bp = Ok (bp', next) ->
  raw_content bp' = raw_content bp /\ file_path bp' = file_path bp.
Proof.
  unfold parse_step. intros H.
  repeat case_if_in H; try (apply ok_pair_inv in H as [<- _]; auto).
  destruct (_parse_component lines i) as [[c|]| |]; cbn [bind] in H;
    try discriminate; apply ok_pair_inv in H as [<- _]; auto.
Qed.

Lemma parse_loop_origin (fuel : nat) :
  forall (lines : list string) (i : nat) (bp d : Blueprint),
  parse_loop fuel lines i bp = Ok d ->
  raw_content d = raw_content bp /\ file_path d = file_path bp.
Proof.
  induction fuel as [|fuel IH]; intros lines i bp d H; cbn [parse_loop] in H.
  - destruct (i <? List.length lines); [discriminate|]. injection H as <-. auto.
  - destruct (i <? List.length lines); [|injection H as <-; auto].
    destruct (parse_step lines i bp) as [[bp' next]| |] eqn:S; cbn [bind] in H;
      try discriminate.
    apply IH in H as [H1 H2]. apply parse_step_origin in S as [S1 S2].
    cbn [fst] in *. split; congruence.
Qed.

Lemma parse_content_origin (content : string) (d : Blueprint) :
  parse_content content = Ok d ->
  raw_content d = content /\ file_path d = None.
Proof.
  rewrite parse_content_unfold.
  destruct (startswith (line_at (lines_of content) 0) "#"); [|discriminate].
  intros H. apply parse_loop_origin in H. exact H.
Qed.

(** X2.  [parse_file] gives the Document of [parse_content] with the path
    of the file recorded in it: the raw content kept is the text of the
    file as it was read (not stripped), the other fields are those parsed
    from it, and a text that cannot be parsed fails with the same
    exception; [parse_content] itself leaves the path unset. *)
Theorem parse_file_document (path content : string) :
  (forall d, parse_content content = Ok d ->
             file_path d = None /\ raw_content d = content
             /\ parse_file path content
                = Ok (mkBlueprint (module_name d) (description d)
                                  (blueprint_refs d) (components d) (notes d)
                                  content (Some path)))
  /\ (forall e, parse_content content = Raise e ->
                parse_file path content = Raise e)
  /\ (forall d, parse_file path content = Ok d ->
                file_path d = Some path /\ raw_content d = content).
Proof.
  split; [|split].
  - intros d H. destruct (parse_content_origin _ H) as [R F].
    unfold parse_file. rewrite H. cbn [bind]. rewrite R. auto.
  - intros e H. unfold parse_file. rewrite H. reflexivity.
  - intros d. unfold parse_file.
    destruct (parse_content content) as [d0| |] eqn:H; cbn [bind];
      try discriminate.
    destruct (parse_content_origin _ H) as [R _].
    intros [= <-]. cbn. auto.
Qed.

Lemma parse_file_document_witness :
  exists d,
    parse_content (unlines ["  # m"; "d"; "X = 1"; ""]) = Ok d
    /\ parse_file "a/b.md" (unlines ["  # m"; "d"; "X = 1"; ""])
       = Ok (mkBlueprint (module_name d) (description d) (blueprint_refs d)
                         (components d) (notes d)
                         (unlines ["  # m"; "d"; "X = 1"; ""]) (Some "a/b.md")).
Proof.
  eexists. split; [reflexivity|].
  exact (proj2 (proj2 (proj1 (parse_file_document "a/b.md"
                                (unlines ["  # m"; "d"; "X = 1"; ""]))
                             _ eq_refl))).
Defined.

(** ** The notes directive *)

(** The lines the span resolver passes over are no boundary lines. *)
Lemma find_end_passes_only (rest : list string) :
  forall j, 1 <= j ->
  match find_end_from rest j with
  | Some e => Forall (fun l => boundary_line l = false) (firstn (e + 1 - j) rest)
  | None => Forall (fun l => boundary_line l = false) rest
  end.
Proof.
  induction rest as [|l rest IH]; intros j Hj.
  - cbn. constructor.
  - rewrite find_end_from_cons. destruct (boundary_line l) eqn:B.
    + replace (j - 1 + 1 - j) with 0 by lia. constructor.
    + specialize (IH (S j) ltac:(lia)).
      destruct (find_end_from rest (S j)) as [e|] eqn:F.
      * apply find_end_from_lower_bound in F.
        replace (e + 1 - j) with (S (e + 1 - S j)) by lia.
        cbn [firstn]. constructor; assumption.
      * constructor; assumption.
Qed.

Lemma notes_line_boundary (l : string) :
  is_notes_line l = true -> boundary_line l = true.
Proof.
  unfold is_notes_line, boundary_line, triple_quote. intros H.
  rewrite (@startswith_nonempty _ _ _ H).
  rewrite (@startswith_other _ _ dquote _ _ H eq_refl).
  rewrite H, orb_true_r. reflexivity.
Qed.

Lemma notes_after_cons (l : string) (rest : list string) (n : list string) :
  notes_after (l :: rest) n =
  notes_after rest (if is_notes_line l then notes_of_line l else n).
Proof. reflexivity. Qed.

Lemma notes_after_passes (pre post : list string) (n : list string) :
  Forall (fun l => boundary_line l = false) pre ->
  notes_after (pre ++ post) n = notes_after post n.
Proof.
  induction 1 as [|l pre B _ IH]; [reflexivity|].
  cbn [app]. rewrite notes_after_cons.
  destruct (is_notes_line l) eqn:N; [|exact IH].
  apply notes_line_boundary in N. congruence.
Qed.

Lemma notes_after_span (lines : list string) (i : nat) (n : list string) :
  i < List.length lines ->
  notes_after (skipn (i + 1) lines) n
  = notes_after (skipn (_find_component_end lines i + 1) lines) n.
Proof.
  intros Hi. unfold _find_component_end.
  pose proof (@find_end_passes_only (skipn (i + 1) lines) (i + 1) ltac:(lia)) as P.
  destruct (find_end_from (skipn (i + 1) lines) (i + 1)) as [e|] eqn:F.
  - apply find_end_from_lower_bound in F.
    rewrite <- (firstn_skipn (e + 1 - (i + 1)) (skipn (i + 1) lines)) at 1.
    rewrite (notes_after_passes _ _ P), skipn_skipn.
    f_equal. f_equal. lia.
  - replace (List.length lines - 1 + 1) with (List.length lines) by lia.
    rewrite skipn_all, <- (app_nil_r (skipn (i + 1) lines)).
    apply notes_after_passes. exact P.
Qed.

Lemma parse_step_notes (lines : list string) (i : nat) (bp bp' : Blueprint)
      (next : nat) :
  i < List.length lines ->
  parse_step lines i bp = Ok (bp', next) ->
  notes_after (skipn i lines) (notes bp) = notes_after (skipn next lines) (notes bp').
Proof.
  intros Hi H. rewrite (skipn_line_at lines Hi), notes_after_cons.
  unfold parse_step in H. unfold is_notes_line, notes_of_line.
  destruct (startswith (strip (line_at lines i)) "deps:") eqn:D.
  { rewrite (@startswith_other _ _ "n" _ "otes:" D eq_refl).
    apply ok_pair_inv in H as [<- <-]. reflexivity. }
  destruct (startswith (strip (line_at lines i)) "notes:").
  { apply ok_pair_inv in H as [<- <-]. reflexivity. }
  repeat case_if_in H; try (apply ok_pair_inv in H as [<- <-]; reflexivity).
  destruct (_parse_component lines i) as [[c|]| |]; cbn [bind] in H;
    try discriminate; apply ok_pair_inv in H as [<- <-]; [|reflexivity].
  cbn [add_component notes]. apply notes_after_span. exact Hi.
Qed.

Lemma parse_loop_notes (fuel : nat) :
  forall (lines : list string) (i : nat) (bp d : Blueprint),
  parse_loop fuel lines i bp = Ok d ->
  notes d = notes_after (skipn i lines) (notes bp).
Proof.
  induction fuel as [|fuel IH]; intros lines i bp d H; cbn [parse_loop] in H.
  - destruct (i <? List.length lines) eqn:E; [discriminate|]. injection H as <-.
    apply Nat.ltb_ge in E. rewrite skipn_all2 by assumption. reflexivity.
  - destruct (i <? List.length lines) eqn:E.
    + apply Nat.ltb_lt in E.
      destruct (parse_step lines i bp) as [[bp' next]| |] eqn:S; cbn [bind] in H;
        try discriminate.
      apply IH in H. rewrite H. symmetry. apply parse_step_notes; assumption.
    + injection H as <-. apply Nat.ltb_ge in E.
      rewrite skipn_all2 by assumption. reflexivity.
Qed.

Lemma notes_after_last (rest : list string) : forall n0,
  notes_after rest n0 =
  match rev (filter is_notes_line rest) with
  | l :: _ => notes_of_line l
  | [] => n0
  end.
Proof.
  induction rest as [|l rest IH]; intros n0; [reflexivity|].
  rewrite notes_after_cons, IH. cbn [filter].
  destruct (is_notes_line l); [|reflexivity].
  cbn [rev]. destruct (rev (filter is_notes_line rest)); reflexivity.
Qed.

Lemma parse_content_notes (content : string) (d : Blueprint) :
  parse_content content = Ok d ->
  notes d = last_declared_notes (lines_of content).
Proof.
  rewrite parse_content_unfold.
  destruct (startswith (line_at (lines_of content) 0) "#"); [|discriminate].
  intros H. apply parse_loop_notes in H. rewrite H.
  cbn [notes]. apply notes_after_last.
Qed.

(** X3.  The notes of a returned Document are those of the last [notes:]
    line from line 2 on, split on ',' and trimmed one by one: every
    [notes:] line replaces the notes of the earlier ones, and none is
    passed over inside the span of a component.  A [notes:] line always
    leaves at least one note (a bare "notes:" leaves the single empty
    note), so the notes are empty exactly when there is no such line. *)
Theorem notes_last_line_wins (content : string) (d : Blueprint) :
  parse_content content = Ok d ->
  notes d = last_declared_notes (lines_of content)
  /\ (notes d = [] <->
      filter is_notes_line (skipn 2 (lines_of content)) = []).
Proof.
  intros H. apply parse_content_notes in H. split; [exact H|].
  rewrite H. unfold last_declared_notes.
  destruct (filter is_notes_line (skipn 2 (lines_of content))) as [|l ls] eqn:F.
  - cbn. tauto.
  - assert (R : rev (l :: ls) <> []).
    { intros E. apply (f_equal (@List.length _)) in E.
      rewrite length_rev in E. discriminate. }
    destruct (rev (l :: ls)) as [|x xs]; [congruence|].
    split; [|discriminate]. unfold notes_of_line. intros E.
    apply map_eq_nil in E. exfalso. exact (split_not_nil _ _ E).
Qed.

Lemma notes_last_line_wins_witness :
  exists d,
    parse_content (unlines ["#m"; "d"; "notes: a, b"; "Foo:"; "- x()"; "notes:"])
    = Ok d
    /\ notes d = [""].
Proof.
  eexists. split; [reflexivity|].
  exact (proj1 (@notes_last_line_wins
                  (unlines ["#m"; "d"; "notes: a, b"; "Foo:"; "- x()"; "notes:"])
                  _ eq_refl)).
Defined.

(** ** Blank lines and comment lines *)

Lemma parse_step_skipped (lines : list string) (i : nat) (bp : Blueprint) :
  skipped_line (line_at lines i) = true ->
  parse_step lines i bp = Ok (bp, i + 1).
Proof.
  unfold skipped_line, parse_step. intros H.
  destruct (strip (line_at lines i)) as [|a t] eqn:L; [reflexivity|].
  cbn [is_empty orb] in H.
  rewrite (@startswith_other _ _ "d" _ "eps:" H eq_refl).
  rewrite (@startswith_other _ _ "n" _ "otes:" H eq_refl).
  rewrite H. reflexivity.
Qed.

Lemma parse_loop_skipped (fuel : nat) :
  forall (lines : list string) (i : nat) (bp : Blueprint),
  (forall j, i <= j -> j < List.length lines ->
             skipped_line (line_at lines j) = true) ->
  List.length lines - i <= fuel ->
  parse_loop fuel lines i bp = Ok bp.
Proof.
  induction fuel as [|fuel IH]; intros lines i bp H F; cbn [parse_loop].
  - destruct (i <? List.length lines) eqn:E; [|reflexivity].
    apply Nat.ltb_lt in E. lia.
  - destruct (i <? List.length lines) eqn:E; [|reflexivity].
    apply Nat.ltb_lt in E.
    rewrite (parse_step_skipped lines i bp (H i (le_n i) E)). cbn [bind fst snd].
    apply IH; [|lia]. intros j J1 J2. apply H; [lia|exact J2].
Qed.

(** X4.  Blank lines and comment lines (lines starting with '#') add
    nothing: a text with a header whose lines from index 2 on are all blank
    or comments is parsed into a Document with its module name and
    description and with no dependency, component or note. *)
Theorem comments_and_blanks_add_nothing (content : string) :
  startswith (line_at (lines_of content) 0) "#" = true ->
  (forall j, 2 <= j -> j < List.length (lines_of content) ->
             skipped_line (line_at (lines_of content) j) = true) ->
  parse_content content = Ok (initial_blueprint content)
  /\ blueprint_refs (initial_blueprint content) = []
  /\ components (initial_blueprint content) = []
  /\ notes (initial_blueprint content) = [].
Proof.
  intros H S. rewrite parse_content_unfold, H.
  split; [|auto]. apply parse_loop_skipped; [exact S|lia].
Qed.

Lemma comments_and_blanks_add_nothing_witness :
  parse_content (unlines ["# pkg.mod"; "A module."; ""; "# a remark"; "   "])
  = Ok (mkBlueprint "pkg.mod" "A module." [] [] []
          (unlines ["# pkg.mod"; "A module."; ""; "# a remark"; "   "]) None).
Proof.
  refine (proj1 (@comments_and_blanks_add_nothing
                   (unlines ["# pkg.mod"; "A module."; ""; "# a remark"; "   "])
                   eq_refl _)).
  intros j J1 J2.
  destruct j as [|[|[|[|j]]]]; try lia; try reflexivity.
  vm_compute in J2. lia.
Defined.

(** ** Trimmed fields *)

Lemma rstrip_idempotent (p : ascii -> bool) (s : string) :
  rstrip_with p (rstrip_with p s) = rstrip_with p s.
Proof.
  induction s as [|a s IH]; [reflexivity|]. cbn [rstrip_with].
  destruct (rstrip_with p s) as [|b r] eqn:R.
  - destruct (p a) eqn:Pa; [reflexivity|]. cbn. rewrite Pa. reflexivity.
  - cbn [rstrip_with] in *. rewrite IH. reflexivity.
Qed.

Lemma lstrip_fixed (p : ascii -> bool) (s : string) :
  (forall a t, s = String a t -> p a = false) -> lstrip_with p s = s.
Proof.
  destruct s as [|a t]; [reflexivity|]. intros H. cbn.
  rewrite (H a t eq_refl). reflexivity.
Qed.

(** Trimming a trimmed text changes nothing. *)
Lemma strip_idempotent (s : string) : strip (strip s) = strip s.
Proof.
  unfold strip at 1. rewrite lstrip_fixed.
  - unfold strip. apply rstrip_idempotent.
  - intros a t E. exact (strip_first _ E).
Qed.

(** X5.  The module name, the description and every note of a returned
    Document are trimmed: none of them starts or ends with whitespace. *)
Theorem document_fields_trimmed (content : string) (d : Blueprint) :
  parse_content content = Ok d ->
  strip (module_name d) = module_name d
  /\ strip (description d) = description d
  /\ Forall (fun n => strip n = n) (notes d).
Proof.
  intros H. destruct (parse_content_header _ H) as [M D].
  split; [rewrite M; apply strip_idempotent|].
  split.
  - rewrite D. destruct (1 <? List.length (lines_of content));
      [apply strip_idempotent|reflexivity].
  - rewrite (parse_content_notes _ H). unfold last_declared_notes.
    destruct (rev (filter is_notes_line (skipn 2 (lines_of content))));
      [constructor|].
    unfold notes_of_line. apply Forall_map, Forall_forall.
    intros x _. apply strip_idempotent.
Qed.

Lemma document_fields_trimmed_witness :
  exists d,
    parse_content (unlines ["#  m  #"; "  about  "; "notes:  a ,b  , "]) = Ok d
    /\ Forall (fun n => strip n = n) (notes d).
Proof.
  eexists. split; [reflexivity|].
  exact (proj2 (proj2 (@document_fields_trimmed
                         (unlines ["#  m  #"; "  about  "; "notes:  a ,b  , "])
                         _ eq_refl))).
Defined.

(** ** More on the dependency line *)

Lemma split_app_sep (sep : ascii) (a b : string) :
  split sep (a ++ String sep b) = split sep a ++ split sep b.
Proof.
  induction a as [|c a IH]; cbn [String.append split].
  - rewrite Ascii.eqb_refl. reflexivity.
  - rewrite IH. destruct (Ascii.eqb c sep); [reflexivity|].
    destruct (split sep a) as [|h t] eqn:E; [|reflexivity].
    exfalso. exact (split_not_nil _ _ E).
Qed.

(** X6.  Parsing a dependency text distributes over ';': the references
    of "a;b" are those of "a" followed by those of "b", whatever the two
    texts are. *)
Theorem parse_blueprint_refs_app (a b : string) :
  _parse_blueprint_refs (a ++ String ";" b)
  = _parse_blueprint_refs a ++ _parse_blueprint_refs b.
Proof.
  unfold _parse_blueprint_refs.
  rewrite !fold_parse_dep, split_app_sep, map_app, filter_app, map_app.
  reflexivity.
Qed.

Lemma contains_split (c sep : ascii) (s : string) :
  contains c s = false ->
  Forall (fun l => contains c l = false) (split sep s).
Proof.
  induction s as [|a s IH]; cbn [split].
  - repeat constructor.
  - rewrite contains_cons. intros H. apply orb_false_iff in H as [N H].
    specialize (IH H). destruct (Ascii.eqb a sep).
    + constructor; [reflexivity|exact IH].
    + destruct (split sep s) as [|h t].
      * repeat constructor. rewrite contains_cons, N. reflexivity.
      * inversion IH; subst. constructor; [|assumption].
        rewrite contains_cons, N. assumption.
Qed.

Lemma items_text_no_close (entry : string) :
  contains "]" (items_text entry) = false.
Proof.
  unfold items_text, DepSpec.bracket_body.
  destruct (closes_early entry); [reflexivity|apply text_before_no_sep].
Qed.

(** X7.  Every item of every reference read from a dependency text is
    trimmed and contains neither ',' nor ']'. *)
Theorem reference_items_clean (deps_str : string) :
  Forall (fun r =>
            Forall (fun item => strip item = item
                                /\ contains "," item = false
                                /\ contains "]" item = false) (items r))
         (_parse_blueprint_refs deps_str).
Proof.
  unfold _parse_blueprint_refs. rewrite fold_parse_dep. cbn [app].
  apply Forall_map, Forall_forall. intros entry _.
  unfold reference_of. destruct (DepSpec.has_brackets entry);
    cbn [items]; [|constructor].
  apply Forall_map.
  pose proof (split_no_sep "," (items_text entry)) as A.
  pose proof (@contains_split "]" "," _ (items_text_no_close entry)) as B.
  rewrite Forall_forall in *. intros x X.
  split; [apply strip_idempotent|].
  split; apply contains_strip_inv; auto.
Qed.

(** ** The span resolver *)

Lemma find_end_from_stop (rest : list string) :
  forall j e, 1 <= j -> find_end_from rest j = Some e ->
  e + 1 - j < List.length rest
  /\ boundary_line (nth (e + 1 - j) rest "") = true.
Proof.
  induction rest as [|l rest IH]; intros j e Hj F; [discriminate|].
  rewrite find_end_from_cons in F. destruct (boundary_line l) eqn:B.
  - injection F as <-. replace (j - 1 + 1 - j) with 0 by lia.
    cbn. split; [lia|exact B].
  - pose proof (find_end_from_lower_bound _ _ F) as L.
    destruct (IH (S j) e ltac:(lia) F) as [I1 I2].
    replace (e + 1 - j) with (S (e + 1 - S j)) by lia.
    cbn [List.length nth]. split; [lia|exact I2].
Qed.

Lemma find_end_from_none (rest : list string) (j : nat) :
  find_end_from rest j = None ->
  forall m, boundary_line (nth m rest "") = true -> List.length rest <= m.
Proof.
  revert j. induction rest as [|l rest IH]; intros j F m B; [cbn; lia|].
  rewrite find_end_from_cons in F. destruct (boundary_line l) eqn:L;
    [discriminate|].
  destruct m as [|m]; [cbn in B; congruence|].
  cbn [List.length]. apply le_n_S. exact (IH _ F m B).
Qed.

(** X8.  For a start index inside the lines, the span resolver returns an
    index between the start and the last line such that no line after the
    start up to it is a boundary line (a directive, a comment, or a line
    that looks like a new component, blank lines and lines starting with
    three double quotes never being one), and the line after it, if there
    is one, is a boundary line: the span ends just in front of the first
    boundary line, or with the last line. *)
Theorem span_ends_before_first_boundary (lines : list string) (i : nat) :
  i < List.length lines ->
  i <= _find_component_end lines i
  /\ _find_component_end lines i < List.length lines
  /\ (forall j, i < j -> j <= _find_component_end lines i ->
                boundary_line (line_at lines j) = false)
  /\ (_find_component_end lines i + 1 < List.length lines ->
      boundary_line (line_at lines (_find_component_end lines i + 1)) = true).
Proof.
  intros Hi. split; [apply find_component_end_ge; exact Hi|].
  assert (NB : forall j, i < j -> j <= _find_component_end lines i ->
                         boundary_line (line_at lines j) = false).
  { intros j J1 J2. destruct (boundary_line (line_at lines j)) eqn:B; [|reflexivity].
    destruct (le_lt_dec (List.length lines) j) as [G|G].
    - unfold line_at in B. rewrite nth_overflow in B by exact G. discriminate.
    - pose proof (@find_component_end_before lines i j J1 G B). lia. }
  unfold _find_component_end in *.
  destruct (find_end_from (skipn (i + 1) lines) (i + 1)) as [e|] eqn:F.
  - pose proof (find_end_from_lower_bound _ _ F) as L.
    destruct (@find_end_from_stop (skipn (i + 1) lines) (i + 1) e ltac:(lia) F)
      as [S1 S2].
    rewrite length_skipn in S1. rewrite nth_skipn in S2.
    replace (i + 1 + (e + 1 - (i + 1))) with (e + 1) in S2 by lia.
    split; [lia|]. split; [exact NB|]. intros _. exact S2.
  - split; [lia|]. split; [exact NB|]. lia.
Qed.

Lemma span_ends_before_first_boundary_witness :
  _find_component_end example_class_lines 2 = 6
  /\ boundary_line (line_at example_class_lines 7) = true.
Proof.
  split; [reflexivity|].
  exact (proj2 (proj2 (proj2 (@span_ends_before_first_boundary
                                example_class_lines 2
                                ltac:(vm_compute; lia))))
               ltac:(vm_compute; lia)).
Defined.

(** ** Lines the driver never passes over *)

Lemma parse_step_next_le (lines : list string) (i j : nat) (bp bp' : Blueprint)
      (next : nat) :
  i < j -> j < List.length lines ->
  boundary_line (line_at lines j) = true ->
  parse_step lines i bp = Ok (bp', next) -> next <= j.
Proof.
  intros Hij Hj B S. unfold parse_step in S.
  repeat case_if_in S; try (apply ok_pair_inv in S as [_ <-]; lia).
  destruct (_parse_component lines i) as [[c|]| |]; cbn [bind] in S;
    try discriminate; apply ok_pair_inv in S as [_ <-]; [|lia].
  pose proof (@find_component_end_before lines i j Hij Hj B). lia.
Qed.

Lemma cursor_reaches_boundary (fuel : nat) :
  forall (lines : list string) (i j : nat) (bp d : Blueprint),
  parse_loop fuel lines i bp = Ok d ->
  i <= j -> j < List.length lines ->
  boundary_line (line_at lines j) = true ->
  In j (cursor_trace fuel lines i bp).
Proof.
  induction fuel as [|fuel IH]; intros lines i j bp d H Hij Hj B;
    cbn [parse_loop cursor_trace] in *;
    assert (Hi : (i <? List.length lines) = true) by (apply Nat.ltb_lt; lia);
    rewrite Hi in *; [discriminate|].
  destruct (Nat.eq_dec i j) as [->|N]; [left; reflexivity|right].
  destruct (parse_step lines i bp) as [[bp' next]| |] eqn:S; cbn [bind] in H;
    try discriminate.
  cbn [fst snd] in *.
  apply (IH _ _ _ _ _ H); try assumption.
  apply (@parse_step_next_le lines i j bp bp' next); try assumption. lia.
Qed.

(** X9.  When a text is parsed into a Document, the driver has stopped at
    every boundary line from index 2 on: no directive line, comment line
    or line that looks like the start of a component lies inside the span
    of an earlier component, whatever that component is. *)
Theorem boundary_lines_are_visited (content : string) (d : Blueprint) (j : nat) :
  parse_content content = Ok d ->
  2 <= j -> j < List.length (lines_of content) ->
  boundary_line (line_at (lines_of content) j) = true ->
  In j (cursor_trace (List.length (lines_of content)) (lines_of content) 2
                     (initial_blueprint content)).
Proof.
  rewrite parse_content_unfold.
  destruct (startswith (line_at (lines_of content) 0) "#"); [|discriminate].
  intros H J1 J2 B. exact (@cursor_reaches_boundary _ _ _ _ _ _ H J1 J2 B).
Qed.

Lemma boundary_lines_are_visited_witness :
  In 7 (cursor_trace (List.length (lines_of (unlines example_class_lines)))
                     (lines_of (unlines example_class_lines)) 2
                     (initial_blueprint (unlines example_class_lines))).
Proof.
  refine (@boundary_lines_are_visited (unlines example_class_lines) _ 7
            eq_refl _ _ eq_refl).
  - lia.
  - vm_compute. lia.
Defined.

(** ** Lines that are no component *)

Lemma upper_AZ_word (a : ascii) : upper_AZ a = true -> word a = true.
Proof.
  unfold upper_AZ, word. intros ->.
  rewrite !orb_true_r. reflexivity.
Qed.

Lemma not_word_neq (a b : ascii) :
  word a = false -> word b = true -> Ascii.eqb a b = false.
Proof.
  intros A B. destruct (Ascii.eqb_spec a b) as [->|]; congruence.
Qed.

Lemma later_rules_not_word (lines : list string) (i : nat) (a : ascii)
      (t : string) :
  word a = false -> later_rules lines i (String a t) = None.
Proof.
  intros W.
  assert (U : upper_AZ a = false).
  { destruct (upper_AZ a) eqn:U; [|reflexivity].
    apply upper_AZ_word in U. congruence. }
  pose proof (@not_word_neq a "a" W eq_refl) as Na.
  pose proof (@not_word_neq a "d" W eq_refl) as Nd.
  unfold later_rules, rule_constant, rule_class, rule_function, matches, rmatch.
  unfold re_constant_head, re_class, re_function, Plus.
  cbn [run drop_prefix]. rewrite U, W, Na, Nd. reflexivity.
Qed.

(** X10.  A line whose first character, once trimmed, is not a word
    character and that either has no '=' or starts with '-' is never a
    component and never an error: a member line ("- ...") outside a class,
    or a decorator line without '=', is skipped. *)
Theorem non_word_line_is_skipped (lines : list string) (i : nat) (a : ascii)
        (t : string) :
  strip (line_at lines i) = String a t ->
  word a = false ->
  contains "=" (String a t) = false \/ a = "-"%char ->
  _parse_component lines i = Ok None.
Proof.
  intros E W C. unfold _parse_component. rewrite E.
  assert (R : rule_assignment (String a t) = Ok None).
  { unfold rule_assignment. destruct C as [C| ->].
    - rewrite C. reflexivity.
    - destruct (contains "=" (String "-" t)); reflexivity. }
  rewrite R. cbn [bind]. rewrite (@later_rules_not_word lines i a t W). reflexivity.
Qed.

Lemma non_word_line_is_skipped_witness :
  _parse_component ["Foo:"; ""; "  - bar(x) -> int = 3"] 2 = Ok None
  /\ _parse_component ["@staticmethod"; "x"] 0 = Ok None.
Proof.
  split.
  - exact (@non_word_line_is_skipped ["Foo:"; ""; "  - bar(x) -> int = 3"] 2
             "-" " bar(x) -> int = 3" eq_refl eq_refl (or_intror eq_refl)).
  - exact (@non_word_line_is_skipped ["@staticmethod"; "x"] 0
             "@" "staticmethod" eq_refl eq_refl (or_introl eq_refl)).
Defined.

(** ** The shape of a component *)

Lemma Matches_frame (n : nat) r s g s' g' :
  Matches r s g s' g' -> binds n r = false -> g' n = g n.
Proof.
  induction 1 as [p a s g Pa|l s g|greedy p u s g Hu
                  |r1 r2 s g s1 g1 s2 g2 _ IH1 _ IH2
                  |r s g s' g' _ IH|r s g|m r s g s' g' _ IH|g|g];
    cbn [binds]; intros B; try reflexivity.
  - apply orb_false_iff in B as [B1 B2]. rewrite (IH2 B2). exact (IH1 B1).
  - exact (IH B).
  - apply orb_false_iff in B as [B1 B2]. unfold set_group.
    rewrite B1. exact (IH B2).
Qed.

(** Group 1 of the class pattern and of the function pattern is the
    name, one word character at least. *)
Lemma re_class_name (line : string) (g : groups) :
  rmatch re_class line = Some g -> exists a u, g 1 = Some (String a u).
Proof.
  intros H. apply rmatch_sound in H as [s' H]. unfold re_class in H.
  apply Matches_Seq_inv in H as (s1 & g1 & H1 & H).
  rewrite (Matches_frame 1 H eq_refl).
  apply Matches_Grp_inv in H1 as (g0 & H1 & ->).
  apply Matches_Plus_inv in H1 as (a & u & -> & _ & _ & ->).
  rewrite slice_to_append. unfold set_group. cbn. eauto.
Qed.

Lemma re_function_name (line : string) (g : groups) :
  rmatch re_function line = Some g -> exists a u, g 1 = Some (String a u).
Proof.
  intros H. apply rmatch_sound in H as [s' H]. unfold re_function in H.
  apply Matches_Seq_inv in H as (s1 & g1 & H1 & H).
  apply (Matches_frame 1) in H1; [|reflexivity].
  apply Matches_Seq_inv in H as (s2 & g2 & H2 & H).
  apply Matches_Lit_inv in H2 as (-> & ->).
  apply Matches_Seq_inv in H as (s3 & g3 & H3 & H).
  apply Matches_Plus_inv in H3 as (b & w & -> & _ & _ & ->).
  apply Matches_Seq_inv in H as (s4 & g4 & H4 & H).
  rewrite (Matches_frame 1 H eq_refl).
  apply Matches_Grp_inv in H4 as (g0 & H4 & ->).
  apply Matches_Plus_inv in H4 as (a & u & -> & _ & _ & ->).
  rewrite slice_to_append. unfold set_group. cbn. eauto.
Qed.

Lemma re_constant_name (line : string) (g : groups) :
  rmatch re_constant line = Some g -> exists a u, g 1 = Some (String a u).
Proof.
  intros H. apply rmatch_sound in H as [s' H].
  apply re_constant_inv in H as (name & _ & _ & _ & _ & N & _ & _ & _ & G & _).
  destruct name as [|a u]; [discriminate|]. eauto.
Qed.

Ltac case_top_in H :=
  match type of H with
  | (if ?b then _ else _) = _ => destruct b eqn:?
  end.

(** The five places [_parse_component] returns a component from. *)
Lemma parse_component_inv (lines : list string) (i : nat) (c : Component) :
  _parse_component lines i = Ok (Some c) ->
  (exists a t value,
      c = mkComponent type_alias (String a t) None [] [] (Some value) None)
  \/ (exists a t value,
         c = mkComponent type_constant (String a t) None []
                         [("type", "auto")] (Some value) None)
  \/ (exists g, rmatch re_constant (strip (line_at lines i)) = Some g
                /\ c = mkComponent type_constant (group g 1) None []
                                   [("type", strip (group g 2))]
                                   (strip_if_truthy (g 3)) None)
  \/ (exists g, rmatch re_class (strip (line_at lines i)) = Some g
                /\ (i + 1 <? List.length lines)
                   && startswith (strip (line_at lines (i + 1))) "-" = true
                /\ c = mkComponent type_class (group g 1) (g 2)
                         (fst (class_members (skipn (i + 1) lines) (i + 1) [] []))
                         [] None None)
  \/ (exists g, rmatch re_function (strip (line_at lines i)) = Some g
                /\ c = mkComponent type_function (group g 1) None
                         [mkMethod (group g 1) (group g 2)
                                   (strip_if_truthy (g 3)) None
                                   (preceding_decorators lines i [])
                                   (startswith (strip (strip (line_at lines i)))
                                               "async ")]
                         [] None (docstring_after lines i)).
Proof.
  unfold _parse_component. set (line := strip (line_at lines i)).
  destruct (rule_assignment line) as [[c0|]| |] eqn:R; cbn [bind];
    try discriminate.
  - intros [= <-]. unfold rule_assignment in R.
    case_top_in R; [|discriminate].
    destruct (split1 "=" line) as [|p0 [|p1 [|? ?]]]; try discriminate.
    case_top_in R; [|discriminate].
    destruct (strip p0) as [|a t] eqn:N; [discriminate|].
    cbn [first_char bind] in R.
    case_top_in R; [injection R as <-; eauto 8|].
    case_top_in R; [injection R as <-; eauto 8|discriminate].
  - intros [= H]. unfold later_rules in H.
    destruct (rule_constant line) as [c1|] eqn:C.
    { injection H as <-. unfold rule_constant in C.
      destruct (matches re_constant_head line); [|discriminate].
      destruct (rmatch re_constant line) as [g|]; [|discriminate].
      injection C as <-. right; right; left. eauto. }
    destruct (rule_class lines i line) as [c2|] eqn:K.
    { injection H as <-. unfold rule_class in K.
      destruct (rmatch re_class line) as [g|]; [|discriminate].
      case_if_in K; [|discriminate].
      destruct (class_members (skipn (i + 1) lines) (i + 1) [] []) as [ms st].
      injection K as <-. right; right; right; left. eauto. }
    unfold rule_function in H.
    destruct (rmatch re_function line) as [g|]; [|discriminate].
    injection H as <-. right; right; right; right. eauto.
Qed.

(** X11.  Whatever its kind, a component has a non-empty name and the
    fields of its kind only: a type alias and a constant carry a value
    slot and neither base class, methods nor docstring, a constant having
    its declared type as its one property; a class carries methods and
    neither value, properties nor docstring; a function carries exactly
    one method, named like the component and without comment, and neither
    base class, value nor properties. *)
Theorem component_shape (lines : list string) (i : nat) (c : Component) :
  _parse_component lines i = Ok (Some c) ->
  c_name c <> ""
  /\ match c_type c with
     | type_alias =>
         c_value c <> None /\ c_base_class c = None /\ c_methods c = []
         /\ c_properties c = [] /\ c_docstring c = None
     | type_constant =>
         (exists ty, c_properties c = [("type", ty)] /\ strip ty = ty)
         /\ c_base_class c = None /\ c_methods c = [] /\ c_docstring c = None
     | type_class =>
         c_value c = None /\ c_properties c = [] /\ c_docstring c = None
     | type_function =>
         (exists m, c_methods c = [m] /\ m_name m = c_name c
                    /\ m_comment m = None)
         /\ c_base_class c = None /\ c_value c = None /\ c_properties c = []
     end.
Proof.
  intros H.
  destruct (parse_component_inv _ _ H)
    as [(a & t & v & ->)|[(a & t & v & ->)|[(g & G & ->)|[(g & G & _ & ->)|(g & G & ->)]]]];
    cbn.
  - repeat split; discriminate.
  - repeat split; try discriminate. exists "auto". auto.
  - destruct (re_constant_name _ G) as (a & u & N). unfold group. rewrite N.
    repeat split; try discriminate. eexists. split; [reflexivity|].
    apply strip_idempotent.
  - destruct (re_class_name _ G) as (a & u & N). unfold group. rewrite N.
    repeat split; discriminate.
  - destruct (re_function_name _ G) as (a & u & N). unfold group. rewrite N.
    repeat split; try discriminate. eexists. repeat split.
Qed.

Lemma component_shape_witness :
  exists c,
    _parse_component ["@cache"; "async def load(path: str) -> bytes:"] 1
    = Ok (Some c)
    /\ c_name c <> "".
Proof.
  eexists. split; [reflexivity|].
  exact (proj1 (@component_shape
                  ["@cache"; "async def load(path: str) -> bytes:"] 1 _ eq_refl)).
Defined.

(** ** Decorators *)

Lemma parse_signature_decorators (line : string) (comment : option string)
      (m : Method) :
  parse_signature line comment = Some m ->
  m_decorators m = [] /\ m_comment m = comment.
Proof.
  unfold parse_signature. case_if.
  - destruct (split1 ":" line) as [|p0 [|p1 [|? ?]]]; try discriminate.
    intros [= <-]. auto.
  - destruct (rmatch re_method line); [|discriminate]. intros [= <-]. auto.
Qed.

Lemma parse_method_decorators (line : string) (m : Method) :
  _parse_method line = Some m -> m_decorators m = [].
Proof.
  unfold _parse_method. destruct (split_comment line) as [l c].
  intros H. apply parse_signature_decorators in H as [H _]. exact H.
Qed.

Lemma line_at_in (lines : list string) (k : nat) :
  strip (line_at lines k) <> "" -> In (line_at lines k) lines.
Proof.
  intros H. destruct (le_lt_dec (List.length lines) k) as [G|G].
  - unfold line_at in H. rewrite nth_overflow in H by exact G.
    exfalso. apply H. reflexivity.
  - apply nth_In. exact G.
Qed.

Lemma decorator_line (lines : list string) (l : string) :
  In l lines -> startswith (strip l) "@" = true ->
  is_decorator_of lines (strip l).
Proof.
  intros I S. split; [exact S|]. split; [apply strip_idempotent|].
  apply in_map. exact I.
Qed.

Lemma class_members_decorators (lines rest : list string) :
  forall (i : nat) (decorators : list string) (methods : list Method),
  incl rest lines ->
  Forall (is_decorator_of lines) decorators ->
  Forall (fun m => Forall (is_decorator_of lines) (m_decorators m)) methods ->
  Forall (fun m => Forall (is_decorator_of lines) (m_decorators m))
         (fst (class_members rest i decorators methods)).
Proof.
  induction rest as [|l rest IH]; intros i ds ms I D M; [exact M|].
  assert (I' : incl rest lines) by (intros x X; apply I; right; exact X).
  cbn [class_members].
  destruct (startswith (strip l) "-" || startswith (strip l) "@"
            || is_empty (strip l)); [|exact M].
  destruct (startswith (strip l) "-").
  - destruct (_parse_method (strip (slice_from 1 (strip l)))) as [m|] eqn:P.
    + apply IH; [exact I'|constructor|].
      apply Forall_app. split; [exact M|].
      constructor; [|constructor]. cbn [m_decorators].
      rewrite (parse_method_decorators _ P). exact D.
    + apply IH; assumption.
  - destruct (startswith (strip l) "@") eqn:A.
    + apply IH; [exact I'| |exact M].
      apply Forall_app. split; [exact D|].
      constructor; [|constructor].
      apply decorator_line; [apply I; left; reflexivity|exact A].
    + apply IH; assumption.
Qed.

(** The backward scan takes the lines right above the function line as
    long as they start with '@', and keeps them in source order. *)
Lemma preceding_decorators_run (lines : list string) (n : nat) :
  forall acc : list string,
  exists k,
    k <= n
    /\ preceding_decorators lines n acc
       = map (fun j => strip (line_at lines j)) (seq k (n - k)) ++ acc
    /\ (forall j, k <= j -> j < n ->
                  startswith (strip (line_at lines j)) "@" = true)
    /\ (k = 0 \/ startswith (strip (line_at lines (k - 1))) "@" = false).
Proof.
  induction n as [|n IH]; intros acc.
  - exists 0. cbn. repeat split; auto. intros j _ H. lia.
  - cbn [preceding_decorators].
    destruct (startswith (strip (line_at lines n)) "@") eqn:A.
    + destruct (IH (strip (line_at lines n) :: acc)) as (k & K & E & R & B).
      exists k. split; [lia|]. split; [|split; [|exact B]].
      * rewrite E. replace (S n - k) with (S (n - k)) by lia.
        rewrite seq_S, map_app, <- app_assoc. cbn [map app].
        replace (k + (n - k)) with n by lia. reflexivity.
      * intros j J1 J2. destruct (Nat.eq_dec j n) as [->|]; [exact A|].
        apply R; lia.
    + exists (S n). split; [lia|]. rewrite Nat.sub_diag. cbn [seq map app].
      split; [reflexivity|]. split; [intros j J1 J2; lia|].
      right. replace (S n - 1) with n by lia. exact A.
Qed.

Lemma skipn_In (A : Type) (n : nat) (l : list A) (x : A) :
  In x (skipn n l) -> In x l.
Proof.
  intros H. rewrite <- (firstn_skipn n l). apply in_or_app. right. exact H.
Qed.

Lemma preceding_decorators_ok (lines : list string) (n : nat) :
  forall acc : list string,
  Forall (is_decorator_of lines) acc ->
  Forall (is_decorator_of lines) (preceding_decorators lines n acc).
Proof.
  induction n as [|n IH]; intros acc D; [exact D|].
  cbn [preceding_decorators].
  destruct (startswith (strip (line_at lines n)) "@") eqn:A; [|exact D].
  apply IH. constructor; [|exact D].
  apply decorator_line; [|exact A].
  apply line_at_in. intros E. rewrite E in A. discriminate.
Qed.

(** X12.  Every decorator recorded on a method of a component, be it a
    class member or the method of a function, is a line of the text,
    trimmed, that starts with '@'. *)
Theorem decorators_are_decorator_lines (lines : list string) (i : nat)
        (c : Component) :
  _parse_component lines i = Ok (Some c) ->
  Forall (fun m => Forall (is_decorator_of lines) (m_decorators m))
         (c_methods c).
Proof.
  intros H.
  destruct (parse_component_inv _ _ H)
    as [(a & t & v & ->)|[(a & t & v & ->)|[(g & G & ->)|[(g & G & _ & ->)|(g & G & ->)]]]];
    cbn [c_methods]; try constructor.
  - apply class_members_decorators; try constructor.
    intros x X. exact (@skipn_In _ _ _ _ X).
  - cbn [m_decorators]. apply preceding_decorators_ok. constructor.
  - constructor.
Qed.

Lemma decorators_are_decorator_lines_witness :
  exists c,
    _parse_component ["Repo:"; "- clear()"; "  @property "; ""; "- size: int"] 0
    = Ok (Some c)
    /\ Forall (fun m => Forall (is_decorator_of
                                  ["Repo:"; "- clear()"; "  @property "; "";
                                   "- size: int"])
                               (m_decorators m))
              (c_methods c).
Proof.
  eexists. split; [reflexivity|].
  exact (@decorators_are_decorator_lines
           ["Repo:"; "- clear()"; "  @property "; ""; "- size: int"] 0 _ eq_refl).
Defined.

(** X13.  A function component records as decorators exactly the lines
    right above the function line that start with '@', up to the first
    line that does not, in source order; and as docstring the line right
    below when it starts with three double quotes, with the double quotes
    at its ends removed (nothing otherwise). *)
Theorem function_decorators_and_docstring (lines : list string) (i : nat)
        (c : Component) :
  _parse_component lines i = Ok (Some c) ->
  c_type c = type_function ->
  c_docstring c = docstring_after lines i
  /\ exists m k,
       c_methods c = [m] /\ k <= i
       /\ m_decorators m
          = map (fun j => strip (line_at lines j)) (seq k (i - k))
       /\ (forall j, k <= j -> j < i ->
                     startswith (strip (line_at lines j)) "@" = true)
       /\ (k = 0 \/ startswith (strip (line_at lines (k - 1))) "@" = false).
Proof.
  intros H T.
  destruct (parse_component_inv _ _ H)
    as [(a & t & v & ->)|[(a & t & v & ->)|[(g & G & ->)|[(g & G & _ & ->)|(g & G & ->)]]]];
    try discriminate.
  split; [reflexivity|].
  destruct (preceding_decorators_run lines i []) as (k & K & E & R & B).
  eexists. exists k. split; [reflexivity|]. cbn [m_decorators].
  rewrite E, app_nil_r. auto.
Qed.

Lemma function_decorators_and_docstring_witness :
  exists c,
    _parse_component example_function_lines 3 = Ok (Some c)
    /\ c_docstring c = Some "Doc."
    /\ exists m k,
         c_methods c = [m] /\ k <= 3
         /\ m_decorators m
            = map (fun j => strip (line_at example_function_lines j))
                  (seq k (3 - k))
         /\ (forall j, k <= j -> j < 3 ->
                       startswith (strip (line_at example_function_lines j)) "@"
                       = true)
         /\ (k = 0
             \/ startswith (strip (line_at example_function_lines (k - 1))) "@"
                = false).
Proof.
  eexists. split; [reflexivity|].
  exact (@function_decorators_and_docstring example_function_lines 3 _
           eq_refl eq_refl).
Defined.

(** ** The body of a class *)

Lemma class_members_count (rest : list string) :
  forall (j : nat) (decorators : list string) (methods : list Method),
  j <= snd (class_members rest j decorators methods)
  /\ List.length (fst (class_members rest j decorators methods)) + j
     <= List.length methods + snd (class_members rest j decorators methods).
Proof.
  induction rest as [|l rest IH]; intros j ds ms; [cbn; lia|].
  cbn [class_members].
  destruct (startswith (strip l) "-" || startswith (strip l) "@"
            || is_empty (strip l)); [|cbn; lia].
  destruct (startswith (strip l) "-").
  - destruct (_parse_method (strip (slice_from 1 (strip l)))) as [m|].
    + match goal with
      | |- context [class_members rest (S j) ?d ?m'] =>
          destruct (IH (S j) d m') as [I1 I2]
      end.
      rewrite length_app in I2. cbn [List.length] in I2. lia.
    + destruct (IH (S j) ds ms) as [I1 I2]. lia.
  - destruct (startswith (strip l) "@").
    + destruct (IH (S j) (ds ++ [strip l]) ms) as [I1 I2]. lia.
    + destruct (IH (S j) ds ms) as [I1 I2]. lia.
Qed.

(** X14.  A class is recognised only when the line right after its
    header is a member line (starts with '-'): a header followed by a
    blank line, a decorator or the end of the text is no class.  The body
    then reaches at least that line, and the class has at most one method
    per line of its body. *)
Theorem class_needs_member_line (lines : list string) (i : nat) (c : Component) :
  _parse_component lines i = Ok (Some c) ->
  c_type c = type_class ->
  i + 1 < List.length lines
  /\ startswith (strip (line_at lines (i + 1))) "-" = true
  /\ i + 1 <= class_body_end lines i
  /\ List.length (c_methods c) <= class_body_end lines i - i.
Proof.
  intros H T.
  destruct (parse_component_inv _ _ H)
    as [(a & t & v & ->)|[(a & t & v & ->)|[(g & G & ->)|[(g & G & N & ->)|(g & G & ->)]]]];
    try discriminate.
  apply andb_true_iff in N as [N1 N2]. apply Nat.ltb_lt in N1.
  split; [exact N1|]. split; [exact N2|].
  cbn [c_methods]. unfold class_body_end.
  rewrite (skipn_line_at lines N1).
  set (l := line_at lines (i + 1)) in *. set (rest := skipn (i + 1 + 1) lines).
  destruct (class_members_step l rest (i + 1) [] [])
    as [[_ (ds & ms & E)]|[M _]]; [|rewrite N2 in M; discriminate].
  pose proof (class_members_count (l :: rest) (i + 1) [] []) as [_ C].
  rewrite E in *. destruct (class_members_count rest (S (i + 1)) ds ms) as [B _].
  cbn [List.length] in C. lia.
Qed.

Lemma class_needs_member_line_witness :
  exists c,
    _parse_component example_class_lines 2 = Ok (Some c)
    /\ List.length (c_methods c) <= class_body_end example_class_lines 2 - 2.
Proof.
  eexists. split; [reflexivity|].
  exact (proj2 (proj2 (proj2 (@class_needs_member_line example_class_lines 2 _
                                eq_refl eq_refl)))).
Defined.

(** ** Running a pattern on a text of known shape *)

Section RunFacts.

Variable A : Type.
Implicit Types (k : cont A) (s : string) (g : groups).

Lemma run_Seq r1 r2 k s g : run (Seq r1 r2) k s g = run r1 (run r2 k) s g.
Proof. reflexivity. Qed.

Lemma run_Grp n r k s g :
  run (Grp n r) k s g
  = run r (fun s' g' =>
             k s' (set_group n (slice_to (String.length s - String.length s') s) g'))
        s g.
Proof. reflexivity. Qed.

Lemma run_Lit l k s g : run (Lit l) k (l ++ s) g = k s g.
Proof.
  cbn [run].
  assert (E : drop_prefix l (l ++ s) = Some s) by (apply drop_prefix_spec; reflexivity).
  rewrite E. reflexivity.
Qed.

Lemma run_Chr p k a s g : p a = true -> run (Chr p) k (String a s) g = k s g.
Proof. intros H. cbn [run]. rewrite H. reflexivity. Qed.

Lemma run_Star greedy p k s g :
  run (Star greedy p) k s g = star greedy p k s g.
Proof. reflexivity. Qed.

Lemma run_Eol_end k g : run Eol k "" g = k "" g.
Proof. reflexivity. Qed.

Lemma run_Opt_some r k s g x :
  run r k s g = Some x -> run (Opt r) k s g = Some x.
Proof. intros H. cbn [run]. rewrite H. reflexivity. Qed.

Lemma run_Opt_none r k s g :
  run r k s g = None -> run (Opt r) k s g = k s g.
Proof. intros H. cbn [run]. rewrite H. reflexivity. Qed.

(** A greedy star followed by a continuation that succeeds right where
    the class ends. *)
Lemma star_greedy_max p k u s g x :
  forall_str p u = true -> stops p s = true -> k s g = Some x ->
  star true p k (u ++ s) g = Some x.
Proof.
  intros Hu Hs Hk. induction u as [|a u IH]; cbn [String.append].
  - destruct s as [|b s]; cbn [star]; [exact Hk|].
    cbn [stops] in Hs. apply negb_true_iff in Hs. rewrite Hs. exact Hk.
  - cbn [forall_str] in Hu. apply andb_true_iff in Hu as [Pa Hu].
    cbn [star]. rewrite Pa, (IH Hu). reflexivity.
Qed.

(** A lazy star takes the shortest text after which the continuation
    succeeds. *)
Lemma star_lazy_first p k u s g x :
  forall_str p u = true ->
  (forall u1 a u2, u = (u1 ++ String a u2)%string ->
                   k (String a u2 ++ s)%string g = None) ->
  k s g = Some x ->
  star false p k (u ++ s) g = Some x.
Proof.
  intros Hu Hf Hk. induction u as [|a u IH]; cbn [String.append].
  - destruct s; cbn [star]; rewrite Hk; reflexivity.
  - cbn [forall_str] in Hu. apply andb_true_iff in Hu as [Pa Hu].
    pose proof (Hf "" a u eq_refl) as F. cbn [String.append] in F.
    cbn [star]. rewrite F, Pa.
    apply IH; [exact Hu|].
    intros u1 b u2 E. apply (Hf (String a u1) b u2). rewrite E. reflexivity.
Qed.

(** A pattern none of whose matches the continuation accepts fails. *)
Lemma run_fails r k s g :
  (forall s' g', Matches r s g s' g' -> k s' g' = None) ->
  run r k s g = None.
Proof.
  intros H. destruct (run r k s g) as [x|] eqn:E; [|reflexivity].
  apply run_sound in E as (s' & g' & M & K). rewrite (H _ _ M) in K. discriminate.
Qed.

End RunFacts.

Lemma last_char_app (x y : string) :
  last_char (x ++ y) = match last_char y with
                       | Some c => Some c
                       | None => last_char x
                       end.
Proof.
  induction x as [|a x IH]; cbn [String.append last_char].
  - destruct (last_char y); reflexivity.
  - rewrite IH. destruct (last_char y); reflexivity.
Qed.

Lemma last_char_none (s : string) : last_char s = None -> s = "".
Proof.
  destruct s as [|a s]; [reflexivity|]. cbn. destruct (last_char s); discriminate.
Qed.

Lemma last_char_forall (p : ascii -> bool) (s : string) (c : ascii) :
  forall_str p s = true -> last_char s = Some c -> p c = true.
Proof.
  induction s as [|a s IH]; cbn [forall_str last_char]; [discriminate|].
  intros H. apply andb_true_iff in H as [Pa H].
  destruct (last_char s) as [d|] eqn:L.
  - intros [= <-]. apply IH; [exact H|reflexivity].
  - intros [= <-]. exact Pa.
Qed.

Lemma space_not_word (a : ascii) : space a = true -> word a = false.
Proof.
  destruct a as [[] [] [] [] [] [] [] []]; vm_compute;
    intros H; try reflexivity; discriminate H.
Qed.

Lemma word_not_space (a : ascii) : word a = true -> space a = false.
Proof.
  intros W. destruct (space a) eqn:S; [|reflexivity].
  apply space_not_word in S. congruence.
Qed.

(** A text that starts with characters of a class followed by [c], a
    character outside the class, read as another text followed by [a]:
    either the two readings agree, or [a] is one of the characters of the
    class. *)
Lemma class_split (p : ascii -> bool) (c : ascii) :
  p c = false ->
  forall (n x : string) (a : ascii) (r r' : string),
    forall_str p n = true -> contains c x = false ->
    (n ++ String c r)%string = (x ++ String a r')%string ->
    (x = n /\ a = c /\ r' = r) \/ p a = true.
Proof.
  intros N. induction n as [|m n IH]; intros [|b x] a r r' Hn Hx E;
    cbn [String.append] in E.
  - injection E as -> ->. auto.
  - injection E as -> _. rewrite contains_cons, Ascii.eqb_refl in Hx. discriminate.
  - injection E as -> _. cbn [forall_str] in Hn.
    apply andb_true_iff in Hn as [Hm _]. auto.
  - injection E as -> E. cbn [forall_str] in Hn.
    apply andb_true_iff in Hn as [_ Hn]. rewrite contains_cons in Hx.
    apply orb_false_iff in Hx as [_ Hx].
    destruct (IH x a r r' Hn Hx E) as [(-> & -> & ->)|P]; auto.
Qed.

Lemma rstrip_prefix (p : ascii -> bool) (s : string) :
  exists w, s = (rstrip_with p s ++ w)%string.
Proof.
  induction s as [|a s [w IH]]; [exists ""; reflexivity|].
  cbn [rstrip_with]. destruct (rstrip_with p s) as [|b r] eqn:R.
  - destruct (p a).
    + exists (String a s). reflexivity.
    + exists w. cbn. rewrite IH at 1. reflexivity.
  - exists w. cbn [String.append]. rewrite IH at 1. reflexivity.
Qed.

Lemma startswith_app_l (x w q : string) :
  startswith x q = true -> startswith (x ++ w) q = true.
Proof.
  revert x. induction q as [|b q IH]; intros x H; [reflexivity|].
  destruct x as [|a x]; [discriminate|]. cbn [startswith String.append] in *.
  apply andb_true_iff in H as [H1 H2]. rewrite H1, (IH _ H2). reflexivity.
Qed.

Lemma startswith_strip (s q : string) :
  startswith (strip s) q = true ->
  (forall a t, s = String a t -> isspace a = false) ->
  startswith s q = true.
Proof.
  intros H F. unfold strip in H. rewrite (@lstrip_fixed _ _ F) in H.
  destruct (rstrip_prefix isspace s) as [w E]. rewrite E.
  apply startswith_app_l. exact H.
Qed.

Lemma rstrip_app_keep (p : ascii -> bool) (x y : string) :
  rstrip_with p y <> "" ->
  rstrip_with p (x ++ y) = (x ++ rstrip_with p y)%string.
Proof.
  intros H. induction x as [|a x IH]; [reflexivity|].
  cbn [String.append rstrip_with]. rewrite IH.
  destruct (x ++ rstrip_with p y)%string eqn:E; [|reflexivity].
  destruct x; [cbn in E; congruence|discriminate].
Qed.

Lemma slice_to_length (s : string) : slice_to (String.length s) s = s.
Proof. induction s; cbn; congruence. Qed.

Section SignatureCore.

Variable A : Type.

(** The part the method pattern and the function pattern share: the name,
    and the parameters up to the first ')'. *)
Lemma run_signature_core (rest : re) (k : cont A) (n0 : ascii)
      (n' params tail : string) (g : groups) (x : A) :
  word n0 = true -> forall_str word n' = true ->
  forall_str dot params = true -> contains ")" params = false ->
  run rest k tail (set_group 2 params (set_group 1 (String n0 n') g)) = Some x ->
  run (Grp 1 (Plus true word) +++ Lit "(" +++ Grp 2 (Star false dot) +++
       Lit ")" +++ rest)%re k
      (String n0 n' ++ "(" ++ params ++ ")" ++ tail) g = Some x.
Proof.
  intros W0 W D P H.
  change (String n0 n' ++ "(" ++ params ++ ")" ++ tail)%string
    with (String n0 (n' ++ String "(" (params ++ String ")" tail))).
  rewrite run_Seq, run_Grp. unfold Plus. rewrite run_Seq, run_Chr by exact W0.
  rewrite run_Star. apply star_greedy_max; [exact W|reflexivity|].
  cbn beta.
  change (String n0 (n' ++ String "(" (params ++ String ")" tail)))
    with (String n0 n' ++ String "(" (params ++ String ")" tail))%string.
  rewrite slice_to_append.
  rewrite run_Seq.
  change (String "(" (params ++ String ")" tail))
    with ("(" ++ (params ++ String ")" tail))%string.
  rewrite run_Lit, run_Seq, run_Grp, run_Star.
  apply star_lazy_first; [exact D| |].
  - intros u1 a u2 E. rewrite run_Seq. cbn [String.append].
    unfold run at 1. cbn [drop_prefix].
    rewrite E, contains_app, contains_cons in P.
    apply orb_false_iff in P as [_ P]. apply orb_false_iff in P as [P _].
    rewrite Ascii.eqb_sym in P. rewrite P. reflexivity.
  - rewrite slice_to_append, run_Seq.
    change (String ")" tail) with (")" ++ tail)%string.
    rewrite run_Lit. exact H.
Qed.

End SignatureCore.

(** ** Member signatures *)

Lemma startswith_inv (s q : string) :
  startswith s q = true -> exists t, s = (q ++ t)%string.
Proof.
  revert s. induction q as [|b q IH]; intros s H.
  - exists s. reflexivity.
  - apply startswith_cons in H as (t & -> & H). destruct (IH _ H) as [t' ->].
    exists t'. reflexivity.
Qed.

Lemma not_contains_dot (s : string) :
  contains newline s = false -> forall_str dot s = true.
Proof. exact (not_contains_forall newline s). Qed.

(** A name followed by '(' does not start with "async" and whitespace. *)
Lemma name_not_async (n0 : ascii) (n' rest : string) (a : ascii) (t : string) :
  word n0 = true -> forall_str word n' = true -> word a = false ->
  a <> "("%char ->
  (String n0 n' ++ String "(" rest)%string <> ("async" ++ String a t)%string.
Proof.
  intros W0 W Na Np E.
  assert (Hn : forall_str word (String n0 n') = true)
    by (cbn [forall_str]; rewrite W0, W; reflexivity).
  destruct (@class_split word "(" eq_refl (String n0 n') "async" a rest t
              Hn eq_refl E) as [(_ & -> & _)|P]; congruence.
Qed.

Section MethodTail.

Let kf : cont groups := fun _ g => Some g.

(** The end of the method pattern on a line without return type. *)
Lemma method_tail_plain (g : groups) :
  run (Opt (Star true space +++ Lit "->" +++ Star true space +++
            Grp 3 (Plus true dot)) +++ Eol)%re kf "" g = Some g.
Proof. reflexivity. Qed.

(** The end of the method pattern on a return annotation. *)
Lemma method_tail_arrow (w1 w2 R : string) (g : groups) :
  forall_str space w1 = true -> forall_str space w2 = true ->
  is_return_text R = true ->
  run (Opt (Star true space +++ Lit "->" +++ Star true space +++
            Grp 3 (Plus true dot)) +++ Eol)%re kf
      (w1 ++ "->" ++ w2 ++ R) g = Some (set_group 3 R g).
Proof.
  intros W1 W2 HR. unfold is_return_text in HR.
  apply andb_true_iff in HR as [HR _]. apply andb_true_iff in HR as [HR Nl].
  apply andb_true_iff in HR as [Ne St].
  destruct R as [|r0 R']; [discriminate|].
  apply negb_true_iff in Nl. apply not_contains_dot in Nl.
  cbn [forall_str] in Nl. apply andb_true_iff in Nl as [D0 D].
  rewrite run_Seq. apply run_Opt_some.
  rewrite run_Seq, run_Star. apply star_greedy_max; [exact W1|reflexivity|].
  rewrite run_Seq, run_Lit, run_Seq, run_Star.
  apply star_greedy_max; [exact W2|exact St|].
  rewrite run_Grp. unfold Plus. rewrite run_Seq, run_Chr by exact D0.
  rewrite run_Star, <- (append_nil_r R') at 1.
  apply star_greedy_max; [exact D|reflexivity|].
  cbn beta. rewrite run_Eol_end. unfold kf. cbn [String.length].
  rewrite Nat.sub_0_r.
  change (S (String.length R')) with (String.length (String r0 R')).
  rewrite slice_to_length. reflexivity.
Qed.

End MethodTail.

Lemma word_name_inv (name : string) :
  is_word_name name = true ->
  exists n0 n', name = String n0 n' /\ word n0 = true
                /\ forall_str word n' = true.
Proof.
  unfold is_word_name. destruct name as [|n0 n']; [discriminate|].
  cbn. intros H. apply andb_true_iff in H. eauto.
Qed.

Lemma params_inv (params : string) :
  is_params params = true ->
  contains ")" params = false /\ forall_str dot params = true
  /\ contains "#" params = false.
Proof.
  unfold is_params. intros H.
  apply andb_true_iff in H as [H H3]. apply andb_true_iff in H as [H1 H2].
  apply negb_true_iff in H1, H2, H3.
  auto using not_contains_dot.
Qed.

(** The method pattern on a signature line, the end of the pattern being
    known to turn the groups [g] into [fin g] on [tail]. *)
Lemma re_method_signature (is_async : bool) (w0 name params tail : string)
      (fin : groups -> groups) :
  forall_str space w0 = true -> is_word_name name = true ->
  is_params params = true ->
  (forall g,
      run (Opt (Star true space +++ Lit "->" +++ Star true space +++
                Grp 3 (Plus true dot)) +++ Eol)%re (fun _ g' => Some g')
          tail g = Some (fin g)) ->
  rmatch re_method
         (async_prefix is_async w0 ++ name ++ "(" ++ params ++ ")" ++ tail)
  = Some (fin (set_group 2 params (set_group 1 name no_groups))).
Proof.
  intros W0 Hn Hp Ht.
  destruct (word_name_inv _ Hn) as (n0 & n' & -> & Wn0 & Wn).
  destruct (params_inv _ Hp) as (P1 & P2 & _).
  unfold rmatch, re_method. rewrite run_Seq.
  destruct is_async; cbn [async_prefix].
  - apply run_Opt_some.
    change ("async " ++ w0)%string with ("async" ++ String " " w0)%string.
    rewrite append_assoc, run_Seq, run_Lit. unfold Plus.
    cbn [String.append]. rewrite run_Seq, run_Chr by reflexivity.
    rewrite run_Star. apply star_greedy_max; [exact W0| |].
    + cbn [String.append stops]. rewrite (word_not_space _ Wn0). reflexivity.
    + apply run_signature_core; auto.
  - cbn [String.append]. rewrite run_Opt_none.
    + apply (@run_signature_core groups); auto.
    + apply run_fails. intros s' g' M. exfalso.
      apply Matches_Seq_inv in M as (s1 & g1 & M1 & M2).
      apply Matches_Lit_inv in M1 as (E & ->).
      apply Matches_Plus_inv in M2 as (a & u & -> & Sa & _ & _).
      change (String n0 (n' ++ "(" ++ params ++ ")" ++ tail))%string
        with (String n0 n' ++ String "(" (params ++ ")" ++ tail))%string in E.
      revert E. apply name_not_async; auto using space_not_word.
      intros ->. discriminate.
Qed.

Lemma async_prefix_startswith (is_async : bool) (w0 : string) (n0 : ascii)
      (n' rest : string) :
  forall_str space w0 = true -> word n0 = true -> forall_str word n' = true ->
  startswith (strip (async_prefix is_async w0 ++ String n0 n' ++ String "(" rest))
             "async " = is_async.
Proof.
  intros W0 Wn0 Wn. pose proof (word_not_space _ Wn0) as S0.
  destruct is_async; cbn [async_prefix].
  - unfold strip. rewrite lstrip_fixed.
    + change ("async " ++ w0)%string with ("async" ++ String " " w0)%string.
      rewrite append_assoc.
      change ("async" ++ String " " w0 ++ String n0 n' ++ String "(" rest)%string
        with ("async " ++ (w0 ++ String n0 n' ++ String "(" rest))%string.
      rewrite rstrip_app_keep; [reflexivity|].
      intros E. apply rstrip_with_empty in E.
      rewrite forall_str_app in E. cbn [String.append forall_str] in E.
      unfold space in S0. rewrite S0, andb_false_r in E. discriminate.
    + intros a t E. injection E as <- _. reflexivity.
  - cbn [String.append].
    destruct (startswith (strip (String n0 (n' ++ String "(" rest))) "async ")
      eqn:H; [|reflexivity].
    apply startswith_strip in H.
    + apply startswith_inv in H as [t H]. exfalso. revert H.
      change (String n0 (n' ++ String "(" rest))
        with (String n0 n' ++ String "(" rest)%string.
      change ("async " ++ t)%string with ("async" ++ String " " t)%string.
      apply name_not_async; auto. discriminate.
    + intros a t E. injection E as <- _. exact S0.
Qed.

Lemma word_no_hash (s : string) :
  forall_str word s = true -> contains "#" s = false.
Proof. intros H. apply (forall_not_contains word); [exact H|reflexivity]. Qed.

Lemma space_no_hash (s : string) :
  forall_str space s = true -> contains "#" s = false.
Proof. intros H. apply (forall_not_contains space); [exact H|reflexivity]. Qed.

Lemma async_prefix_no_hash (is_async : bool) (w0 : string) :
  forall_str space w0 = true -> contains "#" (async_prefix is_async w0) = false.
Proof.
  intros H. destruct is_async; [|reflexivity]. cbn [async_prefix].
  rewrite contains_app, (space_no_hash _ H). reflexivity.
Qed.

(** [_parse_method] on a signature line without comment, the end of the
    method pattern being known to turn [g] into [fin g] on [tail]. *)
Lemma parse_method_signature (is_async : bool) (w0 name params tail : string)
      (fin : groups -> groups) :
  forall_str space w0 = true -> is_word_name name = true ->
  is_params params = true -> contains "#" tail = false ->
  (forall g,
      run (Opt (Star true space +++ Lit "->" +++ Star true space +++
                Grp 3 (Plus true dot)) +++ Eol)%re (fun _ g' => Some g')
          tail g = Some (fin g)) ->
  fin (set_group 2 params (set_group 1 name no_groups)) 1 = Some name ->
  fin (set_group 2 params (set_group 1 name no_groups)) 2 = Some params ->
  _parse_method
    (async_prefix is_async w0 ++ name ++ "(" ++ params ++ ")" ++ tail)
  = Some (mkMethod name params
            (strip_if_truthy
               (fin (set_group 2 params (set_group 1 name no_groups)) 3))
            None [] is_async).
Proof.
  intros W0 Hn Hp Ht Hf G1 G2.
  pose proof (@re_method_signature is_async w0 name params tail fin
                W0 Hn Hp Hf) as M.
  destruct (word_name_inv _ Hn) as (n0 & n' & -> & Wn0 & Wn).
  destruct (params_inv _ Hp) as (_ & _ & P3).
  set (line := (async_prefix is_async w0 ++ String n0 n' ++ "(" ++ params
                ++ ")" ++ tail)%string) in *.
  assert (C1 : contains "#" line = false).
  { unfold line. rewrite !contains_app, (@async_prefix_no_hash is_async w0 W0).
    assert (Hw : contains "#" (String n0 n') = false)
      by (apply word_no_hash; cbn [forall_str]; rewrite Wn0, Wn; reflexivity).
    rewrite Hw, P3, Ht. reflexivity. }
  assert (C2 : contains "(" line = true).
  { unfold line. rewrite !contains_app. cbn [contains existsb_str Ascii.eqb].
    rewrite !orb_true_r. reflexivity. }
  assert (C3 : startswith (strip line) "async " = is_async).
  { unfold line. apply async_prefix_startswith; assumption. }
  unfold _parse_method, split_comment. rewrite C1. unfold parse_signature.
  rewrite C2, andb_false_r, M, C3. unfold group. rewrite G1, G2. reflexivity.
Qed.

(** X15.  A member line made of a name (word characters), '(', a
    parameter text without ')' and ')' is a method with that name and
    that parameter text, taken as it stands; it has no return type, or,
    when "->" and a return text follow, that text trimmed.  It is marked
    asynchronous exactly when "async" and a blank stand before the name. *)
Theorem method_signature (is_async : bool) (w0 name params : string) :
  forall_str space w0 = true -> is_word_name name = true ->
  is_params params = true ->
  _parse_method (async_prefix is_async w0 ++ name ++ "(" ++ params ++ ")")
  = Some (mkMethod name params None None [] is_async)
  /\ forall w1 w2 R : string,
      forall_str space w1 = true -> forall_str space w2 = true ->
      is_return_text R = true ->
      _parse_method (async_prefix is_async w0 ++ name ++ "(" ++ params ++ ")"
                     ++ w1 ++ "->" ++ w2 ++ R)
      = Some (mkMethod name params (Some (strip R)) None [] is_async).
Proof.
  intros W0 Hn Hp. split.
  - rewrite <- (append_nil_r ")").
    exact (@parse_method_signature is_async w0 name params "" (fun g => g)
             W0 Hn Hp eq_refl method_tail_plain eq_refl eq_refl).
  - intros w1 w2 R W1 W2 HR.
    assert (Ht : contains "#" (w1 ++ "->" ++ w2 ++ R) = false).
    { unfold is_return_text in HR. apply andb_true_iff in HR as [_ HR].
      apply negb_true_iff in HR.
      rewrite !contains_app, (space_no_hash _ W1), (space_no_hash _ W2), HR.
      reflexivity. }
    rewrite (@parse_method_signature is_async w0 name params
               (w1 ++ "->" ++ w2 ++ R) (set_group 3 R) W0 Hn Hp Ht
               (fun g => @method_tail_arrow w1 w2 R g W1 W2 HR) eq_refl eq_refl).
    unfold set_group at 1. cbn [Nat.eqb strip_if_truthy].
    unfold is_return_text in HR. destruct R; [discriminate|reflexivity].
Qed.

Lemma method_signature_witness :
  _parse_method "async  fetch(url: str, *, retries: int)   ->  Dict[str, int] "
  = Some (mkMethod "fetch" "url: str, *, retries: int"
                   (Some "Dict[str, int]") None [] true).
Proof.
  exact (proj2 (@method_signature true " " "fetch" "url: str, *, retries: int"
                  eq_refl eq_refl eq_refl)
               "   " "  " "Dict[str, int] " eq_refl eq_refl eq_refl).
Defined.

(** ** Function lines *)

(** Two texts with the same start, one a run of a class and the other a
    run of the class followed by a character outside it: the first run is
    the shorter. *)
Lemma class_prefix_cases (p : ascii -> bool) (c : ascii) :
  p c = false ->
  forall x y s r : string,
    forall_str p x = true -> forall_str p y = true ->
    (x ++ s)%string = (y ++ String c r)%string ->
    exists z, y = (x ++ z)%string /\ s = (z ++ String c r)%string.
Proof.
  intros N. induction x as [|a x IH]; intros y s r X Y E.
  - exists y. auto.
  - destruct y as [|b y]; cbn [String.append forall_str] in *.
    + injection E as -> _. rewrite N in X. discriminate.
    + injection E as -> E. apply andb_true_iff in X as [_ X].
      apply andb_true_iff in Y as [_ Y].
      destruct (IH _ _ _ X Y E) as (z & -> & ->). exists z. auto.
Qed.

(** The class pattern fails on a text that goes on after a word and
    whitespace: a line such as "def f(x):" is no class header. *)
Lemma re_class_fails_after_blank (u : string) (c0 : ascii) (rest : string) :
  forall_str word u = true -> space c0 = true ->
  forall_str space rest = false ->
  rmatch re_class (u ++ String c0 rest) = None.
Proof.
  intros Wu S0 R. unfold rmatch. apply run_fails. intros s' g' M. exfalso.
  unfold re_class in M.
  apply Matches_Seq_inv in M as (s1 & g1 & M1 & M).
  apply Matches_Grp_inv in M1 as (g0 & M1 & _).
  apply Matches_Plus_inv in M1 as (a & W & E & Wa & WW & _).
  assert (HW : forall_str word (String a W) = true)
    by (cbn [forall_str]; rewrite Wa, WW; reflexivity).
  symmetry in E.
  destruct (@class_prefix_cases word c0 (space_not_word _ S0) _ _ _ _ HW Wu E)
    as (z & Ez & ->).
  assert (Wz : forall_str word z = true).
  { rewrite Ez, forall_str_app in Wu. apply andb_true_iff in Wu as [_ Wu].
    exact Wu. }
  assert (First : forall b t, (z ++ String c0 rest)%string = String b t ->
                              word b = true \/ space b = true).
  { intros b t Eb. destruct z as [|z0 z]; cbn [String.append] in Eb;
      injection Eb as <- _; [right; exact S0|left].
    cbn [forall_str] in Wz. apply andb_true_iff in Wz as [Wz _]. exact Wz. }
  apply Matches_Seq_inv in M as (s2 & g2 & M2 & M).
  apply Matches_Opt_inv in M2 as [M2|[-> ->]].
  { apply Matches_Seq_inv in M2 as (s3 & g3 & M3 & _).
    apply Matches_Lit_inv in M3 as (E3 & _). cbn [String.append] in E3.
    destruct (First _ _ E3); discriminate. }
  apply Matches_Seq_inv in M as (s3 & g3 & M3 & M).
  apply Matches_Opt_inv in M3 as [M3|[-> ->]].
  { apply Matches_Lit_inv in M3 as (E3 & _). cbn [String.append] in E3.
    destruct (First _ _ E3); discriminate. }
  apply Matches_Seq_inv in M as (s4 & g4 & M4 & M).
  apply Matches_Star_inv in M4 as (ws & E4 & Ws & _).
  apply Matches_Eol_inv in M as (_ & _ & Ee).
  assert (All : forall_str space (z ++ String c0 rest) = true).
  { rewrite E4, forall_str_app, Ws. destruct Ee as [->| ->]; reflexivity. }
  rewrite forall_str_app in All. cbn [forall_str] in All.
  rewrite R, !andb_false_r in All. discriminate.
Qed.

Section FunctionTail.

Let kf : cont groups := fun _ g => Some g.

(** What may end a function line after the return type: ':' and
    whitespace.  The pattern for it fails on a text whose last character
    is neither, and on ':' with more in front of it. *)
Lemma colon_tail_fails (x : string) (colon : bool) (g : groups) :
  x <> "" ->
  (colon = false ->
   forall c, last_char x = Some c -> c <> ":"%char /\ space c = false) ->
  run (Opt (Lit ":") +++ Star true space +++ Eol)%re kf
      (x ++ colon_text colon) g = None.
Proof.
  intros Nx Hc. apply run_fails. intros s' g' M. exfalso.
  apply Matches_Seq_inv in M as (s1 & g1 & M1 & M).
  apply Matches_Seq_inv in M as (s2 & g2 & M2 & M).
  apply Matches_Star_inv in M2 as (ws & -> & Ws & _).
  apply Matches_Eol_inv in M as (_ & _ & Ee).
  assert (L : exists pre, (x ++ colon_text colon)%string = (pre ++ ws ++ s2)%string
                          /\ (pre = "" \/ pre = ":")).
  { apply Matches_Opt_inv in M1 as [M1|[E _]].
    - apply Matches_Lit_inv in M1 as (E & _). exists ":". auto.
    - exists "". rewrite <- E. auto. }
  destruct L as (pre & E & Hpre).
  apply (f_equal last_char) in E. rewrite !last_char_app in E.
  destruct Ee as [->| ->]; cbn [last_char] in E.
  - destruct (last_char ws) as [d|] eqn:Lw.
    + pose proof (last_char_forall _ _ Ws Lw) as Sd.
      destruct colon; cbn [colon_text last_char] in E.
      * injection E as <-. discriminate.
      * destruct (last_char x) as [c|] eqn:Lx;
          [|apply last_char_none in Lx; contradiction].
        injection E as ->. destruct (Hc eq_refl _ eq_refl) as [_ F]. congruence.
    + destruct Hpre as [->| ->]; cbn [last_char] in E.
      * destruct colon; cbn [colon_text last_char] in E; [discriminate|].
        apply last_char_none in E. contradiction.
      * destruct colon; cbn [colon_text last_char] in E.
        -- apply last_char_none in Lw. subst ws.
           clear E. revert M1. intros M1.
           apply Matches_Opt_inv in M1 as [M1|[E1 _]].
           ++ apply Matches_Lit_inv in M1 as (E1 & _).
              cbn [String.append] in E1.
              destruct x as [|a [|b x]]; cbn [String.append] in E1;
                try contradiction; discriminate.
           ++ cbn [String.append] in E1.
              destruct x; cbn in E1; [contradiction|discriminate].
        -- destruct (last_char x) as [c|] eqn:Lx;
             [|apply last_char_none in Lx; contradiction].
           injection E as ->. destruct (Hc eq_refl _ eq_refl) as [F _].
           congruence.
  - destruct colon; cbn [colon_text last_char] in E.
    + injection E as E. discriminate.
    + destruct (last_char x) as [c|] eqn:Lx;
        [|apply last_char_none in Lx; contradiction].
      injection E as ->. destruct (Hc eq_refl _ eq_refl) as [_ F]. discriminate.
Qed.

(** The end of the function pattern on a line without return type. *)
Lemma function_tail_plain (colon : bool) (g : groups) :
  run (Opt (Star true space +++ Lit "->" +++ Star true space +++
            Grp 3 (Plus false dot)) +++
       Opt (Lit ":") +++ Star true space +++ Eol)%re kf
      (colon_text colon) g = Some g.
Proof. destruct colon; reflexivity. Qed.

End FunctionTail.

(** The end of the function pattern on a return annotation: the lazy
    group stops at the ':' that ends the line, or at the end. *)
Lemma function_tail_arrow (colon : bool) (w1 w2 R : string) (g : groups) :
  forall_str space w1 = true -> forall_str space w2 = true ->
  is_return_text R = true ->
  (colon = false ->
   forall c, last_char R = Some c -> c <> ":"%char /\ space c = false) ->
  run (Opt (Star true space +++ Lit "->" +++ Star true space +++
            Grp 3 (Plus false dot)) +++
       Opt (Lit ":") +++ Star true space +++ Eol)%re (fun _ g' => Some g')
      (w1 ++ "->" ++ w2 ++ R ++ colon_text colon) g
  = Some (set_group 3 R g).
Proof.
  intros W1 W2 HR HL. unfold is_return_text in HR.
  apply andb_true_iff in HR as [HR _]. apply andb_true_iff in HR as [HR Nl].
  apply andb_true_iff in HR as [Ne St].
  destruct R as [|r0 R']; [discriminate|].
  apply negb_true_iff in Nl. apply not_contains_dot in Nl.
  cbn [forall_str] in Nl. apply andb_true_iff in Nl as [D0 D].
  rewrite run_Seq. apply run_Opt_some.
  rewrite run_Seq, run_Star. apply star_greedy_max; [exact W1|reflexivity|].
  rewrite run_Seq, run_Lit, run_Seq, run_Star.
  apply star_greedy_max; [exact W2|exact St|].
  rewrite run_Grp. unfold Plus. rewrite run_Seq. cbn [String.append].
  rewrite run_Chr by exact D0. rewrite run_Star.
  apply star_lazy_first; [exact D| |].
  - intros u1 a u2 E. apply colon_tail_fails; [discriminate|].
    intros Hc c L. apply (HL Hc). cbn [last_char].
    rewrite E, last_char_app, L. reflexivity.
  - change (String r0 (R' ++ colon_text colon))
      with (String r0 R' ++ colon_text colon)%string.
    rewrite slice_to_append. destruct colon; reflexivity.
Qed.

(** The function pattern on a function line, the end of the pattern being
    known to turn the groups [g] into [fin g] on [tail]. *)
Lemma re_function_signature (is_async : bool) (w0 w name params tail : string)
      (fin : groups -> groups) :
  forall_str space w0 = true -> is_blank w = true ->
  is_word_name name = true -> is_params params = true ->
  (forall g,
      run (Opt (Star true space +++ Lit "->" +++ Star true space +++
                Grp 3 (Plus false dot)) +++
           Opt (Lit ":") +++ Star true space +++ Eol)%re (fun _ g' => Some g')
          tail g = Some (fin g)) ->
  rmatch re_function (function_line is_async w0 w name params tail)
  = Some (fin (set_group 2 params (set_group 1 name no_groups))).
Proof.
  intros W0 Hw Hn Hp Ht.
  destruct (word_name_inv _ Hn) as (n0 & n' & -> & Wn0 & Wn).
  destruct (params_inv _ Hp) as (P1 & P2 & _).
  unfold is_blank in Hw. destruct w as [|c0 w']; [discriminate|].
  cbn [is_empty negb andb forall_str] in Hw.
  apply andb_true_iff in Hw as [Sc0 Sw].
  assert (Core : forall g,
    run (Lit "def" +++ Plus true space +++
         Grp 1 (Plus true word) +++ Lit "(" +++ Grp 2 (Star false dot) +++
         Lit ")" +++
         Opt (Star true space +++ Lit "->" +++ Star true space +++
              Grp 3 (Plus false dot)) +++
         Opt (Lit ":") +++ Star true space +++ Eol)%re (fun _ g' => Some g')
        ("def" ++ String c0 w' ++ String n0 n' ++ "(" ++ params ++ ")" ++ tail) g
    = Some (fin (set_group 2 params (set_group 1 (String n0 n') g)))).
  { intros g. rewrite run_Seq, run_Lit, run_Seq. unfold Plus at 1.
    cbn [String.append]. rewrite run_Seq, run_Chr by exact Sc0.
    rewrite run_Star. apply star_greedy_max; [exact Sw| |].
    - cbn [stops]. rewrite (word_not_space _ Wn0). reflexivity.
    - apply (@run_signature_core groups); auto. }
  unfold rmatch, re_function, function_line. rewrite run_Seq.
  destruct is_async; cbn [async_prefix].
  - apply run_Opt_some.
    change ("async " ++ w0)%string with ("async" ++ String " " w0)%string.
    rewrite append_assoc, run_Seq, run_Lit. unfold Plus at 1.
    cbn [String.append]. rewrite run_Seq, run_Chr by reflexivity.
    rewrite run_Star. apply star_greedy_max; [exact W0|reflexivity|].
    apply Core.
  - rewrite run_Opt_none; [apply Core|reflexivity].
Qed.

Lemma function_line_no_equals (is_async : bool)
      (w0 w name params tail : string) :
  forall_str space w0 = true -> is_blank w = true ->
  is_word_name name = true ->
  contains "=" params = false -> contains "=" tail = false ->
  contains "=" (function_line is_async w0 w name params tail) = false.
Proof.
  intros W0 Hw Hn Hp Ht. unfold is_blank in Hw. unfold is_word_name in Hn.
  apply andb_true_iff in Hw as [_ Hw]. apply andb_true_iff in Hn as [_ Hn].
  unfold function_line. rewrite !contains_app, Hp, Ht.
  rewrite (@forall_not_contains space "=" w Hw eq_refl).
  rewrite (@forall_not_contains word "=" name Hn eq_refl).
  destruct is_async; cbn [async_prefix]; [|reflexivity].
  rewrite contains_app, (@forall_not_contains space "=" w0 W0 eq_refl).
  reflexivity.
Qed.

(** A function line starts with "async " exactly when it is marked so. *)
Lemma function_line_async (is_async : bool) (w0 w name params tail : string) :
  startswith (function_line is_async w0 w name params tail) "async "
  = is_async.
Proof. destruct is_async; reflexivity. Qed.

(** A function line is no class header: a blank follows its first word. *)
Lemma function_line_no_class (is_async : bool)
      (w0 w name params tail : string) :
  is_blank w = true -> is_word_name name = true ->
  rmatch re_class (function_line is_async w0 w name params tail) = None.
Proof.
  intros Hw Hn. destruct (word_name_inv _ Hn) as (n0 & n' & -> & Wn0 & _).
  unfold is_blank in Hw. destruct w as [|c0 w']; [discriminate|].
  cbn [is_empty negb andb forall_str] in Hw.
  apply andb_true_iff in Hw as [Sc0 Sw].
  unfold function_line. destruct is_async; cbn [async_prefix].
  - change (("async " ++ w0) ++ "def" ++ String c0 w' ++ String n0 n' ++ "("
            ++ params ++ ")" ++ tail)%string
      with ("async" ++ String " " (w0 ++ "def" ++ String c0 w' ++ String n0 n'
            ++ "(" ++ params ++ ")" ++ tail))%string.
    apply re_class_fails_after_blank; [reflexivity|reflexivity|].
    rewrite forall_str_app. cbn [String.append forall_str].
    change (space "d") with false. apply andb_false_r.
  - change ("" ++ "def" ++ String c0 w' ++ String n0 n' ++ "("
            ++ params ++ ")" ++ tail)%string
      with ("def" ++ String c0 (w' ++ String n0 n' ++ "(" ++ params ++ ")"
            ++ tail))%string.
    apply re_class_fails_after_blank; [reflexivity|exact Sc0|].
    rewrite forall_str_app. cbn [String.append forall_str].
    rewrite (word_not_space _ Wn0). apply andb_false_r.
Qed.

(** [_parse_component] on a function line, the end of the function
    pattern being known to turn [g] into [fin g] on [tail]. *)
Lemma parse_component_function (lines : list string) (i : nat)
      (is_async : bool) (w0 w name params tail : string)
      (fin : groups -> groups) :
  forall_str space w0 = true -> is_blank w = true ->
  is_word_name name = true -> is_params params = true ->
  contains "=" params = false -> contains "=" tail = false ->
  (forall g,
      run (Opt (Star true space +++ Lit "->" +++ Star true space +++
                Grp 3 (Plus false dot)) +++
           Opt (Lit ":") +++ Star true space +++ Eol)%re (fun _ g' => Some g')
          tail g = Some (fin g)) ->
  fin (set_group 2 params (set_group 1 name no_groups)) 1 = Some name ->
  fin (set_group 2 params (set_group 1 name no_groups)) 2 = Some params ->
  strip (line_at lines i) = function_line is_async w0 w name params tail ->
  _parse_component lines i
  = Ok (Some (function_component lines i name params
                (strip_if_truthy
                   (fin (set_group 2 params (set_group 1 name no_groups)) 3))
                is_async)).
Proof.
  intros W0 Hw Hn Hp Ep Et Hf G1 G2 HL.
  pose proof (@function_line_no_equals is_async w0 w name params tail
                W0 Hw Hn Ep Et) as C.
  pose proof (@function_line_no_class is_async w0 w name params tail Hw Hn)
    as NC.
  pose proof (@re_function_signature is_async w0 w name params tail fin
                W0 Hw Hn Hp Hf) as M.
  pose proof (function_line_async is_async w0 w name params tail) as SA.
  assert (SL : strip (function_line is_async w0 w name params tail)
               = function_line is_async w0 w name params tail)
    by (rewrite <- HL; apply strip_idempotent).
  assert (NK : matches re_constant_head
                 (function_line is_async w0 w name params tail) = false)
    by (destruct is_async; reflexivity).
  unfold _parse_component. rewrite HL.
  set (line := function_line is_async w0 w name params tail) in *.
  unfold rule_assignment. rewrite C. cbn [andb bind].
  unfold later_rules, rule_constant, rule_class, rule_function.
  rewrite NK, NC, M, SL, SA. unfold group. rewrite G1, G2. reflexivity.
Qed.

Lemma ends_plainly_inv (R : string) (c : ascii) :
  ends_plainly R = true -> last_char R = Some c ->
  c <> ":"%char /\ space c = false.
Proof.
  unfold ends_plainly. intros H L. rewrite L in H.
  apply andb_true_iff in H as [H1 H2]. apply negb_true_iff in H1, H2.
  split; [|exact H2]. intros ->. discriminate.
Qed.

(** X16.  A line that reads, once trimmed, "def", whitespace, a name,
    the parameters in parentheses and an optional ':' is a function
    component with that name and one method of that name, whose parameter
    text is taken as it stands (it holds neither '=' nor ')'), without
    return type; the decorator lines right above it and the docstring
    line below it are attached.  With "->" and a return text before the
    optional ':' the return type is that text trimmed; without the ':'
    the text must end neither in ':' nor in whitespace.  The function is
    marked asynchronous exactly when "async" and a blank stand before
    "def". *)
Theorem function_form (lines : list string) (i : nat) (is_async colon : bool)
        (w0 w name params : string) :
  forall_str space w0 = true -> is_blank w = true ->
  is_word_name name = true -> is_params params = true ->
  contains "=" params = false ->
  (strip (line_at lines i)
   = function_line is_async w0 w name params (colon_text colon) ->
   _parse_component lines i
   = Ok (Some (function_component lines i name params None is_async)))
  /\ forall w1 w2 R : string,
      forall_str space w1 = true -> forall_str space w2 = true ->
      is_return_text R = true -> contains "=" R = false ->
      colon || ends_plainly R = true ->
      strip (line_at lines i)
      = function_line is_async w0 w name params
                      (w1 ++ "->" ++ w2 ++ R ++ colon_text colon) ->
      _parse_component lines i
      = Ok (Some (function_component lines i name params (Some (strip R))
                                     is_async)).
Proof.
  intros W0 Hw Hn Hp Ep. split.
  - intros HL.
    assert (Et : contains "=" (colon_text colon) = false)
      by (destruct colon; reflexivity).
    exact (@parse_component_function lines i is_async w0 w name params
             (colon_text colon) (fun g => g) W0 Hw Hn Hp Ep Et
             (function_tail_plain colon) eq_refl eq_refl HL).
  - intros w1 w2 R W1 W2 HR Er Hc' HL.
    assert (Hc : colon = false -> ends_plainly R = true)
      by (intros E; rewrite E in Hc'; exact Hc').
    assert (Et : contains "=" (w1 ++ "->" ++ w2 ++ R ++ colon_text colon)
                 = false).
    { rewrite !contains_app, Er.
      rewrite (@forall_not_contains space "=" w1 W1 eq_refl).
      rewrite (@forall_not_contains space "=" w2 W2 eq_refl).
      destruct colon; reflexivity. }
    rewrite (@parse_component_function lines i is_async w0 w name params
               (w1 ++ "->" ++ w2 ++ R ++ colon_text colon) (set_group 3 R)
               W0 Hw Hn Hp Ep Et
               (fun g => @function_tail_arrow colon w1 w2 R g W1 W2 HR
                           (fun E c L => @ends_plainly_inv R c (Hc E) L))
               eq_refl eq_refl HL).
    unfold set_group at 1. cbn [Nat.eqb strip_if_truthy].
    unfold is_return_text in HR. destruct R; [discriminate|reflexivity].
Qed.

Lemma function_form_witness :
  _parse_component
    ["@cache"; "  async  def load(p: str)  -> Dict[str, int] :"; "done"] 1
  = Ok (Some (function_component
                ["@cache"; "  async  def load(p: str)  -> Dict[str, int] :";
                 "done"] 1
                "load" "p: str" (Some "Dict[str, int]") true)).
Proof.
  exact (proj2 (@function_form
                  ["@cache"; "  async  def load(p: str)  -> Dict[str, int] :";
                   "done"] 1 true true " " " " "load" "p: str"
                  eq_refl eq_refl eq_refl eq_refl eq_refl)
               "  " " " "Dict[str, int] " eq_refl eq_refl eq_refl eq_refl
               eq_refl eq_refl).
Defined.

(** ** Class header lines *)

(** What follows the name on a class header. *)
Lemma class_line_tail (base : option string) (colon : bool) :
  (base_text base ++ colon_text colon)%string = ""
  \/ (base_text base ++ colon_text colon)%string = ":"
  \/ exists X', (base_text base ++ colon_text colon)%string = String "(" X'.
Proof.
  destruct base as [b|]; [right; right; eexists; reflexivity|].
  destruct colon; auto.
Qed.

(** A word followed by nothing, ':' or '(' is not a word followed by
    whitespace. *)
Lemma word_run_blank_clash (name X u : string) (c : ascii) (rest : string) :
  forall_str word name = true -> forall_str word u = true ->
  space c = true ->
  X = "" \/ X = ":" \/ (exists X', X = String "(" X') ->
  (name ++ X)%string <> (u ++ String c rest)%string.
Proof.
  intros Wn Wu Sc HX E.
  destruct (@class_prefix_cases word c (space_not_word _ Sc) _ _ _ _ Wn Wu E)
    as (z & Ez & EX).
  assert (Wz : forall_str word z = true).
  { rewrite Ez, forall_str_app in Wu. apply andb_true_iff in Wu as [_ Wu].
    exact Wu. }
  destruct z as [|z0 z]; cbn [String.append forall_str] in EX, Wz.
  - destruct HX as [->|[->|[X' ->]]]; try discriminate;
      injection EX as <-; discriminate.
  - apply andb_true_iff in Wz as [Wz _].
    destruct HX as [->|[->|[X' ->]]]; try discriminate;
      injection EX as <-; discriminate.
Qed.

(** The function pattern fails on a class header. *)
Lemma re_function_fails_on_header (name X : string) :
  forall_str word name = true ->
  X = "" \/ X = ":" \/ (exists X', X = String "(" X') ->
  rmatch re_function (name ++ X) = None.
Proof.
  intros Wn HX. unfold rmatch. apply run_fails. intros s' g' M. exfalso.
  unfold re_function in M.
  apply Matches_Seq_inv in M as (s1 & g1 & M1 & M).
  apply Matches_Opt_inv in M1 as [M1|[-> ->]].
  - apply Matches_Seq_inv in M1 as (s2 & g2 & M1 & M2).
    apply Matches_Lit_inv in M1 as (E & _).
    apply Matches_Plus_inv in M2 as (a & u & -> & Sa & _ & _).
    revert E. cbn [String.append].
    apply (@word_run_blank_clash name X "async" a (u ++ s1));
      auto.
  - apply Matches_Seq_inv in M as (s2 & g2 & M1 & M).
    apply Matches_Lit_inv in M1 as (E & _).
    apply Matches_Seq_inv in M as (s3 & g3 & M2 & _).
    apply Matches_Plus_inv in M2 as (a & u & -> & Sa & _ & _).
    revert E. cbn [String.append].
    apply (@word_run_blank_clash name X "def" a (u ++ s3));
      auto.
Qed.

Lemma const_tail_word (a : ascii) : const_tail a = true -> word a = true.
Proof.
  unfold const_tail, upper_AZ, word. intros H.
  apply orb_true_iff in H as [H|H]; [apply orb_true_iff in H as [H|H]|];
    rewrite H; rewrite ?orb_true_r; reflexivity.
Qed.

(** The only class header on which the constant pattern finds its start
    is an upper-case name with ':'. *)
Lemma constant_head_header (name X : string) :
  forall_str word name = true ->
  X = "" \/ X = ":" \/ (exists X', X = String "(" X') ->
  matches re_constant_head (name ++ X) = true ->
  is_constant_name name = true /\ X = ":".
Proof.
  intros Wn HX H. unfold matches in H.
  destruct (rmatch re_constant_head (name ++ X)) as [g|] eqn:M;
    [clear H|discriminate].
  apply rmatch_sound in M as [s' M]. unfold re_constant_head in M.
  apply Matches_Seq_inv in M as (s1 & g1 & M1 & M).
  apply Matches_Chr_inv in M1 as (a & E & Ua & _).
  apply Matches_Seq_inv in M as (s2 & g2 & M2 & M3).
  apply Matches_Star_inv in M2 as (u & -> & Cu & _).
  apply Matches_Lit_inv in M3 as (-> & _).
  assert (Hc : is_constant_name (String a u) = true)
    by (cbn [is_constant_name]; rewrite Ua, Cu; reflexivity).
  assert (Wc : forall_str word (String a u) = true).
  { pose proof (constant_name_class _ Hc) as C. clear - C.
    induction (String a u) as [|b t IH]; [reflexivity|].
    cbn [forall_str] in *. apply andb_true_iff in C as [Cb C].
    rewrite (const_tail_word _ Cb), (IH C). reflexivity. }
  change (String a (u ++ ":" ++ s'))
    with (String a u ++ String ":" s')%string in E.
  destruct (@class_prefix_cases word ":" eq_refl _ _ _ _ Wn Wc E)
    as (z & Ez & EX).
  assert (Wz : forall_str word z = true).
  { rewrite Ez, forall_str_app in Wc. apply andb_true_iff in Wc as [_ Wc].
    exact Wc. }
  destruct z as [|z0 z]; cbn [String.append forall_str] in EX, Wz.
  - rewrite append_nil_r in Ez. subst name. split; [exact Hc|].
    destruct HX as [->|[->|[X' ->]]]; [discriminate|reflexivity|discriminate].
  - apply andb_true_iff in Wz as [Wz _].
    destruct HX as [->|[->|[X' ->]]]; try discriminate;
      injection EX as <-; discriminate.
Qed.

(** The constant form yields nothing on a class header. *)
Lemma rule_constant_header (name X : string) :
  forall_str word name = true ->
  X = "" \/ X = ":" \/ (exists X', X = String "(" X') ->
  rule_constant (name ++ X) = None.
Proof.
  intros Wn HX.
  destruct (matches re_constant_head (name ++ X)) eqn:H.
  - destruct (@constant_head_header name X Wn HX H) as [Hc ->].
    change (name ++ ":")%string with (name ++ ":" ++ "")%string.
    rewrite rule_constant_spec by (exact Hc || reflexivity). reflexivity.
  - unfold rule_constant. rewrite H. reflexivity.
Qed.

(** The class pattern on a class header: the name and the base class. *)
Lemma re_class_header (name : string) (base : option string) (colon : bool) :
  is_word_name name = true -> is_base base = true ->
  exists g, rmatch re_class (class_line name base colon) = Some g
            /\ g 1 = Some name /\ g 2 = base.
Proof.
  intros Hn Hb.
  destruct (word_name_inv _ Hn) as (n0 & n' & -> & Wn0 & Wn).
  assert (St : stops word (base_text base ++ colon_text colon) = true)
    by (destruct base, colon; reflexivity).
  assert (Tail : forall g,
    run (Opt (Lit ":") +++ Star true space +++ Eol)%re (fun _ g' => Some g')
        (colon_text colon) g = Some g)
    by (intros g; destruct colon; reflexivity).
  unfold rmatch, re_class, class_line.
  rewrite run_Seq, run_Grp. unfold Plus at 1. cbn [String.append].
  rewrite run_Seq, run_Chr by exact Wn0. rewrite run_Star.
  destruct base as [b|]; cbn [base_text] in St |- *.
  - unfold is_base in Hb. apply andb_true_iff in Hb as [Hb _].
    apply andb_true_iff in Hb as [Ne Np]. apply negb_true_iff in Np.
    destruct b as [|b0 b']; [discriminate|].
    apply not_contains_forall in Np. cbn [forall_str] in Np.
    apply andb_true_iff in Np as [Nb0 Nb].
    assert (EX : (("(" ++ String b0 b' ++ ")") ++ colon_text colon)%string
                 = ("(" ++ String b0 b' ++ ")" ++ colon_text colon)%string)
      by (cbn [String.append]; rewrite append_assoc; reflexivity).
    rewrite EX in St |- *.
    eexists. split.
    + apply star_greedy_max; [exact Wn|exact St|]. cbn beta.
      change (String n0 (n' ++ "(" ++ String b0 b' ++ ")" ++ colon_text colon))
        with (String n0 n' ++ "(" ++ String b0 b' ++ ")"
              ++ colon_text colon)%string.
      rewrite slice_to_append, run_Seq. apply run_Opt_some.
      rewrite run_Seq, run_Lit, run_Seq, run_Grp. unfold Plus at 1.
      cbn [String.append].
      rewrite run_Seq, run_Chr by exact Nb0. rewrite run_Star.
      apply star_greedy_max; [exact Nb|reflexivity|]. cbn beta.
      change (String b0 (b' ++ String ")" (colon_text colon)))
        with (String b0 b' ++ ")" ++ colon_text colon)%string.
      rewrite slice_to_append.
      change (String ")" (colon_text colon))
        with (")" ++ colon_text colon)%string.
      rewrite run_Lit. apply Tail.
    + split; reflexivity.
  - eexists. split.
    + apply star_greedy_max; [exact Wn|exact St|]. cbn beta.
      change (String n0 (n' ++ "" ++ colon_text colon))
        with (String n0 n' ++ "" ++ colon_text colon)%string.
      rewrite slice_to_append, run_Seq. cbn [String.append].
      rewrite run_Opt_none by (destruct colon; reflexivity).
      apply Tail.
    + split; reflexivity.
Qed.

Lemma class_line_no_equals (name : string) (base : option string)
      (colon : bool) :
  is_word_name name = true -> is_base base = true ->
  contains "=" (class_line name base colon) = false.
Proof.
  intros Hn Hb. unfold is_word_name in Hn.
  apply andb_true_iff in Hn as [_ Hn].
  unfold class_line. rewrite !contains_app.
  rewrite (@forall_not_contains word "=" name Hn eq_refl).
  assert (B : contains "=" (base_text base) = false).
  { destruct base as [b|]; [|reflexivity]. cbn [is_base base_text] in *.
    apply andb_true_iff in Hb as [_ Hb]. apply negb_true_iff in Hb.
    rewrite !contains_app, Hb. reflexivity. }
  rewrite B. destruct colon; reflexivity.
Qed.

(** X17.  A line that reads, once trimmed, a name, an optional base
    class in parentheses (a text without ')' and without '=') and an
    optional ':' is a class exactly when the next line exists and is a
    member line; the class has that name and that base class, and the
    members read from the lines below.  Without a member line right
    below, the header yields no component at all. *)
Theorem class_form (lines : list string) (i : nat) (name : string)
        (base : option string) (colon : bool) :
  is_word_name name = true -> is_base base = true ->
  strip (line_at lines i) = class_line name base colon ->
  _parse_component lines i
  = if member_follows lines i
    then Ok (Some (class_component lines i name base))
    else Ok None.
Proof.
  intros Hn Hb HL.
  pose proof (@class_line_no_equals name base colon Hn Hb) as C.
  pose proof (class_line_tail base colon) as HX.
  destruct (@re_class_header name base colon Hn Hb) as (g & M & G1 & G2).
  assert (Wn : forall_str word name = true)
    by (unfold is_word_name in Hn; apply andb_true_iff in Hn as [_ Hn];
        exact Hn).
  pose proof (@rule_constant_header name _ Wn HX) as RC.
  pose proof (@re_function_fails_on_header name _ Wn HX) as RF.
  fold (class_line name base colon) in RC, RF.
  unfold _parse_component. rewrite HL. unfold rule_assignment.
  rewrite C. cbn [andb bind]. unfold later_rules. rewrite RC.
  unfold rule_class, rule_function. rewrite M, RF.
  fold (member_follows lines i). unfold class_component, group.
  rewrite G1, G2. destruct (member_follows lines i); [|reflexivity].
  destruct (class_members (skipn (i + 1) lines) (i + 1) [] []); reflexivity.
Qed.

Lemma class_form_witness :
  _parse_component
    ["  Repo(Base): "; "- get(key: str) -> Item"; "- size: int"; ""; "VERSION = 1"] 0
  = Ok (Some (mkComponent type_class "Repo" (Some "Base")
                [mkMethod "get" "key: str" (Some "Item") None [] false;
                 mkMethod "size" "" (Some "int") None [] false]
                [] None None)).
Proof.
  exact (@class_form
           ["  Repo(Base): "; "- get(key: str) -> Item"; "- size: int"; "";
            "VERSION = 1"] 0 "Repo" (Some "Base") true
           eq_refl eq_refl eq_refl).
Defined.

(** ** The components of the document *)

Lemma parse_step_components (lines : list string) (i : nat)
      (bp bp' : Blueprint) (next : nat) :
  parse_step lines i bp = Ok (bp', next) ->
  components bp' = components bp ++ component_at lines i.
Proof.
  unfold parse_step, component_at. intros H.
  destruct (startswith (strip (line_at lines i)) "deps:").
  { apply ok_pair_inv in H as [<- _]. cbn. rewrite app_nil_r. reflexivity. }
  destruct (startswith (strip (line_at lines i)) "notes:").
  { apply ok_pair_inv in H as [<- _]. cbn. rewrite app_nil_r. reflexivity. }
  destruct (is_empty (strip (line_at lines i))); cbn [negb andb orb] in *.
  { apply ok_pair_inv in H as [<- _]. rewrite app_nil_r. reflexivity. }
  destruct (startswith (strip (line_at lines i)) "#"); cbn [negb] in *.
  { apply ok_pair_inv in H as [<- _]. rewrite app_nil_r. reflexivity. }
  destruct (_parse_component lines i) as [[c|]| |]; cbn [bind] in H;
    try discriminate; apply ok_pair_inv in H as [<- _].
  - reflexivity.
  - rewrite app_nil_r. reflexivity.
Qed.

Lemma parse_loop_components (fuel : nat) :
  forall (lines : list string) (i : nat) (bp d : Blueprint),
  parse_loop fuel lines i bp = Ok d ->
  components d
  = components bp
    ++ flat_map (component_at lines) (cursor_trace fuel lines i bp).
Proof.
  induction fuel as [|fuel IH]; intros lines i bp d H;
    cbn [parse_loop cursor_trace] in *.
  - destruct (i <? List.length lines); [discriminate|]. injection H as <-.
    cbn. rewrite app_nil_r. reflexivity.
  - destruct (i <? List.length lines);
      [|injection H as <-; cbn; rewrite app_nil_r; reflexivity].
    destruct (parse_step lines i bp) as [[bp' next]| |] eqn:S; cbn [bind] in H;
      try discriminate.
    cbn [fst snd flat_map] in *. rewrite (IH _ _ _ _ H).
    rewrite (parse_step_components _ _ _ S), app_assoc. reflexivity.
Qed.

(** X18.  The components of a parsed document are, in this order, the
    components read at the lines the driver's cursor visits (from line 2
    on), one at most for each: a visited "deps:" or "notes:" line, blank
    line or '#' line gives none, and a line the cursor jumps over (the
    span of the component before it) is never read as a component. *)
Theorem components_follow_cursor (content : string) (d : Blueprint) :
  parse_content content = Ok d ->
  components d
  = flat_map (component_at (lines_of content))
             (cursor_trace (List.length (lines_of content)) (lines_of content)
                           2 (initial_blueprint content)).
Proof.
  rewrite parse_content_unfold.
  destruct (startswith (line_at (lines_of content) 0) "#"); [|discriminate].
  intros H. apply parse_loop_components in H. exact H.
Qed.

Lemma components_follow_cursor_witness :
  exists d,
    parse_content (unlines ["# shop"; "orders"; "deps: .db"; "Cart(Base):";
                            "- add(item: Item)"; ""; "  def total() -> int:";
                            "UserId = str"])
    = Ok d
    /\ map c_name (components d) = ["Cart"; "total"; "UserId"].
Proof.
  eexists. split; [reflexivity|].
  exact (f_equal (map c_name)
           (@components_follow_cursor
              (unlines ["# shop"; "orders"; "deps: .db"; "Cart(Base):";
                        "- add(item: Item)"; ""; "  def total() -> int:";
                        "UserId = str"]) _ eq_refl)).
Defined.
